(** * Log-structured store (plasma/lss): flush buffers, buffer ring, log store

    A shallow embedding of the Go package [plasma]: the state word
    ([encodeState]/[decodeState]), the flush buffer ([Alloc], [Done],
    [Init], [Read], [Reset], ...) and the log store ([newLSStore],
    [flush], [ReserveSpace], [FinalizeWrite], [Read]).

    Conventions.
    - Go's [int] and [int64] are 64-bit two's-complement integers, [int32]
      is 32-bit, [uint64] is 64-bit unsigned.  All are carried by [Z] and
      every conversion or arithmetic operation that can wrap goes through
      [int64], [int32] or [uint64] below.
    - A [*flushBuffer] is an index into the ring [flushBufs] of the store
      that owns it ([newLSStore] is the only place where flush buffers are
      allocated); the nil pointer is [None].
    - The embedding is sequential: each API call runs to completion, so an
      atomic load followed by a compare-and-swap on the loaded value
      succeeds, and a loop that only waits for another thread never exits
      ([Spin]).
    - The two file handles [w] and [r] of the store are opened on the same
      path; the field [file] is the content of that file. *)

From Stdlib Require Import ZArith Lia Bool List.
From Stdlib Require Import Strings.Byte.
From stdpp Require Import base option list.

Local Open Scope Z_scope.

(** ** Machine integers *)

Module MachineInt.

Definition uint64 (z : Z) : Z := z mod 2 ^ 64.
Definition int64 (z : Z) : Z := (z + 2 ^ 63) mod 2 ^ 64 - 2 ^ 63.
Definition int32 (z : Z) : Z := (z + 2 ^ 31) mod 2 ^ 32 - 2 ^ 31.

Definition max_int64 : Z := 2 ^ 63 - 1.
Definition min_int64 : Z := - 2 ^ 63.

Definition is_int64 (z : Z) : Prop := min_int64 <= z <= max_int64.
Definition is_uint64 (z : Z) : Prop := 0 <= z < 2 ^ 64.

End MachineInt.
Export MachineInt.

#[global] Arguments uint64 : simpl never.
#[global] Arguments int64 : simpl never.
#[global] Arguments int32 : simpl never.

(** ** State word *)

(** [decodeState]: bit 0 is the full flag, [state >> 1 & 0xffff] the writer
    count, [state >> 33] the fill offset.  Go's [>>] and [&] have the same
    precedence and associate to the left. *)
Definition decodeState (state : Z) : bool * Z * Z :=
  let isfull := Z.land state 1 =? 1 in
  let nwriters := int64 (Z.land (Z.shiftr state 1) 65535) in
  let offset := int64 (Z.shiftr state 33) in
  (isfull, nwriters, offset).

Definition encodeState (isfull : bool) (nwriters offset : Z) : Z :=
  let isfullbits := if isfull then 1 else 0 in
  let nwritersbits := uint64 (Z.shiftl (uint64 nwriters) 1) in
  let offsetbits := uint64 (Z.shiftl (uint64 offset) 33) in
  let state := Z.lor (Z.lor isfullbits nwritersbits) offsetbits in
  state.

#[global] Arguments decodeState : simpl never.
#[global] Arguments encodeState : simpl never.

(** ** Outcomes of a call

    [Panic] is a Go run-time panic (index or slice bounds out of range,
    nil dereference, integer division by zero, the explicit [panic] of
    [ReserveSpace]).  [Spin] is a loop that cannot make progress without
    another thread, or one that exhausted the fuel of the embedding. *)

Inductive result (A : Type) : Type :=
| Ok (a : A)
| Panic
| Spin.

Arguments Ok {A} a.
Arguments Panic {A}.
Arguments Spin {A}.

#[global] Instance result_bind : MBind result := fun A B k r =>
  match r with
  | Ok a => k a
  | Panic => Panic
  | Spin => Spin
  end.

#[global] Instance result_ret : MRet result := fun A a => Ok a.

(** A nil or dangling pointer dereference, an index out of range. *)
Definition deref {A : Type} (o : option A) : result A :=
  match o with
  | Some a => Ok a
  | None => Panic
  end.

Inductive error : Type :=
| errFBReadFailed
| errEOF
| errNegativeOffset.

(** ** Go slices over lists *)

Definition len {A : Type} (l : list A) : Z := Z.of_nat (length l).

(** [a[lo:hi]] on a slice whose capacity equals its length; [None] is the
    run-time panic "slice bounds out of range". *)
Definition subslice {A : Type} (a : list A) (lo hi : Z) : option (list A) :=
  if (0 <=? lo) && (lo <=? hi) && (hi <=? len a)
  then Some (take (Z.to_nat (hi - lo)) (drop (Z.to_nat lo) a))
  else None.

(** The builtin [copy(dst, src)]: the new content of [dst]. *)
Definition copy {A : Type} (dst src : list A) : list A :=
  let n := Nat.min (length dst) (length src) in
  take n src ++ drop n dst.

(** A slice returned to a caller as a window [lo, hi) into the arena of a
    flush buffer: writes through it land in the arena. *)
Record view : Type := View { lo : Z; hi : Z }.

Definition view_len (v : view) : Z := hi v - lo v.

(** ** Flush buffer *)

(** The [callb] field is bound at construction and is the same for all the
    buffers of a store; it is a parameter of [Done] below. *)
Record flushBuffer : Type := mkFlushBuffer {
  baseOffset : Z;
  b : list byte;
  child : option nat;
  state : Z
}.

Definition set_baseOffset (fb : flushBuffer) (x : Z) : flushBuffer :=
  mkFlushBuffer x (b fb) (child fb) (state fb).
Definition set_b (fb : flushBuffer) (x : list byte) : flushBuffer :=
  mkFlushBuffer (baseOffset fb) x (child fb) (state fb).
Definition set_child (fb : flushBuffer) (x : option nat) : flushBuffer :=
  mkFlushBuffer (baseOffset fb) (b fb) x (state fb).
Definition set_state (fb : flushBuffer) (x : Z) : flushBuffer :=
  mkFlushBuffer (baseOffset fb) (b fb) (child fb) x.

Module FB.

Definition newFlushBuffer (sz : Z) : result flushBuffer :=
  if sz <? 0 then Panic
  else Ok (mkFlushBuffer 0 (replicate (Z.to_nat sz) x00) None 0).

Definition Bytes (fb : flushBuffer) : option (list byte) :=
  let '(_, _, offset) := decodeState (state fb) in
  subslice (b fb) 0 offset.

Definition StartOffset (fb : flushBuffer) : Z := baseOffset fb.

Definition EndOffset (fb : flushBuffer) : Z :=
  let '(_, _, offset) := decodeState (state fb) in
  int64 (baseOffset fb + int64 offset).

Definition NextBuffer (fb : flushBuffer) : option nat := child fb.

(** [Read]: the new content of [buf], the count and the error. *)
Definition Read (fb : flushBuffer) (off : Z) (buf : list byte)
  : result (list byte * (Z * option error)) :=
  let base := baseOffset fb in
  let start := int64 (off - base) in
  let '(_, _, offset) := decodeState (state fb) in
  if negb (base =? baseOffset fb)
     || negb ((base <=? off) && (off <? int64 (base + int64 offset)))
  then Ok (buf, (0, Some errFBReadFailed))
  else
    let l := len buf in
    if int64 (start + l) >? len (b fb)
    then Ok (buf, (0, Some errFBReadFailed))
    else
      match subslice (b fb) start (int64 (start + l)) with
      | None => Panic
      | Some src =>
          let buf' := copy buf src in
          if base =? baseOffset fb then Ok (buf', (l, None))
          else Ok (buf', (0, Some errFBReadFailed))
      end.

(** [Alloc]: the buffer after the call and [(status, markedFull, off, buf)].
    The compare-and-swap is on the state just loaded, so it succeeds.  The
    slice expression of the last [return] is evaluated after that
    compare-and-swap; when it panics the outcome is [Panic], which carries
    no state. *)
Definition Alloc (fb : flushBuffer) (size : Z)
  : result (flushBuffer * (bool * bool * Z * option view)) :=
  let st := state fb in
  let '(isfull, nw, offset) := decodeState st in
  if isfull then Ok (fb, (false, false, 0, None))
  else
    let newOffset := int64 (size + offset) in
    if newOffset >? len (b fb) then
      let newState := encodeState true nw offset in
      Ok (set_state fb newState, (false, true, 0, None))
    else
      let newState := encodeState false (int64 (nw + 1)) newOffset in
      match subslice (b fb) offset newOffset with
      | None => Panic
      | Some _ =>
          Ok (set_state fb newState,
              (true, false, int64 (baseOffset fb + int64 offset),
               Some (View offset newOffset)))
      end.

Definition IsFull (fb : flushBuffer) : bool :=
  let '(isfull, _, _) := decodeState (state fb) in isfull.

Definition Reset (fb : flushBuffer) : flushBuffer :=
  mkFlushBuffer 0 (b fb) None (encodeState false 1 0).

End FB.

(** ** Log store *)

Record lsStore : Type := mkLsStore {
  file : list byte;
  maxSize : Z;
  headOffset : Z;
  tailOffset : Z;
  head : option nat;
  bufSize : Z;
  flushBufs : list flushBuffer;
  currBuf : Z
}.

Definition set_file (s : lsStore) (x : list byte) : lsStore :=
  mkLsStore x (maxSize s) (headOffset s) (tailOffset s) (head s) (bufSize s)
    (flushBufs s) (currBuf s).
Definition set_tailOffset (s : lsStore) (x : Z) : lsStore :=
  mkLsStore (file s) (maxSize s) (headOffset s) x (head s) (bufSize s)
    (flushBufs s) (currBuf s).
Definition set_head (s : lsStore) (x : option nat) : lsStore :=
  mkLsStore (file s) (maxSize s) (headOffset s) (tailOffset s) x (bufSize s)
    (flushBufs s) (currBuf s).
Definition set_flushBufs (s : lsStore) (x : list flushBuffer) : lsStore :=
  mkLsStore (file s) (maxSize s) (headOffset s) (tailOffset s) (head s)
    (bufSize s) x (currBuf s).
Definition set_currBuf (s : lsStore) (x : Z) : lsStore :=
  mkLsStore (file s) (maxSize s) (headOffset s) (tailOffset s) (head s)
    (bufSize s) (flushBufs s) x.

(** Reading and writing the buffer a pointer designates. *)
Definition get_fb (s : lsStore) (p : nat) : result flushBuffer :=
  deref (flushBufs s !! p).

Definition put_fb (s : lsStore) (p : nat) (fb : flushBuffer) : lsStore :=
  set_flushBufs s (<[p := fb]> (flushBufs s)).

(** [s.flushBufs[i]] with a Go [int] index. *)
Definition index_fb (s : lsStore) (i : Z) : result (nat * flushBuffer) :=
  if i <? 0 then Panic
  else fb ← get_fb s (Z.to_nat i); Ok (Z.to_nat i, fb).

(** *** The file *)

(** [WriteAt(data, pos)]: a negative position is an error (which [flush]
    ignores) and writes nothing; a write past the end fills the gap with
    zero bytes. *)
Definition WriteAt (f data : list byte) (pos : Z) : list byte :=
  if pos <? 0 then f
  else
    match data with
    | [] => f
    | _ =>
        let n := Z.to_nat pos in
        take n (f ++ replicate (n - length f) x00) ++ data
          ++ drop (n + length data) f
    end.

(** [ReadAt(buf, pos)]: the new content of [buf], the count and the error. *)
Definition ReadAt (f buf : list byte) (pos : Z)
  : list byte * (Z * option error) :=
  if pos <? 0 then (buf, (0, Some errNegativeOffset))
  else
    let avail := drop (Z.to_nat pos) f in
    let n := Nat.min (length buf) (length avail) in
    (copy buf avail,
     (Z.of_nat n, if (n <? length buf)%nat then Some errEOF else None)).

Module LSS.

(** [newLSStore]: [existing] is the content of the file at [file] when it
    is opened (empty when it is created); opening is taken to succeed. *)
Definition newLSStore (existing : list byte) (maxSize : Z) (bufSize : Z)
    (nbufs : Z) : result lsStore :=
  if nbufs <? 0 then Panic
  else if nbufs =? 0 then Panic
  else
    fb ← FB.newFlushBuffer bufSize;
    Ok (mkLsStore existing maxSize 0 0 (Some 0%nat) bufSize
          (replicate (Z.to_nat nbufs) (FB.Reset fb)) 0).

Definition flush (p : nat) (s : lsStore) : result lsStore :=
  fb ← get_fb s p;
  if maxSize s =? 0 then Panic
  else
    let fpos := Z.rem (FB.StartOffset fb) (maxSize s) in
    bytes ← deref (FB.Bytes fb);
    let s1 := set_file s (WriteAt (file s) bytes fpos) in
    let s2 := set_head s1 (child fb) in
    let s3 := set_tailOffset s2 (FB.EndOffset fb) in
    Ok (put_fb s3 p (FB.Reset fb)).

End LSS.

(** *** Operations of a flush buffer that follow pointers *)

Section Callback.

(** The flush callback the buffers were constructed with. *)
Variable callb : nat -> lsStore -> result lsStore.

Fixpoint Done (fuel : nat) (p : nat) (s : lsStore) : result lsStore :=
  match fuel with
  | O => Spin
  | S fuel' =>
      fb ← get_fb s p;
      let '(isfull, nw, offset) := decodeState (state fb) in
      let newState := encodeState isfull (int64 (nw - 1)) offset in
      let s1 := put_fb s p (set_state fb newState) in
      s2 ← (if (nw =? 1) && isfull then callb p s1 else Ok s1);
      fb2 ← get_fb s2 p;
      match child fb2 with
      | Some c => Done fuel' c s2
      | None => Ok s2
      end
  end.

(** What follows the decrement in [Done]: the callback when the buffer
    became flush-ready, then the cascade along the child pointer as it is
    at that point. *)
Definition after_decrement (fuel : nat) (p : nat) (fire : bool)
    (s1 : lsStore) : result lsStore :=
  s2 ← (if fire then callb p s1 else Ok s1);
  fb2 ← get_fb s2 p;
  match child fb2 with
  | Some c => Done fuel c s2
  | None => Ok s2
  end.

Definition Init (fuel : nat) (p : nat) (parent : option nat) (base : Z)
    (s : lsStore) : result lsStore :=
  fb ← get_fb s p;
  let s1 := put_fb s p (set_baseOffset fb base) in
  match parent with
  | Some q =>
      fb1 ← get_fb s1 p;
      let s2 := put_fb s1 p (set_state fb1 (encodeState false 2 0)) in
      par ← get_fb s2 q;
      let s3 := put_fb s2 q (set_child par (Some p)) in
      Done fuel q s3
  | None => Ok s1
  end.

End Callback.

Module Store.

Definition Done := Done LSS.flush.
Definition Init := Init LSS.flush.

(** The reservation a caller gets: the logical offset ([lssOffset] is a
    [uint64]), the slice ([None] is nil) and the resource handle. *)
Definition reservation : Type := Z * option view * nat.

Fixpoint ReserveSpace (fuel : nat) (size : Z) (s : lsStore)
  : result (reservation * lsStore) :=
  match fuel with
  | O => Spin
  | S fuel' =>
      let id := currBuf s in
      let n := len (flushBufs s) in
      if n =? 0 then Panic
      else
        cur ← index_fb s (Z.rem id n);
        let '(p, fb) := (cur : nat * flushBuffer) in
        r ← FB.Alloc fb size;
        let '(fb', (success, markedFull, offset, buf)) :=
          (r : flushBuffer * (bool * bool * Z * option view)) in
        let s1 := put_fb s p fb' in
        if negb success then
          if markedFull then
            let nextId := int32 (id + 1) in
            nxt ← index_fb s1 (Z.rem nextId n);
            let '(q, nextFb) := (nxt : nat * flushBuffer) in
            if FB.IsFull nextFb then Spin
            else
              s2 ← Init fuel' q (Some p) (FB.EndOffset fb') s1;
              if negb (currBuf s2 =? id) then Panic
              else
                let s3 := set_currBuf s2 nextId in
                Ok ((uint64 offset, buf, p), s3)
          else ReserveSpace fuel' size s1
        else Ok ((uint64 offset, buf, p), s1)
  end.

Definition FinalizeWrite (fuel : nat) (res : nat) (s : lsStore)
  : result lsStore :=
  Done fuel res s.

(** The chain walk of [Read]: [Some] when a buffer served the read, [None]
    when the loop ended without one. *)
Fixpoint readChain (fuel : nat) (s : lsStore) (fb : option nat) (last : nat)
    (offset : Z) (buf : list byte) : result (option (list byte * Z)) :=
  match fuel with
  | O => Spin
  | S fuel' =>
      match fb with
      | None => Ok None
      | Some p =>
          x ← get_fb s p;
          r ← FB.Read x offset buf;
          let '(buf', (n, err)) := (r : list byte * (Z * option error)) in
          match err with
          | None => Ok (Some (buf', n))
          | Some _ =>
              if Nat.eqb p last then Ok None
              else readChain fuel' s (FB.NextBuffer x) last offset buf'
          end
      end
  end.

Fixpoint Read (fuel : nat) (lssOf : Z) (buf : list byte) (s : lsStore)
  : result (list byte * (Z * option error)) :=
  match fuel with
  | O => Spin
  | S fuel' =>
      let offset := int64 lssOf in
      let tail := tailOffset s in
      if offset >=? tail then
        let id := currBuf s in
        let n := len (flushBufs s) in
        if n =? 0 then Panic
        else
          cur ← index_fb s (Z.rem id n);
          let '(e, last) := (cur : nat * flushBuffer) in
          start ← deref (head s);
          first ← get_fb s start;
          let startOffset := FB.StartOffset first in
          let endOffset := FB.EndOffset last in
          if (startOffset <? endOffset) && (offset >=? startOffset)
             && (offset <? endOffset)
          then
            r ← readChain fuel' s (Some start) e offset buf;
            match r with
            | Some (buf', n) => Ok (buf', (n, None))
            | None => Read fuel' lssOf buf s
            end
          else Read fuel' lssOf buf s
      else if maxSize s =? 0 then Panic
      else
        let fpos := Z.rem offset (maxSize s) in
        Ok (ReadAt (file s) buf fpos)
  end.

(** A caller filling a reserved slice: [copy(buf, data)] through the
    window [v] of the arena of [res]. *)
Definition fill (res : nat) (v : view) (data : list byte) (s : lsStore)
  : result lsStore :=
  fb ← get_fb s res;
  window ← deref (subslice (b fb) (lo v) (hi v));
  let window' := copy window data in
  let arena := take (Z.to_nat (lo v)) (b fb) ++ window'
                 ++ drop (Z.to_nat (hi v)) (b fb) in
  Ok (put_fb s res (set_b fb arena)).

End Store.

(** ** Executions

    Sequences of API calls issued one after the other, as a single client
    (or several clients whose calls do not overlap) would issue them. *)

Module Exec.

Import Store.

(** A run of [ReserveSpace] calls: what each call returned. *)
Fixpoint reserveAll (fuel : nat) (sizes : list Z) (s : lsStore)
  : result (list reservation * lsStore) :=
  match sizes with
  | [] => Ok ([], s)
  | size :: sizes' =>
      r ← ReserveSpace fuel size s;
      rs ← reserveAll fuel sizes' (r.2);
      Ok (r.1 :: rs.1, rs.2)
  end.

Inductive call : Type :=
| Reserve (size : Z)
| Finalize (res : nat).

Definition perform (fuel : nat) (c : call) (s : lsStore) : result lsStore :=
  match c with
  | Reserve size => r ← ReserveSpace fuel size s; Ok (r.2)
  | Finalize res => FinalizeWrite fuel res s
  end.

(** A run of calls: the value of [tailOffset] observed after each call. *)
Fixpoint observeTail (fuel : nat) (cs : list call) (s : lsStore)
  : result (list Z * lsStore) :=
  match cs with
  | [] => Ok ([], s)
  | c :: cs' =>
      s1 ← perform fuel c s;
      r ← observeTail fuel cs' s1;
      Ok (tailOffset s1 :: r.1, r.2)
  end.

(** A run of calls: the store it leaves. *)
Fixpoint run (fuel : nat) (cs : list call) (s : lsStore) : result lsStore :=
  match cs with
  | [] => Ok s
  | c :: cs' => s1 ← perform fuel c s; run fuel cs' s1
  end.

(** A run of calls: what each [ReserveSpace] returned ([None] stands for a
    [FinalizeWrite], which returns nothing). *)
Fixpoint returned (fuel : nat) (cs : list call) (s : lsStore)
  : result (list (option reservation)) :=
  match cs with
  | [] => Ok []
  | Reserve size :: cs' =>
      r ← ReserveSpace fuel size s;
      rs ← returned fuel cs' (r.2);
      Ok (Some (r.1) :: rs)
  | Finalize res :: cs' =>
      s1 ← FinalizeWrite fuel res s;
      rs ← returned fuel cs' s1;
      Ok (None :: rs)
  end.

(** What a run leaves in buffer [p]: the decoded state word, the child
    pointer and the base offset. *)
Definition buffer_after (fuel : nat) (cs : list call) (p : nat)
    (r : result lsStore) : result (bool * Z * Z * option nat * Z) :=
  s ← r; s' ← run fuel cs s; fb ← get_fb s' p;
  Ok (decodeState (state fb), child fb, baseOffset fb).

(** Operations applied to one flush buffer [p] of a store. *)
Inductive fbop : Type :=
| OpAlloc (size : Z)
| OpDone
| OpReset.

Definition apply_op (fuel : nat) (p : nat) (o : fbop) (s : lsStore)
  : result lsStore :=
  match o with
  | OpAlloc size =>
      fb ← get_fb s p;
      r ← FB.Alloc fb size;
      Ok (put_fb s p (r.1))
  | OpDone => Done fuel p s
  | OpReset =>
      fb ← get_fb s p;
      Ok (put_fb s p (FB.Reset fb))
  end.

Fixpoint apply_ops (fuel : nat) (p : nat) (os : list fbop) (s : lsStore)
  : result lsStore :=
  match os with
  | [] => Ok s
  | o :: os' => s1 ← apply_op fuel p o s; apply_ops fuel p os' s1
  end.

(** The decoded state word of buffer [p] after a run. *)
Definition decoded (p : nat) (r : result lsStore) : result (bool * Z * Z) :=
  s ← r; fb ← get_fb s p; Ok (decodeState (state fb)).

(** The decoded fields of the state word of a buffer. *)
Definition fill_of (fb : flushBuffer) : Z := (decodeState (state fb)).2.
Definition nwriters_of (fb : flushBuffer) : Z := (decodeState (state fb)).1.2.

(** An operation is balanced when it is an [Alloc] of a non-negative size
    whose end does not overflow [int], a [Done] on a buffer that has a
    writer reference to release, or a [Reset]. *)
Definition balanced (s : lsStore) (p : nat) (o : fbop) : Prop :=
  match o with
  | OpAlloc size =>
      0 <= size /\
      forall fb, flushBufs s !! p = Some fb -> size + fill_of fb <= max_int64
  | OpDone =>
      forall fb, flushBufs s !! p = Some fb -> 1 <= nwriters_of fb
  | OpReset => True
  end.

Inductive balanced_run (fuel : nat) (p : nat)
  : lsStore -> list fbop -> lsStore -> Prop :=
| balanced_nil (s : lsStore) : balanced_run fuel p s [] s
| balanced_cons (s s1 s2 : lsStore) (o : fbop) (os : list fbop) :
    balanced s p o ->
    apply_op fuel p o s = Ok s1 ->
    balanced_run fuel p s1 os s2 ->
    balanced_run fuel p s (o :: os) s2.

(** A run of [Alloc] calls on one buffer: what each call returned. *)
Fixpoint allocAll (fb : flushBuffer) (sizes : list Z)
  : result (flushBuffer * list (bool * bool * Z * option view)) :=
  match sizes with
  | [] => Ok (fb, [])
  | size :: sizes' =>
      r ← FB.Alloc fb size;
      rs ← allocAll (r.1) sizes';
      Ok (rs.1, r.2 :: rs.2)
  end.

(** Back-to-back successful reservations from fill offset [off] of a
    buffer based at [base]. *)
Fixpoint tiling (base off : Z) (sizes : list Z)
  : list (bool * bool * Z * option view) :=
  match sizes with
  | [] => []
  | size :: sizes' =>
      (true, false, base + off, Some (View off (off + size)))
        :: tiling base (off + size) sizes'
  end.

Definition total (sizes : list Z) : Z := fold_right Z.add 0 sizes.

(** The buffer [p] of a store of file size [m] sits in the state reached
    from [Reset]: based at 0, without child, over the arena [arena], with a
    fill offset inside it. *)
Definition within_capacity (arena : list byte) (m : Z) (p : nat)
    (s : lsStore) : Prop :=
  maxSize s = m /\
  exists fb,
    flushBufs s !! p = Some fb
    /\ is_uint64 (state fb)
    /\ baseOffset fb = 0
    /\ child fb = None
    /\ b fb = arena
    /\ 0 <= fill_of fb <= len arena.

End Exec.

(** ** util.go: the sorter of page items *)

Module Util.

Section Sorter.

(** [PageItem] is an interface of the package and [Item()] its method; the
    items it returns are compared by the [skiplist.CompareFn] stored in the
    sorter.  The page items of the slice are taken to be non-nil. *)
Variables (PageItem item : Type).
Variable Item : PageItem -> item.

Record pageItemSorter : Type := mkSorter {
  itms : list PageItem;
  cmp : item -> item -> Z
}.

(** [a[i]] with a Go [int] index. *)
Definition at_index {A : Type} (a : list A) (i : Z) : result A :=
  if i <? 0 then Panic else deref (a !! Z.to_nat i).

Definition Len (s : pageItemSorter) : Z := len (itms s).

Definition Less (s : pageItemSorter) (i j : Z) : result bool :=
  x ← at_index (itms s) i;
  y ← at_index (itms s) j;
  Ok (cmp s (Item x) (Item y) <? 0).

(** [s.itms[i], s.itms[j] = s.itms[j], s.itms[i]]: both right-hand sides
    are read first, then the two elements are assigned from left to
    right. *)
Definition Swap (s : pageItemSorter) (i j : Z) : result pageItemSorter :=
  xj ← at_index (itms s) j;
  xi ← at_index (itms s) i;
  Ok (mkSorter (<[Z.to_nat j := xi]> (<[Z.to_nat i := xj]> (itms s)))
        (cmp s)).

End Sorter.

End Util.

(** ** config.go: defaults *)

Module Cfg.

Section Config.

(** The function-valued fields are carried as values of abstract types:
    [compareFn] and [itemSizeFn] for [Compare] and [ItemSize], [swapFn]
    for [shouldSwap].  [rssAbove] stands for the closure
    [applyConfigDefaults] builds over the [MaxMemoryUsage] of its
    argument; what the closure computes is not modelled. *)
Variables (compareFn itemSizeFn swapFn fileName : Type).
Variable rssAbove : Z -> swapFn.

Record Config : Type := mkConfig {
  MaxDeltaChainLen : Z;
  MaxPageItems : Z;
  MinPageItems : Z;
  Compare : option compareFn;
  ItemSize : option itemSizeFn;
  MaxSize : Z;
  File : fileName;
  FlushBufferSize : Z;
  NumPersistorThreads : Z;
  NumEvictorThreads : Z;
  LSSCleanerThreshold : Z;
  AutoLSSCleaning : bool;
  AutoSwapper : bool;
  EnableShapshots : bool;
  MaxMemoryUsage : Z;
  shouldSwap : option swapFn
}.

Definition set_NumPersistorThreads (cfg : Config) (x : Z) : Config :=
  mkConfig (MaxDeltaChainLen cfg) (MaxPageItems cfg) (MinPageItems cfg)
    (Compare cfg) (ItemSize cfg) (MaxSize cfg) (File cfg)
    (FlushBufferSize cfg) x (NumEvictorThreads cfg)
    (LSSCleanerThreshold cfg) (AutoLSSCleaning cfg) (AutoSwapper cfg)
    (EnableShapshots cfg) (MaxMemoryUsage cfg) (shouldSwap cfg).

Definition set_NumEvictorThreads (cfg : Config) (x : Z) : Config :=
  mkConfig (MaxDeltaChainLen cfg) (MaxPageItems cfg) (MinPageItems cfg)
    (Compare cfg) (ItemSize cfg) (MaxSize cfg) (File cfg)
    (FlushBufferSize cfg) (NumPersistorThreads cfg) x
    (LSSCleanerThreshold cfg) (AutoLSSCleaning cfg) (AutoSwapper cfg)
    (EnableShapshots cfg) (MaxMemoryUsage cfg) (shouldSwap cfg).

Definition set_shouldSwap (cfg : Config) (x : option swapFn) : Config :=
  mkConfig (MaxDeltaChainLen cfg) (MaxPageItems cfg) (MinPageItems cfg)
    (Compare cfg) (ItemSize cfg) (MaxSize cfg) (File cfg)
    (FlushBufferSize cfg) (NumPersistorThreads cfg) (NumEvictorThreads cfg)
    (LSSCleanerThreshold cfg) (AutoLSSCleaning cfg) (AutoSwapper cfg)
    (EnableShapshots cfg) (MaxMemoryUsage cfg) x.

(** [numCPU] is what [runtime.NumCPU()] returns. *)
Definition applyConfigDefaults (numCPU : Z) (cfg : Config) : Config :=
  let cfg1 :=
    if NumPersistorThreads cfg =? 0 then set_NumPersistorThreads cfg numCPU
    else cfg in
  let cfg2 :=
    if NumEvictorThreads cfg1 =? 0 then set_NumEvictorThreads cfg1 numCPU
    else cfg1 in
  match shouldSwap cfg2 with
  | None =>
      if MaxMemoryUsage cfg2 >? 0
      then set_shouldSwap cfg2 (Some (rssAbove (MaxMemoryUsage cfg2)))
      else cfg2
  | Some _ => cfg2
  end.

End Config.

End Cfg.

Arguments Cfg.Config : clear implicits.
Arguments Cfg.applyConfigDefaults {compareFn itemSizeFn swapFn fileName}
  rssAbove numCPU cfg.
Arguments Cfg.NumPersistorThreads {compareFn itemSizeFn swapFn fileName} c.
Arguments Cfg.NumEvictorThreads {compareFn itemSizeFn swapFn fileName} c.
Arguments Cfg.shouldSwap {compareFn itemSizeFn swapFn fileName} c.
Arguments Cfg.MaxMemoryUsage {compareFn itemSizeFn swapFn fileName} c.
Arguments Cfg.set_NumPersistorThreads {compareFn itemSizeFn swapFn fileName}
  cfg x.
Arguments Cfg.set_NumEvictorThreads {compareFn itemSizeFn swapFn fileName}
  cfg x.
Arguments Cfg.set_shouldSwap {compareFn itemSizeFn swapFn fileName} cfg x.

(** ** Concrete buffers and stores used below *)

Module Examples.

Definition fresh64 : flushBuffer :=
  FB.Reset (mkFlushBuffer 0 (replicate 64 x00) None 0).

(** [fresh64] after a successful [Alloc] of one byte. *)
Definition used64 : flushBuffer := set_state fresh64 (encodeState false 2 1).

(** [fresh64] after an [Alloc] that did not fit. *)
Definition sealed64 : flushBuffer := set_state fresh64 (encodeState true 1 0).

(** A buffer based at logical offset 100 that holds ten bytes. *)
Definition held64 : flushBuffer :=
  mkFlushBuffer 100 (replicate 10 x01 ++ replicate 54 x00) None
    (encodeState false 1 10).

(** A flush-ready buffer (full, no writer left) based at offset 1100,
    holding ten bytes, with buffer 1 as its child. *)
Definition ready64 : flushBuffer :=
  mkFlushBuffer 1100 (replicate 10 x01 ++ replicate 54 x00) (Some 1%nat)
    (encodeState true 0 10).

(** A store of two buffers over a file of 1024 bytes at most, whose
    buffer 0 is [ready64]. *)
Definition readyStore : lsStore :=
  mkLsStore [] 1024 0 1100 (Some 0%nat) 64 [ready64; fresh64] 1.

(** A store whose buffer 0 is full and waits for its last [Done], with
    buffer 1 as its child. *)
Definition lastWriter64 : flushBuffer :=
  mkFlushBuffer 0 (replicate 10 x01 ++ replicate 54 x00) (Some 1%nat)
    (encodeState true 1 10).

Definition lastWriterStore : lsStore :=
  mkLsStore [] 1024 0 0 (Some 0%nat) 64
    [lastWriter64; set_state (set_baseOffset fresh64 10)
                     (encodeState false 2 0)] 1.

(** The store [newLSStore] builds for [bufSize = 64], [nbufs = 2] and
    [maxSize = 1024] over a new file. *)
Definition freshStore : lsStore :=
  mkLsStore [] 1024 0 0 (Some 0%nat) 64 [fresh64; fresh64] 0.

(** Scenario A: one writer, [bufSize = 64], [nbufs = 2], [maxSize = 1024].
    The writer reserves 10 bytes, fills them with 0x01 and finalizes. *)
Definition scenarioA_first (fuel : nat) : result (Store.reservation * lsStore) :=
  s ← LSS.newLSStore [] 1024 64 2;
  r ← Store.ReserveSpace fuel 10 s;
  v ← deref (r.1.1.2);
  s1 ← Store.fill (r.1.2) v (replicate 10 x01) (r.2);
  s2 ← Store.FinalizeWrite fuel (r.1.2) s1;
  Ok (r.1, s2).

(** Then it reserves 60 bytes, fills whatever slice it got with 0x02 and
    finalizes. *)
Definition scenarioA_second (fuel : nat)
  : result (Store.reservation * lsStore) :=
  r1 ← scenarioA_first fuel;
  r ← Store.ReserveSpace fuel 60 (r1.2);
  s1 ← match r.1.1.2 with
       | Some v => Store.fill (r.1.2) v (replicate 60 x02) (r.2)
       | None => Ok (r.2)
       end;
  s2 ← Store.FinalizeWrite fuel (r.1.2) s1;
  Ok (r.1, s2).

(** [freshStore] after three reservations of 20 bytes, none finalized. *)
Definition busy64 : flushBuffer :=
  set_state fresh64 (encodeState false 4 60).

Definition busyStore : lsStore :=
  mkLsStore [] 1024 0 0 (Some 0%nat) 64 [busy64; fresh64] 0.

(** A store whose sealed buffer 0, based at offset 1100 with child 1, waits
    for its last writer. *)
Definition draining64 : flushBuffer :=
  mkFlushBuffer 1100 (replicate 10 x01 ++ replicate 54 x00) (Some 1%nat)
    (encodeState true 1 10).

Definition drainingStore : lsStore :=
  mkLsStore [] 1024 0 1100 (Some 0%nat) 64
    [draining64; set_state (set_baseOffset fresh64 1110)
                   (encodeState false 2 0)] 1.

(** The store scenario A ends in. *)
Definition scenarioA_end : lsStore :=
  mkLsStore (replicate 10 x01) 1024 0 10 (Some 1%nat) 64
    [mkFlushBuffer 0 (replicate 10 x01 ++ replicate 54 x00) None
       (encodeState false 0 0);
     mkFlushBuffer 10 (replicate 64 x00) None (encodeState false 2 0)] 1.

(** A slow writer: the first reservation (60 bytes in buffer 0) is
    finalized only after buffer 1 has been filled, sealed and flushed. *)
Definition slowWriter : list Exec.call :=
  [Exec.Reserve 60; Exec.Reserve 10; Exec.Reserve 10; Exec.Finalize 1;
   Exec.Reserve 60; Exec.Finalize 0].

(** Three writers reserve 20 bytes each in buffer 0 of a store of 64-byte
    buffers; a fourth request, of 10 bytes, does not fit and seals the
    buffer; then each of the three writers finalizes its reservation. *)
Definition threeWriters : list Exec.call :=
  [Exec.Reserve 20; Exec.Reserve 20; Exec.Reserve 20; Exec.Reserve 10;
   Exec.Finalize 0; Exec.Finalize 0; Exec.Finalize 0].

(** Two writers reserve 30 bytes each in buffer 0; a request of 10 bytes
    seals it; both writers finalize; a writer reserves 10 bytes in buffer 1
    and finalizes; a request of 60 bytes seals buffer 1. *)
Definition twoWriters : list Exec.call :=
  [Exec.Reserve 30; Exec.Reserve 30; Exec.Reserve 10; Exec.Finalize 0;
   Exec.Finalize 0; Exec.Reserve 10; Exec.Finalize 1; Exec.Reserve 60].

(** [twoWriters] for a caller that also finalizes the handle that came
    back with the nil slice of a sealing request. *)
Definition twoWriters_all : list Exec.call :=
  [Exec.Reserve 30; Exec.Reserve 30; Exec.Reserve 10; Exec.Finalize 0;
   Exec.Finalize 0; Exec.Finalize 0; Exec.Reserve 10; Exec.Finalize 1;
   Exec.Reserve 60; Exec.Finalize 1].

End Examples.

(** * Properties *)

(** ** Machine integers and the state word *)

Section StateWord.

Lemma int64_id (z : Z) : is_int64 z -> int64 z = z.
Proof.
  unfold is_int64, min_int64, max_int64, int64. intros H.
  rewrite Z.mod_small by lia. lia.
Qed.

Lemma uint64_id (z : Z) : is_uint64 z -> uint64 z = z.
Proof. unfold is_uint64, uint64. intros H. now apply Z.mod_small. Qed.

Lemma int64_range (z : Z) : is_int64 (int64 z).
Proof.
  unfold is_int64, min_int64, max_int64, int64.
  pose proof (Z.mod_pos_bound (z + 2 ^ 63) (2 ^ 64) ltac:(lia)). lia.
Qed.

Lemma uint64_range (z : Z) : is_uint64 (uint64 z).
Proof. unfold is_uint64, uint64. apply Z.mod_pos_bound. lia. Qed.

(** A sum that leaves the [int64] range wraps around by [2 ^ 64]. *)
Lemma int64_overflow (z : Z) :
  max_int64 < z <= max_int64 + 2 ^ 63 -> int64 z = z - 2 ^ 64.
Proof.
  unfold max_int64, int64. intros H.
  replace (z + 2 ^ 63) with (z - 2 ^ 63 + 1 * 2 ^ 64) by lia.
  rewrite Z.mod_add by lia. rewrite Z.mod_small by lia. lia.
Qed.

Lemma land_low_shiftl (a c k : Z) :
  0 <= k -> 0 <= a < 2 ^ k -> Z.land a (Z.shiftl c k) = 0.
Proof.
  intros Hk Ha. apply Z.bits_inj'. intros i Hi.
  rewrite Z.land_spec, Z.bits_0.
  destruct (Z.lt_ge_cases i k) as [Hlt | Hge].
  - rewrite Z.shiftl_spec_low by lia. apply andb_false_r.
  - rewrite <- (Z.mod_small a (2 ^ k)) by lia.
    rewrite Z.mod_pow2_bits_high by lia. reflexivity.
Qed.

Lemma lor_low_shiftl (a c k : Z) :
  0 <= k -> 0 <= a < 2 ^ k -> Z.lor a (Z.shiftl c k) = a + c * 2 ^ k.
Proof.
  intros Hk Ha. rewrite <- Z.add_nocarry_lor by now apply land_low_shiftl.
  now rewrite Z.shiftl_mul_pow2.
Qed.

(** The offset field keeps the low 31 bits of the offset it is given. *)
Lemma offsetbits_mod (off : Z) :
  uint64 (Z.shiftl (uint64 off) 33) = Z.shiftl (off mod 2 ^ 31) 33.
Proof.
  unfold uint64. rewrite !Z.shiftl_mul_pow2 by lia.
  change (2 ^ 64) with (2 ^ 31 * 2 ^ 33) at 2.
  rewrite Z.mul_mod_distr_r by lia.
  rewrite Z.mod_mod_divide by (exists (2 ^ 33); reflexivity).
  reflexivity.
Qed.

Lemma encodeState_sum (isfull : bool) (nw off : Z) :
  0 <= nw < 2 ^ 32 ->
  encodeState isfull nw off
  = Z.b2z isfull + 2 * nw + 2 ^ 33 * (off mod 2 ^ 31).
Proof.
  intros Hn. unfold encodeState. rewrite offsetbits_mod.
  rewrite (uint64_id nw) by (unfold is_uint64; lia).
  rewrite (uint64_id (Z.shiftl nw 1))
    by (unfold is_uint64; rewrite Z.shiftl_mul_pow2 by lia; lia).
  replace (if isfull then 1 else 0) with (Z.b2z isfull) by now destruct isfull.
  rewrite (lor_low_shiftl (Z.b2z isfull) nw 1) by (destruct isfull; simpl; lia).
  rewrite lor_low_shiftl by (destruct isfull; simpl Z.b2z; lia).
  lia.
Qed.

Lemma decodeState_sum (f : bool) (nw off : Z) :
  0 <= nw < 2 ^ 32 -> 0 <= off < 2 ^ 31 ->
  decodeState (Z.b2z f + 2 * nw + 2 ^ 33 * off) = (f, nw mod 65536, off).
Proof.
  intros Hn Ho. unfold decodeState.
  set (st := Z.b2z f + 2 * nw + 2 ^ 33 * off).
  assert (Hb : 0 <= Z.b2z f <= 1) by (destruct f; simpl; lia).
  assert (H1 : Z.land st 1 = Z.b2z f).
  { change 1 with (Z.ones 1) at 1. rewrite Z.land_ones by lia.
    symmetry. apply (Z.mod_unique_pos _ _ (nw + 2 ^ 32 * off)); subst st; lia. }
  assert (H2 : Z.shiftr st 1 = nw + 2 ^ 32 * off).
  { rewrite Z.shiftr_div_pow2 by lia. symmetry.
    apply (Z.div_unique_pos _ _ _ (Z.b2z f)); subst st; lia. }
  assert (H3 : Z.shiftr st 33 = off).
  { rewrite Z.shiftr_div_pow2 by lia. symmetry.
    apply (Z.div_unique_pos _ _ _ (Z.b2z f + 2 * nw)); subst st; lia. }
  rewrite H1, H2, H3.
  change 65535 with (Z.ones 16). rewrite Z.land_ones by lia.
  assert (H4 : (nw + 2 ^ 32 * off) mod 2 ^ 16 = nw mod 65536).
  { replace (nw + 2 ^ 32 * off) with (nw + (2 ^ 16 * off) * 2 ^ 16) by lia.
    now rewrite Z.mod_add by lia. }
  rewrite H4.
  pose proof (Z.mod_pos_bound nw 65536 ltac:(lia)).
  rewrite !int64_id by (unfold is_int64, min_int64, max_int64; lia).
  f_equal. f_equal. destruct f; reflexivity.
Qed.

(** What [decodeState] reads back from an encoded word: the writer count
    is cut to 16 bits, the offset to 31 bits. *)
Lemma decode_encode_mod (f : bool) (nw off : Z) :
  0 <= nw < 2 ^ 32 ->
  decodeState (encodeState f nw off) = (f, nw mod 65536, off mod 2 ^ 31).
Proof.
  intros Hn. rewrite encodeState_sum by assumption.
  apply decodeState_sum; [assumption|]. apply Z.mod_pos_bound. lia.
Qed.

Lemma decode_encode (f : bool) (nw off : Z) :
  0 <= nw <= 65535 -> 0 <= off < 2 ^ 31 ->
  decodeState (encodeState f nw off) = (f, nw, off).
Proof.
  intros Hn Ho. rewrite decode_encode_mod by lia.
  now rewrite !Z.mod_small by lia.
Qed.

Lemma decodeState_arith (st : Z) :
  is_uint64 st ->
  decodeState st = (Z.land st 1 =? 1, (st / 2) mod 65536, st / 2 ^ 33).
Proof.
  unfold is_uint64, decodeState. intros Hst.
  change 65535 with (Z.ones 16). rewrite Z.land_ones by lia.
  rewrite !Z.shiftr_div_pow2 by lia.
  pose proof (Z.mod_pos_bound (st / 2 ^ 1) (2 ^ 16) ltac:(lia)).
  assert (0 <= st / 2 ^ 33 < 2 ^ 31).
  { split; [apply Z.div_pos; lia|]. apply Z.div_lt_upper_bound; lia. }
  rewrite !int64_id by (unfold is_int64, min_int64, max_int64; lia).
  reflexivity.
Qed.

Lemma decodeState_range (st : Z) (f : bool) (nw off : Z) :
  is_uint64 st -> decodeState st = (f, nw, off) ->
  0 <= nw <= 65535 /\ 0 <= off < 2 ^ 31.
Proof.
  intros Hst. rewrite decodeState_arith by assumption. intros [= _ <- <-].
  unfold is_uint64 in Hst.
  pose proof (Z.mod_pos_bound (st / 2) 65536 ltac:(lia)).
  assert (0 <= st / 2 ^ 33 < 2 ^ 31).
  { split; [apply Z.div_pos; lia|]. apply Z.div_lt_upper_bound; lia. }
  lia.
Qed.

Lemma lor_uint64 (x y : Z) :
  is_uint64 x -> is_uint64 y -> is_uint64 (Z.lor x y).
Proof.
  unfold is_uint64. intros Hx Hy. split.
  - apply Z.lor_nonneg. lia.
  - destruct (Z.eq_dec (Z.lor x y) 0) as [->|Hne]; [lia|].
    assert (0 < Z.lor x y) by (pose proof (proj2 (Z.lor_nonneg x y)); lia).
    apply Z.log2_lt_pow2; [assumption|].
    rewrite Z.log2_lor by lia.
    apply Z.max_lub_lt.
    + destruct (Z.eq_dec x 0) as [->|]; [simpl; lia|].
      apply Z.log2_lt_pow2; lia.
    + destruct (Z.eq_dec y 0) as [->|]; [simpl; lia|].
      apply Z.log2_lt_pow2; lia.
Qed.

Lemma encodeState_range (f : bool) (nw off : Z) :
  is_uint64 (encodeState f nw off).
Proof.
  unfold encodeState. apply lor_uint64; [apply lor_uint64|];
    try apply uint64_range.
  unfold is_uint64. destruct f; lia.
Qed.

End StateWord.

(** C2 (the code departs from the claim): [encodeState] keeps 32 bits of
    the writer count but [decodeState] masks it with [0xffff], although its
    comment says "32 bit".  A writer count of 65536, inside the claimed
    range [0 .. 2^32 - 1], is encoded and decoded as 0. *)
Theorem C2_nwriters_above_16_bits_lost :
  decodeState (encodeState false 65536 0) = (false, 0, 0)
  /\ decodeState (encodeState true (2 ^ 32 - 1) (2 ^ 31 - 1))
     = (true, 65535, 2 ^ 31 - 1).
Proof. split; vm_compute; reflexivity. Qed.

(** ** Slices *)

Section Slices.

Context {A : Type}.
Implicit Types (a dst src : list A) (lo hi : Z).

Lemma len_nonneg a : 0 <= len a.
Proof. unfold len. lia. Qed.

Lemma subslice_in_bounds a lo hi :
  0 <= lo -> lo <= hi -> hi <= len a ->
  subslice a lo hi = Some (take (Z.to_nat (hi - lo)) (drop (Z.to_nat lo) a)).
Proof.
  intros H1 H2 H3. unfold subslice.
  destruct (Z.leb_spec 0 lo); [|lia].
  destruct (Z.leb_spec lo hi); [|lia].
  destruct (Z.leb_spec hi (len a)); [|lia]. reflexivity.
Qed.

Lemma subslice_out_of_bounds a lo hi :
  lo < 0 \/ hi < lo \/ len a < hi -> subslice a lo hi = None.
Proof.
  intros H. unfold subslice.
  destruct (Z.leb_spec 0 lo); [|reflexivity].
  destruct (Z.leb_spec lo hi); [|reflexivity].
  destruct (Z.leb_spec hi (len a)); [lia|reflexivity].
Qed.

Lemma subslice_Some_inv a lo hi x :
  subslice a lo hi = Some x ->
  (0 <= lo /\ lo <= hi /\ hi <= len a)
  /\ x = take (Z.to_nat (hi - lo)) (drop (Z.to_nat lo) a)
  /\ len x = hi - lo.
Proof.
  unfold subslice.
  destruct (Z.leb_spec 0 lo); [|discriminate].
  destruct (Z.leb_spec lo hi); [|discriminate].
  destruct (Z.leb_spec hi (len a)) as [Hle|]; [|discriminate].
  simpl. intros [= <-]. split; [lia|]. split; [reflexivity|].
  unfold len in *. rewrite length_take, length_drop. lia.
Qed.

(** Copying a source as long as the destination replaces it whole. *)
Lemma copy_same_length dst src :
  length src = length dst -> copy dst src = src.
Proof.
  intros H. unfold copy. rewrite H, Nat.min_id.
  rewrite <- H at 1. rewrite firstn_all.
  rewrite drop_ge by lia. apply app_nil_r.
Qed.

End Slices.

(** ** Alloc *)

Section AllocFacts.

Variable fb : flushBuffer.
Variables (size nw off : Z).

Lemma Alloc_full :
  decodeState (state fb) = (true, nw, off) ->
  FB.Alloc fb size = Ok (fb, (false, false, 0, None)).
Proof. intros H. unfold FB.Alloc. rewrite H. reflexivity. Qed.

Lemma Alloc_seal :
  decodeState (state fb) = (false, nw, off) ->
  len (b fb) < int64 (size + off) ->
  FB.Alloc fb size
  = Ok (set_state fb (encodeState true nw off), (false, true, 0, None)).
Proof.
  intros H Hgt. unfold FB.Alloc. rewrite H.
  destruct (Z.gtb_spec (int64 (size + off)) (len (b fb))); [reflexivity|lia].
Qed.

Lemma Alloc_fit :
  decodeState (state fb) = (false, nw, off) ->
  int64 (size + off) <= len (b fb) ->
  FB.Alloc fb size
  = match subslice (b fb) off (int64 (size + off)) with
    | None => Panic
    | Some _ =>
        Ok (set_state fb
              (encodeState false (int64 (nw + 1)) (int64 (size + off))),
            (true, false, int64 (baseOffset fb + int64 off),
             Some (View off (int64 (size + off)))))
    end.
Proof.
  intros H Hle. unfold FB.Alloc. rewrite H.
  destruct (Z.gtb_spec (int64 (size + off)) (len (b fb))); [lia|reflexivity].
Qed.

End AllocFacts.

(** C4, as stated, fails: a request of size -1 on a freshly reset buffer of
    64 bytes satisfies [off + size <= capacity], yet [Alloc] does not
    return a slice: the slice expression [b[0:-1]] panics. *)
Lemma C4_counterexample_negative_size :
  let fb := Examples.fresh64 in
  decodeState (state fb) = (false, 1, 0)
  /\ 0 + -1 <= len (b fb)
  /\ FB.Alloc fb (-1) = Panic
  /\ ~ (exists fb',
          FB.Alloc fb (-1)
          = Ok (fb', (true, false, baseOffset fb + 0, Some (View 0 (0 + -1))))).
Proof.
  cbv zeta. split; [vm_compute; reflexivity|].
  split; [vm_compute; discriminate|].
  assert (H : FB.Alloc Examples.fresh64 (-1) = Panic)
    by (vm_compute; reflexivity).
  split; [exact H|]. intros [fb' Hfb']. rewrite H in Hfb'. discriminate.
Qed.

(** C4 (amended): for a buffer whose state decodes to (full, nw, off):
    - if full, [Alloc] returns (false, false, 0, nil) and leaves the buffer
      unchanged;
    - if not full, [0 <= size], the sum does not overflow and
      [off + size > capacity], [Alloc] sets the full flag, leaves the
      writer count and the offset unchanged and returns
      (false, true, 0, nil);
    - if not full, [0 <= size], [off + size <= capacity], the capacity fits
      the 31-bit offset field, [nw + 1] fits the 16-bit writer field and
      [base_offset + off] is representable, [Alloc] returns
      (true, false, base_offset + off, bytes[off .. off+size]), a slice of
      [size] bytes, and the new state decodes to (false, nw+1, off+size). *)
Theorem C4_Alloc_cases (fb : flushBuffer) (size : Z) (isfull : bool)
    (nw off : Z) :
  is_uint64 (state fb) ->
  decodeState (state fb) = (isfull, nw, off) ->
  (isfull = true ->
     FB.Alloc fb size = Ok (fb, (false, false, 0, None)))
  /\ (isfull = false -> 0 <= size -> size + off <= max_int64 ->
      len (b fb) < off + size ->
      FB.Alloc fb size
      = Ok (set_state fb (encodeState true nw off), (false, true, 0, None))
      /\ decodeState (encodeState true nw off) = (true, nw, off))
  /\ (isfull = false -> 0 <= size -> off + size <= len (b fb) ->
      len (b fb) < 2 ^ 31 -> nw < 65535 ->
      is_int64 (baseOffset fb + off) ->
      FB.Alloc fb size
      = Ok (set_state fb (encodeState false (nw + 1) (off + size)),
            (true, false, baseOffset fb + off, Some (View off (off + size))))
      /\ decodeState (encodeState false (nw + 1) (off + size))
         = (false, nw + 1, off + size)
      /\ exists bytes, subslice (b fb) off (off + size) = Some bytes
                       /\ len bytes = size).
Proof.
  intros Hst Hdec.
  destruct (decodeState_range _ _ _ _ Hst Hdec) as [Hnw Hoff].
  split; [|split].
  - intros ->. now apply (Alloc_full fb size nw off).
  - intros -> Hsize Hmax Hgt.
    assert (Hsum : int64 (size + off) = size + off)
      by (apply int64_id; unfold is_int64, min_int64, max_int64 in *; lia).
    split.
    + apply Alloc_seal; [assumption|lia].
    + apply decode_encode; lia.
  - intros -> Hsize Hle Hcap Hnw' Hbase.
    assert (Hsum : int64 (size + off) = off + size).
    { rewrite int64_id; [lia|].
      unfold is_int64, min_int64, max_int64 in *; lia. }
    assert (Hnw1 : int64 (nw + 1) = nw + 1)
      by (apply int64_id; unfold is_int64, min_int64, max_int64; lia).
    assert (Hoff1 : int64 off = off)
      by (apply int64_id; unfold is_int64, min_int64, max_int64; lia).
    rewrite (Alloc_fit fb size nw off Hdec) by lia.
    rewrite Hsum, Hnw1, Hoff1, (int64_id _ Hbase).
    rewrite subslice_in_bounds by lia.
    split; [reflexivity|]. split; [apply decode_encode; lia|].
    eexists. split; [reflexivity|].
    unfold len in *. rewrite length_take, length_drop. lia.
Qed.

Lemma C4_Alloc_cases_witness :
  FB.Alloc Examples.fresh64 10
  = Ok (set_state Examples.fresh64 (encodeState false 2 10),
        (true, false, 0, Some (View 0 10)))
  /\ FB.Alloc Examples.fresh64 70
     = Ok (Examples.sealed64, (false, true, 0, None))
  /\ FB.Alloc Examples.sealed64 10
     = Ok (Examples.sealed64, (false, false, 0, None)).
Proof.
  assert (Hu : is_uint64 (state Examples.fresh64))
    by (vm_compute; split; [discriminate|reflexivity]).
  assert (Hs : is_uint64 (state Examples.sealed64))
    by (vm_compute; split; [discriminate|reflexivity]).
  destruct (C4_Alloc_cases Examples.fresh64 10 false 1 0 Hu eq_refl)
    as (_ & _ & Hfit).
  destruct (C4_Alloc_cases Examples.fresh64 70 false 1 0 Hu eq_refl)
    as (_ & Hseal & _).
  destruct (C4_Alloc_cases Examples.sealed64 10 true 1 0 Hs eq_refl)
    as (Hfull & _ & _).
  split; [|split].
  - apply Hfit; try reflexivity; vm_compute; try discriminate; try reflexivity.
    split; discriminate.
  - apply Hseal; try reflexivity; vm_compute; try discriminate; reflexivity.
  - apply Hfull. reflexivity.
Defined.

(** C10, as stated, fails: on a non-full buffer of 64 bytes holding one
    byte, a request of [2^63 - 1] bytes (larger than the capacity) does
    not mark the buffer full: [size + offset] wraps to a negative number,
    passes the capacity test, and the slice expression panics. *)
Lemma C10_counterexample_overflow :
  FB.Alloc Examples.fresh64 1
  = Ok (Examples.used64, (true, false, 0, Some (View 0 1)))
  /\ FB.IsFull Examples.used64 = false
  /\ len (b Examples.used64) < max_int64
  /\ FB.Alloc Examples.used64 max_int64 = Panic
  /\ FB.Alloc Examples.used64 max_int64
     <> Ok (set_state Examples.used64 (encodeState true 2 1),
            (false, true, 0, None)).
Proof.
  assert (H : FB.Alloc Examples.used64 max_int64 = Panic)
    by (vm_compute; reflexivity).
  split; [vm_compute; reflexivity|].
  split; [vm_compute; reflexivity|].
  split; [vm_compute; reflexivity|].
  split; [exact H|]. rewrite H. discriminate.
Qed.

(** C10 (amended): for every size larger than the capacity, [Alloc] never
    returns success; on a full buffer it returns (false, false, 0, nil);
    on a non-full buffer, provided [size + offset] does not overflow [int],
    it marks the buffer full and returns (false, true, 0, nil), however
    empty the buffer is. *)
Theorem C10_Alloc_oversized (fb : flushBuffer) (size : Z) (isfull : bool)
    (nw off : Z) :
  is_uint64 (state fb) ->
  is_int64 size ->
  decodeState (state fb) = (isfull, nw, off) ->
  len (b fb) < size ->
  (forall fb' m o v, FB.Alloc fb size <> Ok (fb', (true, m, o, v)))
  /\ (isfull = true ->
      FB.Alloc fb size = Ok (fb, (false, false, 0, None)))
  /\ (isfull = false -> size + off <= max_int64 ->
      FB.Alloc fb size
      = Ok (set_state fb (encodeState true nw off), (false, true, 0, None))
      /\ FB.IsFull (set_state fb (encodeState true nw off)) = true).
Proof.
  intros Hst Hsize Hdec Hbig.
  destruct (decodeState_range _ _ _ _ Hst Hdec) as [Hnw Hoff].
  pose proof (len_nonneg (b fb)) as Hlen.
  unfold is_int64, min_int64, max_int64 in *.
  assert (Hseal : size + off <= 2 ^ 63 - 1 -> isfull = false ->
            FB.Alloc fb size
            = Ok (set_state fb (encodeState true nw off),
                  (false, true, 0, None))).
  { intros Hmax ->. apply Alloc_seal; [assumption|].
    rewrite int64_id by (unfold is_int64, min_int64, max_int64; lia). lia. }
  split; [|split].
  - intros fb' m o v. destruct isfull.
    + rewrite (Alloc_full fb size nw off Hdec). discriminate.
    + destruct (Z.le_gt_cases (size + off) (2 ^ 63 - 1)) as [Hle|Hgt].
      * rewrite Hseal by auto. discriminate.
      * assert (Hwrap : int64 (size + off) = size + off - 2 ^ 64)
          by (apply int64_overflow; unfold max_int64; lia).
        rewrite (Alloc_fit fb size nw off Hdec) by lia.
        rewrite subslice_out_of_bounds by lia. discriminate.
  - intros ->. apply (Alloc_full fb size nw off Hdec).
  - intros -> Hmax. split; [now apply Hseal|].
    unfold FB.IsFull, set_state. cbn [state].
    rewrite decode_encode by lia. reflexivity.
Qed.

Lemma C10_Alloc_oversized_witness :
  (forall fb' m o v,
     FB.Alloc Examples.fresh64 65 <> Ok (fb', (true, m, o, v)))
  /\ FB.Alloc Examples.fresh64 65
     = Ok (Examples.sealed64, (false, true, 0, None))
  /\ FB.Alloc Examples.sealed64 65
     = Ok (Examples.sealed64, (false, false, 0, None)).
Proof.
  assert (Hu : is_uint64 (state Examples.fresh64))
    by (vm_compute; split; [discriminate|reflexivity]).
  assert (Hs : is_uint64 (state Examples.sealed64))
    by (vm_compute; split; [discriminate|reflexivity]).
  assert (H65 : is_int64 65) by (vm_compute; split; discriminate).
  assert (Hbig : len (replicate 64 x00) < 65) by (vm_compute; reflexivity).
  destruct (C10_Alloc_oversized Examples.fresh64 65 false 1 0 Hu H65 eq_refl
              Hbig) as (Hnever & _ & Hseal).
  destruct (C10_Alloc_oversized Examples.sealed64 65 true 1 0 Hs H65 eq_refl
              Hbig) as (_ & Hfull & _).
  split; [exact Hnever|]. split.
  - apply Hseal; [reflexivity|vm_compute; discriminate].
  - apply Hfull. reflexivity.
Defined.

(** ** Read of a flush buffer *)

Section ReadFacts.

Variable fb : flushBuffer.
Variables (off : Z) (buf : list byte).
Variables (isfull : bool) (nw fill : Z).

Hypothesis Hstate : is_uint64 (state fb).
Hypothesis Hdec : decodeState (state fb) = (isfull, nw, fill).
Hypothesis Hend : is_int64 (baseOffset fb + fill).

Lemma Read_outside_window :
  ~ (baseOffset fb <= off < baseOffset fb + fill) ->
  FB.Read fb off buf = Ok (buf, (0, Some errFBReadFailed)).
Proof.
  intros Hout. unfold FB.Read. rewrite Hdec, Z.eqb_refl.
  destruct (decodeState_range _ _ _ _ Hstate Hdec) as [_ Hfill].
  rewrite (int64_id fill) by (unfold is_int64, min_int64, max_int64; lia).
  rewrite (int64_id _ Hend). simpl negb at 1. cbn [orb].
  destruct (Z.leb_spec (baseOffset fb) off);
    destruct (Z.ltb_spec off (baseOffset fb + fill)); simpl;
    try reflexivity. lia.
Qed.

Lemma Read_inside_window :
  baseOffset fb <= off < baseOffset fb + fill ->
  len buf < 2 ^ 62 ->
  FB.Read fb off buf
  = if off - baseOffset fb + len buf >? len (b fb)
    then Ok (buf, (0, Some errFBReadFailed))
    else
      match subslice (b fb) (off - baseOffset fb)
              (off - baseOffset fb + len buf) with
      | None => Panic
      | Some src => Ok (copy buf src, (len buf, None))
      end.
Proof.
  intros Hin Hlen. unfold FB.Read. rewrite Hdec, Z.eqb_refl.
  destruct (decodeState_range _ _ _ _ Hstate Hdec) as [_ Hfill].
  pose proof (len_nonneg buf) as Hl.
  rewrite (int64_id fill) by (unfold is_int64, min_int64, max_int64; lia).
  rewrite (int64_id _ Hend). simpl negb at 1. cbn [orb].
  destruct (Z.leb_spec (baseOffset fb) off); [|lia].
  destruct (Z.ltb_spec off (baseOffset fb + fill)); [|lia].
  cbn [andb negb].
  rewrite (int64_id (off - baseOffset fb))
    by (unfold is_int64, min_int64, max_int64; lia).
  rewrite (int64_id (off - baseOffset fb + len buf))
    by (unfold is_int64, min_int64, max_int64; lia).
  reflexivity.
Qed.

End ReadFacts.

(** C7: with the base offset stable (the embedding is sequential), and the
    offsets involved representable ([int64] values, a slice shorter than
    [2^62]), [Read] fails with the read-failure error exactly when [off] is
    outside [base, base + fill) or [off - base + len buf] exceeds the
    capacity; otherwise it returns [len buf], no error, and [buf] holds the
    [len buf] bytes of the arena from index [off - base]. *)
Theorem C7_Read_fails_iff_out_of_range (fb : flushBuffer) (off : Z)
    (buf : list byte) (isfull : bool) (nw fill : Z) :
  is_uint64 (state fb) ->
  decodeState (state fb) = (isfull, nw, fill) ->
  is_int64 (baseOffset fb + fill) ->
  len buf < 2 ^ 62 ->
  let base := baseOffset fb in
  let out_of_range :=
    ~ (base <= off < base + fill) \/ len (b fb) < off - base + len buf in
  ((exists buf' n, FB.Read fb off buf = Ok (buf', (n, Some errFBReadFailed)))
   <-> out_of_range)
  /\ (out_of_range -> FB.Read fb off buf = Ok (buf, (0, Some errFBReadFailed)))
  /\ (~ out_of_range ->
      exists bytes,
        FB.Read fb off buf = Ok (bytes, (len buf, None))
        /\ bytes = take (length buf) (drop (Z.to_nat (off - base)) (b fb))
        /\ length bytes = length buf).
Proof.
  intros Hst Hdec Hend Hlen base out_of_range.
  pose proof (len_nonneg buf) as Hl.
  assert (Hfail : out_of_range ->
            FB.Read fb off buf = Ok (buf, (0, Some errFBReadFailed))).
  { intros [Hout | Hcap].
    - now apply (Read_outside_window fb off buf isfull nw fill).
    - destruct (Z.le_gt_cases base off) as [H1|H1];
        [destruct (Z.lt_ge_cases off (base + fill)) as [H2|H2]|].
      + rewrite (Read_inside_window fb off buf isfull nw fill)
          by (assumption || (subst base; lia)).
        fold base.
        destruct (Z.gtb_spec (off - base + len buf) (len (b fb)));
          [reflexivity|lia].
      + apply (Read_outside_window fb off buf isfull nw fill); try assumption.
        subst base; lia.
      + apply (Read_outside_window fb off buf isfull nw fill); try assumption.
        subst base; lia. }
  assert (Hok : ~ out_of_range ->
            exists bytes,
              FB.Read fb off buf = Ok (bytes, (len buf, None))
              /\ bytes = take (length buf)
                           (drop (Z.to_nat (off - base)) (b fb))
              /\ length bytes = length buf).
  { intros Hin.
    assert (Hwin : base <= off < base + fill)
      by (subst out_of_range; simpl in Hin; lia).
    assert (Hcap : off - base + len buf <= len (b fb))
      by (subst out_of_range; simpl in Hin; lia).
    rewrite (Read_inside_window fb off buf isfull nw fill)
      by (assumption || (subst base; lia)).
    fold base.
    destruct (Z.gtb_spec (off - base + len buf) (len (b fb))); [lia|].
    rewrite subslice_in_bounds by lia.
    replace (Z.to_nat (off - base + len buf - (off - base)))
      with (length buf) by (unfold len; lia).
    assert (Hsrc : length (take (length buf)
                             (drop (Z.to_nat (off - base)) (b fb)))
                   = length buf).
    { rewrite length_take, length_drop. unfold len in *. lia. }
    rewrite copy_same_length by exact Hsrc.
    eexists. split; [reflexivity|]. split; [reflexivity|exact Hsrc]. }
  split; [|split; assumption].
  split.
  - intros (buf' & n & Hread).
    destruct (Z.le_gt_cases base off) as [H1|H1];
      [destruct (Z.lt_ge_cases off (base + fill)) as [H2|H2]|];
      try (left; lia).
    destruct (Z.le_gt_cases (off - base + len buf) (len (b fb))) as [H3|H3];
      [|right; lia].
    destruct Hok as (bytes & Hb & _).
    { subst out_of_range. simpl. lia. }
    rewrite Hb in Hread. discriminate.
  - intros Hout. exists buf, 0. now apply Hfail.
Qed.

Lemma C7_Read_fails_iff_out_of_range_witness :
  FB.Read Examples.held64 110 [x00] = Ok ([x00], (0, Some errFBReadFailed))
  /\ exists bytes,
       FB.Read Examples.held64 103 (replicate 4 x00) = Ok (bytes, (4, None))
       /\ bytes = replicate 4 x01.
Proof.
  assert (Hu : is_uint64 (state Examples.held64))
    by (vm_compute; split; [discriminate|reflexivity]).
  assert (He : is_int64 (baseOffset Examples.held64 + 10))
    by (vm_compute; split; discriminate).
  split.
  - assert (Hl : len [x00] < 2 ^ 62) by (vm_compute; reflexivity).
    destruct (C7_Read_fails_iff_out_of_range Examples.held64 110 [x00]
                false 1 10 Hu eq_refl He Hl) as (_ & Hfail & _).
    apply Hfail. left. cbn [Examples.held64 baseOffset]. lia.
  - assert (Hl : len (replicate 4 x00) < 2 ^ 62) by (vm_compute; reflexivity).
    destruct (C7_Read_fails_iff_out_of_range Examples.held64 103
                (replicate 4 x00) false 1 10 Hu eq_refl He Hl)
      as (_ & _ & Hok).
    destruct Hok as (bytes & Hread & Hbytes & _).
    + cbn [Examples.held64 baseOffset b].
      change (len (replicate 4 x00)) with 4.
      change (len (_ ++ _)) with 64. lia.
    + exists bytes. split; [exact Hread|]. rewrite Hbytes. reflexivity.
Defined.

(** ** The file *)

Section FileFacts.

Implicit Types (f data : list byte) (pos : Z).

Lemma WriteAt_prefix_length f (n : nat) :
  length (take n (f ++ replicate (n - length f) x00)) = n.
Proof. rewrite length_take, length_app, length_replicate. lia. Qed.

(** The bytes written can be read back at the position given. *)
Lemma WriteAt_read_back f data pos :
  0 <= pos ->
  take (length data) (drop (Z.to_nat pos) (WriteAt f data pos)) = data.
Proof.
  intros Hpos. unfold WriteAt.
  destruct (Z.ltb_spec pos 0); [lia|].
  destruct data as [|x data]; [reflexivity|].
  set (pre := take (Z.to_nat pos)
                (f ++ replicate (Z.to_nat pos - length f) x00)).
  replace (Z.to_nat pos) with (length pre) at 1
    by apply WriteAt_prefix_length.
  rewrite drop_app_length. apply take_app_length.
Qed.

(** Bytes of the file before the position written are kept. *)
Lemma WriteAt_before f data pos (i : nat) :
  (i < length f)%nat -> Z.of_nat i < pos ->
  WriteAt f data pos !! i = f !! i.
Proof.
  intros Hi Hlt. unfold WriteAt.
  destruct (Z.ltb_spec pos 0); [reflexivity|].
  destruct data as [|x data]; [reflexivity|].
  rewrite lookup_app_l by (rewrite WriteAt_prefix_length; lia).
  rewrite lookup_take_lt by lia. now apply lookup_app_l.
Qed.

(** Bytes of the file after the range written are kept. *)
Lemma WriteAt_after f data pos (i : nat) :
  0 <= pos -> pos + len data <= Z.of_nat i ->
  WriteAt f data pos !! i = f !! i.
Proof.
  intros Hpos Hge. unfold WriteAt, len in *.
  destruct (Z.ltb_spec pos 0); [reflexivity|].
  destruct data as [|x data]; [reflexivity|].
  set (d := x :: data) in *.
  rewrite lookup_app_r by (rewrite WriteAt_prefix_length; lia).
  rewrite WriteAt_prefix_length.
  rewrite lookup_app_r by lia.
  rewrite lookup_drop. f_equal. lia.
Qed.

End FileFacts.

(** ** Buffers of a store *)

Section StoreFacts.

Implicit Types (s : lsStore) (p q : nat) (fb : flushBuffer).

Lemma get_fb_Some s p fb : flushBufs s !! p = Some fb -> get_fb s p = Ok fb.
Proof. unfold get_fb. now intros ->. Qed.

Lemma lookup_put_fb_same s p fb fb' :
  flushBufs s !! p = Some fb -> flushBufs (put_fb s p fb') !! p = Some fb'.
Proof.
  intros H. unfold put_fb. simpl.
  apply list_lookup_insert_eq. now apply lookup_lt_Some in H.
Qed.

Lemma lookup_put_fb_other s p q fb' :
  p <> q -> flushBufs (put_fb s p fb') !! q = flushBufs s !! q.
Proof. intros H. unfold put_fb. simpl. now apply list_lookup_insert_ne. Qed.

End StoreFacts.

(** ** The flush callback *)

Lemma Reset_state (fb : flushBuffer) :
  decodeState (state (FB.Reset fb)) = (false, 1, 0)
  /\ baseOffset (FB.Reset fb) = 0
  /\ child (FB.Reset fb) = None
  /\ b (FB.Reset fb) = b fb.
Proof. split; [vm_compute; reflexivity|]. repeat split. Qed.

Lemma Bytes_in_bounds (fb : flushBuffer) (isfull : bool) (nw off : Z) :
  decodeState (state fb) = (isfull, nw, off) ->
  0 <= off <= len (b fb) ->
  FB.Bytes fb = Some (take (Z.to_nat off) (b fb)).
Proof.
  intros Hdec Hoff. unfold FB.Bytes. rewrite Hdec.
  rewrite subslice_in_bounds by lia.
  now rewrite Z.sub_0_r.
Qed.

Lemma EndOffset_sum (fb : flushBuffer) (isfull : bool) (nw off : Z) :
  decodeState (state fb) = (isfull, nw, off) ->
  is_int64 (baseOffset fb + off) ->
  FB.EndOffset fb = baseOffset fb + off.
Proof.
  intros Hdec Hend. unfold FB.EndOffset. rewrite Hdec.
  assert (Hoff : int64 off = off).
  { unfold decodeState in Hdec. injection Hdec as _ _ <-.
    apply int64_id, int64_range. }
  rewrite Hoff. now apply int64_id.
Qed.

(** C6: on a flush-ready buffer [fb] (full, no writer left) whose fill
    offset lies within its arena, in a store with a positive [maxSize] and
    a non-negative, representable range of logical offsets, the flush
    callback writes exactly the first fill-offset bytes of the arena at
    position [start_offset mod maxSize] of the file (they can be read back
    there, and the bytes of the file before and after that range are
    kept), sets [head] to the child of [fb], stores
    [tailOffset = fb.EndOffset()], and resets [fb]: its state decodes to
    (false, 1, 0), its base offset is 0 and its child is nil.  The other
    buffers are left as they were. *)
Theorem C6_flush_writes_and_resets (s : lsStore) (p : nat)
    (fb : flushBuffer) (off : Z) :
  flushBufs s !! p = Some fb ->
  decodeState (state fb) = (true, 0, off) ->
  0 <= off <= len (b fb) ->
  0 < maxSize s ->
  0 <= baseOffset fb ->
  is_int64 (baseOffset fb + off) ->
  let fpos := baseOffset fb mod maxSize s in
  let bytes := take (Z.to_nat off) (b fb) in
  exists s' fb',
    LSS.flush p s = Ok s'
    /\ file s' = WriteAt (file s) bytes fpos
    /\ take (Z.to_nat off) (drop (Z.to_nat fpos) (file s')) = bytes
    /\ (forall i : nat, (i < length (file s))%nat -> Z.of_nat i < fpos ->
          file s' !! i = file s !! i)
    /\ (forall i : nat, fpos + off <= Z.of_nat i ->
          file s' !! i = file s !! i)
    /\ head s' = child fb
    /\ tailOffset s' = FB.EndOffset fb
    /\ FB.EndOffset fb = baseOffset fb + off
    /\ flushBufs s' !! p = Some fb'
    /\ decodeState (state fb') = (false, 1, 0)
    /\ baseOffset fb' = 0
    /\ child fb' = None
    /\ b fb' = b fb
    /\ (forall q : nat, q <> p -> flushBufs s' !! q = flushBufs s !! q).
Proof.
  intros Hp Hdec Hoff Hmax Hbase Hend fpos bytes.
  assert (Hfpos : 0 <= fpos) by (apply Z.mod_pos_bound; lia).
  assert (Hlen : length bytes = Z.to_nat off).
  { subst bytes. rewrite length_take. unfold len in Hoff. lia. }
  exists (put_fb
            (set_tailOffset
               (set_head (set_file s (WriteAt (file s) bytes fpos)) (child fb))
               (FB.EndOffset fb)) p (FB.Reset fb)), (FB.Reset fb).
  split.
  { unfold LSS.flush. rewrite (get_fb_Some _ _ _ Hp).
    cbn [mbind result_bind].
    destruct (Z.eqb_spec (maxSize s) 0); [lia|].
    rewrite (Bytes_in_bounds fb true 0 off Hdec Hoff).
    cbn [deref mbind result_bind].
    unfold FB.StartOffset. rewrite Z.rem_mod_nonneg by lia. reflexivity. }
  split; [reflexivity|].
  split.
  { change (file (put_fb _ _ _)) with (WriteAt (file s) bytes fpos).
    rewrite <- Hlen at 1. now apply WriteAt_read_back. }
  split.
  { intros i Hi Hlt.
    change (file (put_fb _ _ _)) with (WriteAt (file s) bytes fpos).
    now apply WriteAt_before. }
  split.
  { intros i Hge.
    change (file (put_fb _ _ _)) with (WriteAt (file s) bytes fpos).
    apply WriteAt_after; [assumption|].
    unfold len. rewrite Hlen. lia. }
  split; [reflexivity|]. split; [reflexivity|].
  split; [now apply (EndOffset_sum fb true 0 off)|].
  split.
  { unfold put_fb. cbn [flushBufs set_flushBufs].
    apply list_lookup_insert_eq. now apply lookup_lt_Some in Hp. }
  split; [apply Reset_state|]. split; [reflexivity|]. split; [reflexivity|].
  split; [reflexivity|].
  intros q Hq. unfold put_fb. cbn [flushBufs set_flushBufs].
  apply list_lookup_insert_ne. congruence.
Qed.

Lemma C6_flush_writes_and_resets_witness :
  exists s' fb',
    LSS.flush 0 Examples.readyStore = Ok s'
    /\ take 10 (drop 76 (file s')) = replicate 10 x01
    /\ head s' = Some 1%nat
    /\ tailOffset s' = 1110
    /\ flushBufs s' !! 0%nat = Some fb'
    /\ decodeState (state fb') = (false, 1, 0)
    /\ baseOffset fb' = 0
    /\ child fb' = None.
Proof.
  assert (Hoff : 0 <= 10 <= len (b Examples.ready64))
    by (vm_compute; split; discriminate).
  assert (Hmax : 0 < maxSize Examples.readyStore) by reflexivity.
  assert (Hbase : 0 <= baseOffset Examples.ready64)
    by (vm_compute; discriminate).
  assert (Hend : is_int64 (baseOffset Examples.ready64 + 10))
    by (vm_compute; split; discriminate).
  destruct (C6_flush_writes_and_resets Examples.readyStore 0
              Examples.ready64 10 eq_refl eq_refl Hoff Hmax Hbase Hend)
    as (s' & fb' & Hflush & _ & Hback & _ & _ & Hhead & Htail & Hsum & Hfb'
        & Hst & Hb0 & Hch & _).
  exists s', fb'. split; [exact Hflush|].
  split; [exact Hback|]. split; [exact Hhead|].
  split; [rewrite Htail, Hsum; reflexivity|].
  split; [exact Hfb'|]. split; [exact Hst|]. split; [exact Hb0|exact Hch].
Defined.

(** ** Done *)

Section DoneFacts.

Variable callb : nat -> lsStore -> result lsStore.

Lemma Done_unfold (fuel : nat) (p : nat) (s : lsStore) (fb : flushBuffer)
    (isfull : bool) (nw off : Z) :
  flushBufs s !! p = Some fb ->
  decodeState (state fb) = (isfull, nw, off) ->
  Done callb (S fuel) p s
  = after_decrement callb fuel p ((nw =? 1) && isfull)
      (put_fb s p (set_state fb (encodeState isfull (int64 (nw - 1)) off))).
Proof.
  intros Hp Hdec. cbn [Done]. rewrite (get_fb_Some _ _ _ Hp).
  cbn [mbind result_bind]. rewrite Hdec. reflexivity.
Qed.

End DoneFacts.

(** A [Done] that finds a writer count [nw] of at least 1 stores
    [nw - 1], leaving the full flag and the offset as they were.  Whatever
    the callback is, it is invoked exactly when [nw = 1] and the buffer is
    full, and the cascade then follows the child pointer as the callback
    left it; in every other case the callback is not invoked and [Done] is
    called on the child of the buffer, if it has one. *)
Theorem X20_Done_releases_one_reference
    (callb : nat -> lsStore -> result lsStore) (fuel : nat) (s : lsStore)
    (p : nat) (fb : flushBuffer) (isfull : bool) (nw off : Z) :
  flushBufs s !! p = Some fb ->
  is_uint64 (state fb) ->
  decodeState (state fb) = (isfull, nw, off) ->
  1 <= nw ->
  let fb1 := set_state fb (encodeState isfull (nw - 1) off) in
  let s1 := put_fb s p fb1 in
  decodeState (state fb1) = (isfull, nw - 1, off)
  /\ flushBufs s1 !! p = Some fb1
  /\ (nw = 1 /\ isfull = true ->
      Done callb (S fuel) p s
      = (s2 ← callb p s1;
         fb2 ← get_fb s2 p;
         match child fb2 with
         | Some c => Done callb fuel c s2
         | None => Ok s2
         end))
  /\ (~ (nw = 1 /\ isfull = true) ->
      Done callb (S fuel) p s
      = match child fb with
        | Some c => Done callb fuel c s1
        | None => Ok s1
        end).
Proof.
  intros Hp Hst Hdec Hnw fb1 s1.
  destruct (decodeState_range _ _ _ _ Hst Hdec) as [Hnw' Hoff].
  assert (Hfb1 : flushBufs s1 !! p = Some fb1)
    by (subst s1; eapply lookup_put_fb_same; eassumption).
  assert (Hunf := Done_unfold callb fuel p s fb isfull nw off Hp Hdec).
  rewrite (int64_id (nw - 1)) in Hunf
    by (unfold is_int64, min_int64, max_int64; lia).
  fold fb1 s1 in Hunf.
  split; [apply decode_encode; lia|]. split; [exact Hfb1|]. split.
  - intros [-> ->]. rewrite Hunf. reflexivity.
  - intros Hno. rewrite Hunf. unfold after_decrement.
    assert (Hfire : (nw =? 1) && isfull = false).
    { destruct (Z.eqb_spec nw 1), isfull; try reflexivity.
      exfalso. apply Hno. now split. }
    rewrite Hfire. cbn [mbind result_bind].
    rewrite (get_fb_Some _ _ _ Hfb1). reflexivity.
Qed.

Lemma X20_Done_releases_one_reference_witness :
  let s1 := put_fb Examples.lastWriterStore 0
              (set_state Examples.lastWriter64 (encodeState true 0 10)) in
  Store.Done 2 0 Examples.lastWriterStore = LSS.flush 0 s1
  /\ Exec.decoded 0 (Ok s1) = Ok (true, 0, 10)
  /\ Exec.decoded 1 (Store.Done 2 0 Examples.lastWriterStore)
     = Ok (false, 2, 0).
Proof.
  assert (Hu : is_uint64 (state Examples.lastWriter64))
    by (vm_compute; split; [discriminate|reflexivity]).
  assert (H1 : 1 <= 1) by lia.
  destruct (X20_Done_releases_one_reference LSS.flush 1
              Examples.lastWriterStore 0 Examples.lastWriter64 true 1 10
              eq_refl Hu eq_refl H1)
    as (Hdec & _ & Hfire & _).
  cbv zeta. split; [|split].
  - unfold Store.Done. rewrite Hfire by (split; reflexivity).
    vm_compute. reflexivity.
  - vm_compute. reflexivity.
  - unfold Store.Done. rewrite Hfire by (split; reflexivity).
    vm_compute. reflexivity.
Defined.

(** C5 (the code departs from the claim): [Done] has no guard against a
    writer count of 0, and the store calls it on such a buffer.  Three
    writers reserve 20 bytes each in buffer 0 of a store of three 64-byte
    buffers; a request of 10 bytes seals buffer 0 and initializes buffer 1
    with the two references of [Init], of which the [parent.Done()] of
    [Init] releases one at once (buffer 0 is not flush-ready, so its child
    pointer is followed).  Each [FinalizeWrite] of a writer of buffer 0
    follows the child pointer again: the first one takes the count of
    buffer 1 to 0, and the second one calls [Done] on buffer 1 at count 0.
    That [Done] does not decrement by one: it encodes [-1] over all the
    bits above bit 0, so the count reads 65535 and the fill offset, 0
    before the call, reads [2^31 - 1]. *)
Theorem C5_cascade_calls_Done_on_count_zero :
  let s0 := LSS.newLSStore [] 1024 64 3 in
  let buffer (n p : nat) :=
    Exec.buffer_after 4 (take n Examples.threeWriters) p s0 in
  (s ← s0; Exec.returned 4 Examples.threeWriters s)
  = Ok [Some (0, Some (View 0 20), 0%nat);
        Some (20, Some (View 20 40), 0%nat);
        Some (40, Some (View 40 60), 0%nat);
        Some (0, None, 0%nat); None; None; None]
  /\ buffer 3%nat 0%nat = Ok (false, 4, 60, None, 0)
  /\ buffer 3%nat 1%nat = Ok (false, 1, 0, None, 0)
  /\ buffer 4%nat 0%nat = Ok (true, 3, 60, Some 1%nat, 0)
  /\ buffer 4%nat 1%nat = Ok (false, 1, 0, None, 60)
  /\ buffer 5%nat 0%nat = Ok (true, 2, 60, Some 1%nat, 0)
  /\ buffer 5%nat 1%nat = Ok (false, 0, 0, None, 60)
  /\ buffer 6%nat 0%nat = Ok (true, 1, 60, Some 1%nat, 0)
  /\ buffer 6%nat 1%nat = Ok (false, 65535, 2147483647, None, 60)
  /\ buffer 7%nat 0%nat = Ok (false, 1, 0, None, 0)
  /\ buffer 7%nat 1%nat = Ok (false, 65535, 2147483647, None, 60)
  /\ Exec.decoded 1
       (s ← s0; s5 ← Exec.run 4 (take 5 Examples.threeWriters) s;
        Store.Done 1 1 s5)
     = Ok (false, 65535, 2147483647).
Proof.
  cbv zeta.
  repeat match goal with |- _ /\ _ => split end; vm_compute; reflexivity.
Qed.

(** ** The fill offset stays within the arena *)

Section Capacity.

Import Exec.

Lemma flush_in_bounds (s : lsStore) (p : nat) (fb : flushBuffer)
    (isfull : bool) (nw off : Z) :
  flushBufs s !! p = Some fb ->
  decodeState (state fb) = (isfull, nw, off) ->
  0 <= off <= len (b fb) ->
  maxSize s <> 0 ->
  exists s',
    LSS.flush p s = Ok s'
    /\ flushBufs s' = <[p := FB.Reset fb]> (flushBufs s)
    /\ maxSize s' = maxSize s.
Proof.
  intros Hp Hdec Hoff Hmax. unfold LSS.flush.
  rewrite (get_fb_Some _ _ _ Hp). cbn [mbind result_bind].
  destruct (Z.eqb_spec (maxSize s) 0); [contradiction|].
  rewrite (Bytes_in_bounds fb isfull nw off Hdec Hoff).
  cbn [deref mbind result_bind]. eexists. split; [reflexivity|].
  split; reflexivity.
Qed.

Lemma fill_of_decoded (fb : flushBuffer) (isfull : bool) (nw off : Z) :
  decodeState (state fb) = (isfull, nw, off) ->
  fill_of fb = off /\ nwriters_of fb = nw.
Proof. unfold fill_of, nwriters_of. now intros ->. Qed.

Lemma fill_of_encode (fb : flushBuffer) (f : bool) (nw off : Z) :
  0 <= nw < 2 ^ 32 -> 0 <= off ->
  is_uint64 (state (set_state fb (encodeState f nw off)))
  /\ 0 <= fill_of (set_state fb (encodeState f nw off)) <= off.
Proof.
  intros Hnw Hoff. split; [apply encodeState_range|].
  unfold fill_of, set_state. cbn [state].
  rewrite decode_encode_mod by assumption. cbn [snd].
  pose proof (Z.mod_pos_bound off (2 ^ 31) ltac:(lia)).
  pose proof (Z.mod_le off (2 ^ 31) Hoff ltac:(lia)). lia.
Qed.

Variables (arena : list byte) (m : Z) (p : nat).

Lemma within_capacity_put (s : lsStore) (fb : flushBuffer) :
  (p < length (flushBufs s))%nat ->
  maxSize s = m ->
  is_uint64 (state fb) -> baseOffset fb = 0 -> child fb = None ->
  b fb = arena -> 0 <= fill_of fb <= len arena ->
  within_capacity arena m p (put_fb s p fb).
Proof.
  intros Hp Hm H1 H2 H3 H4 H5. split; [exact Hm|]. exists fb.
  split; [|auto]. unfold put_fb. cbn [flushBufs set_flushBufs].
  now apply list_lookup_insert_eq.
Qed.

Lemma Alloc_within_capacity (fuel : nat) (size : Z) (s s1 : lsStore) :
  within_capacity arena m p s ->
  apply_op fuel p (OpAlloc size) s = Ok s1 ->
  within_capacity arena m p s1.
Proof.
  intros [Hm (fb & Hp & Hst & Hbase & Hch & Hb & Hfill)] Hop.
  assert (Hlt : (p < length (flushBufs s))%nat)
    by now apply lookup_lt_Some in Hp.
  cbn [apply_op] in Hop. rewrite (get_fb_Some _ _ _ Hp) in Hop.
  cbn [mbind result_bind] in Hop.
  destruct (decodeState (state fb)) as [[isfull nw] off] eqn:Hdec.
  destruct (decodeState_range _ _ _ _ Hst Hdec) as [Hnw Hoff].
  destruct (fill_of_decoded fb isfull nw off Hdec) as [Hf _].
  rewrite Hf in Hfill.
  destruct isfull.
  - rewrite (Alloc_full fb size nw off Hdec) in Hop.
    injection Hop as <-. apply within_capacity_put; auto. now rewrite Hf.
  - destruct (Z.le_gt_cases (int64 (size + off)) (len (b fb))) as [Hle|Hgt].
    + rewrite (Alloc_fit fb size nw off Hdec Hle) in Hop.
      destruct (subslice (b fb) off (int64 (size + off))) as [x|] eqn:Hsub;
        [|discriminate].
      injection Hop as <-. cbn [fst].
      apply subslice_Some_inv in Hsub as [(H0 & H1 & H2) _].
      rewrite (int64_id (nw + 1))
        by (unfold is_int64, min_int64, max_int64; lia).
      destruct (fill_of_encode fb false (nw + 1) (int64 (size + off)))
        as [Hu Hfl]; [lia|lia|].
      apply within_capacity_put; auto. rewrite <- Hb. lia.
    + rewrite (Alloc_seal fb size nw off Hdec Hgt) in Hop.
      injection Hop as <-. cbn [fst].
      destruct (fill_of_encode fb true nw off) as [Hu Hfl]; [lia|lia|].
      apply within_capacity_put; auto. lia.
Qed.

Lemma Done_within_capacity (fuel : nat) (s : lsStore) :
  within_capacity arena m p s ->
  balanced s p OpDone ->
  (forall s1, apply_op fuel p OpDone s = Ok s1 ->
     within_capacity arena m p s1)
  /\ (fuel <> 0%nat -> m <> 0 -> exists s1, apply_op fuel p OpDone s = Ok s1).
Proof.
  intros [Hm (fb & Hp & Hst & Hbase & Hch & Hb & Hfill)] Hbal.
  assert (Hlt : (p < length (flushBufs s))%nat)
    by now apply lookup_lt_Some in Hp.
  destruct (decodeState (state fb)) as [[isfull nw] off] eqn:Hdec.
  destruct (decodeState_range _ _ _ _ Hst Hdec) as [Hnw Hoff].
  destruct (fill_of_decoded fb isfull nw off Hdec) as [Hf Hn].
  specialize (Hbal fb Hp). rewrite Hn in Hbal. rewrite Hf in Hfill.
  destruct fuel as [|fuel]; [split; [discriminate|congruence]|].
  cbn [apply_op]. unfold Store.Done.
  rewrite (Done_unfold LSS.flush fuel p s fb isfull nw off Hp Hdec).
  rewrite (int64_id (nw - 1)) by (unfold is_int64, min_int64, max_int64; lia).
  set (fb1 := set_state fb (encodeState isfull (nw - 1) off)).
  set (s1 := put_fb s p fb1).
  assert (Hfb1 : flushBufs s1 !! p = Some fb1)
    by (eapply lookup_put_fb_same; eassumption).
  assert (Hdec1 : decodeState (state fb1) = (isfull, nw - 1, off))
    by (apply decode_encode; lia).
  destruct (fill_of_decoded fb1 isfull (nw - 1) off Hdec1) as [Hf1 _].
  assert (Hin1 : within_capacity arena m p s1).
  { apply within_capacity_put; auto.
    - apply encodeState_range.
    - rewrite Hf1. exact Hfill. }
  unfold after_decrement.
  destruct ((nw =? 1) && isfull).
  - assert (Hm1 : maxSize s1 = m) by exact Hm.
    split.
    + intros s2.
      destruct (Z.eq_dec m 0) as [->|Hm0].
      { unfold LSS.flush. rewrite (get_fb_Some _ _ _ Hfb1).
        cbn [mbind result_bind]. rewrite Hm1. discriminate. }
      destruct (flush_in_bounds s1 p fb1 isfull (nw - 1) off Hfb1 Hdec1)
        as (s' & Hfl & Hbufs & Hmax);
        [change (b fb1) with (b fb); rewrite Hb; lia|congruence|].
      rewrite Hfl. cbn [mbind result_bind].
      assert (Hreset : flushBufs s' !! p = Some (FB.Reset fb1)).
      { rewrite Hbufs. apply list_lookup_insert_eq.
        unfold s1, put_fb. cbn [flushBufs set_flushBufs].
        now rewrite length_insert. }
      rewrite (get_fb_Some _ _ _ Hreset). cbn [mbind result_bind FB.Reset child].
      intros [= <-]. split; [congruence|]. exists (FB.Reset fb1).
      split; [exact Hreset|]. split; [apply encodeState_range|].
      split; [reflexivity|]. split; [reflexivity|]. split; [exact Hb|].
      unfold fill_of. cbn [FB.Reset state].
      rewrite decode_encode by lia. cbn [snd].
      pose proof (len_nonneg arena). lia.
    + intros _ Hm0.
      destruct (flush_in_bounds s1 p fb1 isfull (nw - 1) off Hfb1 Hdec1)
        as (s' & Hfl & Hbufs & Hmax);
        [change (b fb1) with (b fb); rewrite Hb; lia|congruence|].
      rewrite Hfl. cbn [mbind result_bind].
      assert (Hreset : flushBufs s' !! p = Some (FB.Reset fb1)).
      { rewrite Hbufs. apply list_lookup_insert_eq.
        unfold s1, put_fb. cbn [flushBufs set_flushBufs].
        now rewrite length_insert. }
      rewrite (get_fb_Some _ _ _ Hreset). cbn [mbind result_bind FB.Reset child].
      eexists. reflexivity.
  - cbn [mbind result_bind]. rewrite (get_fb_Some _ _ _ Hfb1).
    cbn [mbind result_bind]. change (child fb1) with (child fb).
    rewrite Hch. split; [|intros; eexists; reflexivity].
    intros s2 [= <-]. exact Hin1.
Qed.

End Capacity.

Section CapacityRuns.

Import Exec.

Variables (arena : list byte) (m : Z) (p : nat) (fuel : nat).

Lemma apply_op_within_capacity (o : fbop) (s s1 : lsStore) :
  within_capacity arena m p s ->
  balanced s p o ->
  apply_op fuel p o s = Ok s1 ->
  within_capacity arena m p s1.
Proof.
  intros Hin Hbal Hop. destruct o as [size| |].
  - eapply Alloc_within_capacity; eassumption.
  - destruct (Done_within_capacity arena m p fuel s Hin Hbal) as [H _].
    now apply H.
  - destruct Hin as [Hm (fb & Hp & Hst & Hbase & Hch & Hb & Hfill)].
    cbn [apply_op] in Hop. rewrite (get_fb_Some _ _ _ Hp) in Hop.
    cbn [mbind result_bind] in Hop. injection Hop as <-.
    apply within_capacity_put; auto.
    + now apply lookup_lt_Some in Hp.
    + apply encodeState_range.
    + unfold fill_of. cbn [FB.Reset state].
      rewrite decode_encode by lia. cbn [snd].
      pose proof (len_nonneg arena). lia.
Qed.

Lemma apply_op_progress (o : fbop) (s : lsStore) :
  within_capacity arena m p s ->
  balanced s p o ->
  fuel <> 0%nat -> m <> 0 ->
  exists s1, apply_op fuel p o s = Ok s1.
Proof.
  intros Hin Hbal Hfuel Hm. destruct o as [size| |].
  - destruct Hin as [_ (fb & Hp & Hst & Hbase & Hch & Hb & Hfill)].
    destruct Hbal as [Hsize Hmax]. specialize (Hmax fb Hp).
    cbn [apply_op]. rewrite (get_fb_Some _ _ _ Hp). cbn [mbind result_bind].
    destruct (decodeState (state fb)) as [[isfull nw] off] eqn:Hdec.
    destruct (decodeState_range _ _ _ _ Hst Hdec) as [Hnw Hoff].
    destruct (fill_of_decoded fb isfull nw off Hdec) as [Hf _].
    rewrite Hf in Hfill, Hmax.
    assert (Hsum : int64 (size + off) = size + off)
      by (apply int64_id; unfold is_int64, min_int64, max_int64 in *; lia).
    destruct isfull.
    + rewrite (Alloc_full fb size nw off Hdec). eexists. reflexivity.
    + destruct (Z.le_gt_cases (int64 (size + off)) (len (b fb))) as [Hle|Hgt].
      * rewrite (Alloc_fit fb size nw off Hdec Hle).
        rewrite subslice_in_bounds by lia. eexists. reflexivity.
      * rewrite (Alloc_seal fb size nw off Hdec Hgt). eexists. reflexivity.
  - destruct (Done_within_capacity arena m p fuel s Hin Hbal) as [_ H].
    now apply H.
  - destruct Hin as [_ (fb & Hp & _)].
    cbn [apply_op]. rewrite (get_fb_Some _ _ _ Hp). eexists. reflexivity.
Qed.

Lemma balanced_run_within_capacity (os : list fbop) (s s' : lsStore) :
  within_capacity arena m p s ->
  balanced_run fuel p s os s' ->
  within_capacity arena m p s'.
Proof.
  intros Hin Hrun. induction Hrun as [s | s s1 s2 o os Hbal Hop Hrun IH].
  - exact Hin.
  - apply IH. eapply apply_op_within_capacity; eassumption.
Qed.

End CapacityRuns.

(** As long as every [Done] finds a reference to release, the fill offset
    stays within the arena: for a buffer in the [Reset] state, after any
    run of [Alloc], [Done] and [Reset] on it in which every [Alloc] has a
    non-negative size whose end does not overflow [int] and every [Done]
    finds a writer count of at least 1, the fill offset in the state word
    is within the arena; hence [EndOffset() - StartOffset() <= capacity]
    and [Bytes()] is the in-bounds prefix of that length.  Such a run never
    gets stuck: the next balanced operation returns (given a store with a
    non-zero [maxSize], for the flush a last [Done] triggers). *)
Theorem X21_balanced_runs_stay_within_capacity (fuel : nat) (p : nat)
    (s s' : lsStore) (fb : flushBuffer) (os : list Exec.fbop) :
  flushBufs s !! p = Some fb ->
  FB.Reset fb = fb ->
  Exec.balanced_run fuel p s os s' ->
  exists fb',
    flushBufs s' !! p = Some fb'
    /\ b fb' = b fb
    /\ 0 <= Exec.fill_of fb' <= len (b fb')
    /\ FB.EndOffset fb' - FB.StartOffset fb' <= len (b fb')
    /\ FB.Bytes fb' = Some (take (Z.to_nat (Exec.fill_of fb')) (b fb'))
    /\ (fuel <> 0%nat -> maxSize s <> 0 ->
        forall o, Exec.balanced s' p o ->
                  exists s'', Exec.apply_op fuel p o s' = Ok s'').
Proof.
  intros Hp Hreset Hrun.
  assert (Hin : Exec.within_capacity (b fb) (maxSize s) p s).
  { assert (Hs : state fb = encodeState false 1 0)
      by (rewrite <- Hreset; reflexivity).
    assert (Hbase0 : baseOffset fb = 0) by (rewrite <- Hreset; reflexivity).
    assert (Hch0 : child fb = None) by (rewrite <- Hreset; reflexivity).
    split; [reflexivity|]. exists fb. split; [exact Hp|].
    split; [rewrite Hs; apply encodeState_range|].
    split; [exact Hbase0|]. split; [exact Hch0|]. split; [reflexivity|].
    unfold Exec.fill_of. rewrite Hs.
    rewrite decode_encode by lia. cbn [snd].
    pose proof (len_nonneg (b fb)). lia. }
  pose proof (balanced_run_within_capacity _ _ _ _ _ _ _ Hin Hrun) as Hin'.
  destruct Hin' as [Hm (fb' & Hp' & Hst & Hbase & Hch & Hb & Hfill)].
  exists fb'. split; [exact Hp'|]. split; [exact Hb|].
  destruct (decodeState (state fb')) as [[isfull nw] off] eqn:Hdec.
  destruct (decodeState_range _ _ _ _ Hst Hdec) as [Hnw Hoff].
  destruct (fill_of_decoded fb' isfull nw off Hdec) as [Hf _].
  rewrite Hb. split; [exact Hfill|]. rewrite Hf in *. split.
  - rewrite (EndOffset_sum fb' isfull nw off Hdec)
      by (rewrite Hbase; unfold is_int64, min_int64, max_int64; lia).
    unfold FB.StartOffset. lia.
  - split.
    + rewrite <- Hb. apply (Bytes_in_bounds fb' isfull nw off Hdec).
      rewrite Hb. exact Hfill.
    + intros Hfuel Hmax o Hbal.
      apply (apply_op_progress (b fb) (maxSize s) p fuel o s'); auto.
      split; [exact Hm|]. exists fb'. rewrite Hf. auto 10.
Qed.

Lemma X21_balanced_runs_stay_within_capacity_witness :
  exists s' fb',
    Exec.balanced_run 1 0 Examples.freshStore
      [Exec.OpAlloc 10; Exec.OpAlloc 60; Exec.OpDone; Exec.OpDone] s'
    /\ flushBufs s' !! 0%nat = Some fb'
    /\ 0 <= Exec.fill_of fb' <= len (b fb')
    /\ FB.Bytes fb' = Some (take (Z.to_nat (Exec.fill_of fb')) (b fb')).
Proof.
  assert (Hrun : exists s',
            Exec.balanced_run 1 0 Examples.freshStore
              [Exec.OpAlloc 10; Exec.OpAlloc 60; Exec.OpDone; Exec.OpDone] s').
  { eexists.
    eapply Exec.balanced_cons.
    { split; [lia|]. intros fb [= <-]. vm_compute. discriminate. }
    { vm_compute. reflexivity. }
    eapply Exec.balanced_cons.
    { split; [lia|]. intros fb [= <-]. vm_compute. discriminate. }
    { vm_compute. reflexivity. }
    eapply Exec.balanced_cons.
    { intros fb [= <-]. vm_compute. discriminate. }
    { vm_compute. reflexivity. }
    eapply Exec.balanced_cons.
    { intros fb [= <-]. vm_compute. discriminate. }
    { vm_compute. reflexivity. }
    apply Exec.balanced_nil. }
  destruct Hrun as [s' Hrun].
  destruct (X21_balanced_runs_stay_within_capacity 1 0 Examples.freshStore s'
              Examples.fresh64 _ eq_refl eq_refl Hrun)
    as (fb' & Hp & _ & Hfill & _ & Hbytes & _).
  exists s', fb'. split; [exact Hrun|]. split; [exact Hp|].
  split; [exact Hfill|exact Hbytes].
Defined.

(** C9 (the code departs from the claim): the store itself drives the fill
    offset of a buffer above its capacity.  Two writers reserve 30 bytes
    each in buffer 0 of a store of three 64-byte buffers; a request of 10
    bytes seals buffer 0 and initializes buffer 1 at base 60; both writers
    finalize (the first [FinalizeWrite] follows the child pointer of
    buffer 0 and leaves buffer 1 with a writer count of 0; the second
    flushes buffer 0); a writer reserves 10 bytes in buffer 1 and
    finalizes; a request of 60 bytes seals buffer 1, whose count is 0, and
    the [parent.Done()] of the [Init] of buffer 2 encodes a count of [-1]
    over the offset bits.  Every reservation that returned a slice was
    finalized once.  Buffer 1, an arena of 64 bytes, is left with a fill
    offset of [2^31 - 1]: [EndOffset() - StartOffset()] is [2^31 - 1] and
    the slice expression of [Bytes()] is out of bounds.  The outcome is the
    same when the handles returned with a nil slice are finalized too, and
    two [Done] in a row on a buffer in the [Reset] state have the same
    effect. *)
Theorem C9_store_drives_fill_beyond_capacity :
  let s0 := LSS.newLSStore [] 1024 64 3 in
  let buffer (n p : nat) :=
    Exec.buffer_after 4 (take n Examples.twoWriters) p s0 in
  let left (cs : list Exec.call) :=
    s ← s0; s' ← Exec.run 4 cs s; fb ← get_fb s' 1;
    Ok (Exec.fill_of fb, len (b fb), FB.EndOffset fb - FB.StartOffset fb,
        FB.Bytes fb) in
  (s ← s0; Exec.returned 4 Examples.twoWriters s)
  = Ok [Some (0, Some (View 0 30), 0%nat);
        Some (30, Some (View 30 60), 0%nat);
        Some (0, None, 0%nat); None; None;
        Some (60, Some (View 0 10), 1%nat); None;
        Some (0, None, 1%nat)]
  /\ buffer 0%nat 1%nat = Ok (false, 1, 0, None, 0)
  /\ buffer 3%nat 0%nat = Ok (true, 2, 60, Some 1%nat, 0)
  /\ buffer 3%nat 1%nat = Ok (false, 1, 0, None, 60)
  /\ buffer 4%nat 0%nat = Ok (true, 1, 60, Some 1%nat, 0)
  /\ buffer 4%nat 1%nat = Ok (false, 0, 0, None, 60)
  /\ buffer 5%nat 0%nat = Ok (false, 1, 0, None, 0)
  /\ buffer 5%nat 1%nat = Ok (false, 0, 0, None, 60)
  /\ buffer 6%nat 1%nat = Ok (false, 1, 10, None, 60)
  /\ buffer 7%nat 1%nat = Ok (false, 0, 10, None, 60)
  /\ buffer 8%nat 1%nat = Ok (true, 65535, 2147483647, Some 2%nat, 60)
  /\ left Examples.twoWriters = Ok (2147483647, 64, 2147483647, None)
  /\ left Examples.twoWriters_all = Ok (2147483647, 64, 2147483647, None)
  /\ (s ← s0; s' ← Exec.apply_ops 1 0 [Exec.OpDone; Exec.OpDone] s;
      fb ← get_fb s' 0; Ok (Exec.fill_of fb, len (b fb), FB.Bytes fb))
     = Ok (2147483647, 64, None).
Proof.
  cbv zeta.
  repeat match goal with |- _ /\ _ => split end; vm_compute; reflexivity.
Qed.

(** ** Reservations *)

(** C1 (the code departs from the claim): when [Alloc] reports
    [markedFull], [ReserveSpace] initializes the successor and advances the
    cursor but then falls through to its [return] instead of retrying: the
    caller gets offset 0 and a nil slice.  With [bufSize = 64] and two
    buffers, reserving 10 then 60 bytes returns (0, 10 bytes of buffer 0)
    and then (0, nil, buffer 0), whatever the fuel above 2. *)
Theorem C1_ReserveSpace_returns_nil_after_sealing (k : nat) :
  (s ← LSS.newLSStore [] 1024 64 2;
   r ← Exec.reserveAll (S (S (S k))) [10; 60] s;
   Ok (r.1))
  = Ok [(0, Some (View 0 10), 0%nat); (0, None, 0%nat)].
Proof. vm_compute. reflexivity. Qed.

(** ** Reads of the store *)

Section StoreRead.

Variables (lssOf : Z) (buf : list byte) (s : lsStore).
Variables (e start : nat) (last first : flushBuffer).

Hypothesis Htail : (int64 lssOf >=? tailOffset s) = true.
Hypothesis Hring : (len (flushBufs s) =? 0) = false.
Hypothesis Hcur :
  index_fb s (Z.rem (currBuf s) (len (flushBufs s))) = Ok (e, last).
Hypothesis Hhead : head s = Some start.
Hypothesis Hfirst : get_fb s start = Ok first.
Hypothesis Hwindow :
  (FB.StartOffset first <? FB.EndOffset last)
  && (int64 lssOf >=? FB.StartOffset first)
  && (int64 lssOf <? FB.EndOffset last) = false.

(** An offset at or above the tail that is outside the window of the live
    buffers is retried; with no other thread to move the window, the read
    never returns. *)
Lemma Read_outside_live_window (fuel : nat) :
  Store.Read fuel lssOf buf s = Spin.
Proof.
  induction fuel as [|fuel IH]; [reflexivity|].
  cbn [Store.Read]. rewrite Htail, Hring, Hcur. cbn [mbind result_bind].
  rewrite Hhead. cbn [deref mbind result_bind]. rewrite Hfirst.
  cbn [mbind result_bind]. rewrite Hwindow. exact IH.
Qed.

End StoreRead.

(** C3 (the code departs from the claim): in scenario A the first reserve
    returns offset 0 and ten bytes of buffer 0, but the 60-byte reserve,
    which seals buffer 0 and initializes buffer 1 at base offset 10,
    returns offset 0 and a nil slice instead of offset 10 and 60 bytes of
    buffer 1 (the missing retry of [ReserveSpace]).  Buffer 0 is flushed,
    so [Read(0, 10 bytes)] returns 0x01 x10 from the file; but nothing was
    stored at offset 10, [tailOffset] is 10 and not 70, and
    [Read(10, 60 bytes)] never returns. *)
Theorem C3_scenario_A_second_reserve_is_empty :
  (r ← Examples.scenarioA_first 2; Ok (r.1))
  = Ok (0, Some (View 0 10), 0%nat)
  /\ Examples.scenarioA_second 2
     = Ok ((0, None, 0%nat), Examples.scenarioA_end)
  /\ tailOffset Examples.scenarioA_end = 10
  /\ Exec.decoded 1 (Ok Examples.scenarioA_end) = Ok (false, 2, 0)
  /\ Store.Read 1 0 (replicate 10 x00) Examples.scenarioA_end
     = Ok (replicate 10 x01, (10, None))
  /\ forall fuel,
       Store.Read fuel 10 (replicate 60 x00) Examples.scenarioA_end = Spin.
Proof.
  split; [vm_compute; reflexivity|].
  split; [vm_compute; reflexivity|].
  split; [reflexivity|].
  split; [vm_compute; reflexivity|].
  split; [vm_compute; reflexivity|].
  intros fuel.
  apply (Read_outside_live_window 10 (replicate 60 x00)
           Examples.scenarioA_end 1%nat 1%nat
           (mkFlushBuffer 10 (replicate 64 x00) None (encodeState false 2 0))
           (mkFlushBuffer 10 (replicate 64 x00) None (encodeState false 2 0)));
    vm_compute; reflexivity.
Qed.

(** ** Order of the flushes *)

(** C8 (the code departs from the claim): [tailOffset] can decrease.  With
    three buffers of 64 bytes, a writer reserves 60 bytes in buffer 0 and
    is slow to finalize; meanwhile buffer 0 is sealed, 10 bytes are
    reserved in buffer 1 (logical offset 60) and finalized, buffer 1 is
    sealed and, its count reaching 0, flushed: [tailOffset] becomes 70.
    When the slow writer finalizes, buffer 0 is flushed and [tailOffset] is
    set to its end offset, 60.  The values of [tailOffset] after each call
    are 0, 0, 0, 0, 70, 60. *)
Theorem C8_tailOffset_decreases_with_slow_writer :
  (s ← LSS.newLSStore [] 1024 64 3;
   r ← Exec.observeTail 3 Examples.slowWriter s;
   Ok (r.1))
  = Ok [0; 0; 0; 0; 70; 60].
Proof. vm_compute. reflexivity. Qed.

(** * Further properties of the code *)

(** ** State word *)

(** What a word built by [encodeState] decodes to: the full flag is kept,
    the writer count is cut to its low 16 bits and the offset to its low 31
    bits; on counts up to 65535 and offsets up to [2^31 - 1] the round trip
    is exact. *)
Theorem X1_state_word_round_trip (f : bool) (nw off : Z) :
  0 <= nw < 2 ^ 32 ->
  decodeState (encodeState f nw off) = (f, nw mod 65536, off mod 2 ^ 31)
  /\ (nw <= 65535 -> 0 <= off < 2 ^ 31 ->
      decodeState (encodeState f nw off) = (f, nw, off)).
Proof.
  intros Hnw. split.
  - now apply decode_encode_mod.
  - intros Hnw' Hoff. apply decode_encode; lia.
Qed.

Lemma X1_state_word_round_trip_witness :
  decodeState (encodeState true 65535 (2 ^ 31 - 1))
  = (true, 65535, 2 ^ 31 - 1)
  /\ decodeState (encodeState false 65537 (2 ^ 31 + 5)) = (false, 1, 5).
Proof.
  assert (H1 : 0 <= 65535 < 2 ^ 32) by lia.
  assert (H2 : 0 <= 65537 < 2 ^ 32) by lia.
  split.
  - apply (X1_state_word_round_trip true 65535 (2 ^ 31 - 1) H1); lia.
  - apply (X1_state_word_round_trip false 65537 (2 ^ 31 + 5) H2).
Defined.

(** Re-encoding a decoded word clears bits 17 to 32 (the part of the
    writer field [decodeState] does not read) and keeps everything else,
    so decoding again gives the same triple. *)
Theorem X2_reencoding_clears_unread_bits (st : Z) (f : bool) (nw off : Z) :
  is_uint64 st ->
  decodeState st = (f, nw, off) ->
  encodeState f nw off = st - 2 ^ 17 * ((st / 2 ^ 17) mod 2 ^ 16)
  /\ decodeState (encodeState f nw off) = (f, nw, off).
Proof.
  intros Hst Hdec.
  destruct (decodeState_range _ _ _ _ Hst Hdec) as [Hnw Hoff].
  split; [|apply decode_encode; lia].
  rewrite encodeState_sum by lia. rewrite (Z.mod_small off) by lia.
  rewrite decodeState_arith in Hdec by assumption.
  injection Hdec as Hf Hn Ho.
  assert (Hbit : Z.b2z f = st mod 2).
  { rewrite <- Hf. change 1 with (Z.ones 1) at 1.
    rewrite Z.land_ones by lia. change (2 ^ 1) with 2.
    pose proof (Z.mod_pos_bound st 2 ltac:(lia)).
    destruct (Z.eqb_spec (st mod 2) 1) as [->|]; simpl; lia. }
  rewrite Hbit, <- Hn, <- Ho.
  unfold is_uint64 in Hst.
  pose proof (Z.div_mod st 2 ltac:(lia)) as E1.
  pose proof (Z.div_mod (st / 2) 65536 ltac:(lia)) as E2.
  pose proof (Z.div_mod (st / 2 / 65536) 65536 ltac:(lia)) as E3.
  rewrite !Z.div_div in E3 by lia. rewrite Z.div_div in E2 by lia.
  change (2 * 65536) with (2 ^ 17) in *.
  change (2 ^ 17 * 65536) with (2 ^ 33) in *.
  change (2 ^ 16) with 65536. lia.
Qed.

Lemma X2_reencoding_clears_unread_bits_witness :
  decodeState (2 ^ 17 + 4) = (false, 2, 0)
  /\ encodeState false 2 0 = 4.
Proof.
  assert (Hu : is_uint64 (2 ^ 17 + 4))
    by (vm_compute; split; [discriminate|reflexivity]).
  split; [vm_compute; reflexivity|].
  destruct (X2_reencoding_clears_unread_bits (2 ^ 17 + 4) false 2 0 Hu
              eq_refl) as [H _].
  rewrite H. vm_compute. reflexivity.
Defined.

(** ** Reservations within one buffer *)

Section AllocRuns.

Import Exec.

Lemma total_nonneg (sizes : list Z) :
  Forall (fun size => 0 <= size) sizes -> 0 <= total sizes.
Proof.
  induction 1 as [|size sizes Hsize _ IH]; unfold total in *; simpl; lia.
Qed.

Lemma allocAll_tiling (sizes : list Z) :
  forall (fb : flushBuffer) (nw off : Z),
    is_uint64 (state fb) ->
    decodeState (state fb) = (false, nw, off) ->
    len (b fb) < 2 ^ 31 ->
    min_int64 <= baseOffset fb ->
    baseOffset fb + len (b fb) <= max_int64 ->
    Forall (fun size => 0 <= size) sizes ->
    off + total sizes <= len (b fb) ->
    exists fb',
      allocAll fb sizes = Ok (fb', tiling (baseOffset fb) off sizes)
      /\ baseOffset fb' = baseOffset fb /\ b fb' = b fb
      /\ child fb' = child fb
      /\ is_uint64 (state fb')
      /\ FB.IsFull fb' = false
      /\ fill_of fb' = off + total sizes.
Proof.
  induction sizes as [|size sizes IH];
    intros fb nw off Hst Hdec Hcap Hmin Hmax Hpos Hfit.
  - exists fb. cbn [allocAll tiling]. unfold total. cbn [fold_right].
    split; [reflexivity|]. split; [reflexivity|]. split; [reflexivity|].
    split; [reflexivity|]. split; [assumption|].
    split; [unfold FB.IsFull; now rewrite Hdec|].
    destruct (fill_of_decoded fb false nw off Hdec) as [-> _]. lia.
  - inversion Hpos as [|? ? Hsize Hrest]; subst.
    pose proof (total_nonneg sizes Hrest) as Htot.
    destruct (decodeState_range _ _ _ _ Hst Hdec) as [Hnw Hoff].
    unfold total in Hfit. cbn [fold_right] in Hfit. fold (total sizes) in Hfit.
    unfold min_int64, max_int64 in *.
    assert (Hsum : int64 (size + off) = off + size).
    { rewrite int64_id; [lia|].
      unfold is_int64, min_int64, max_int64; lia. }
    set (fb1 := set_state fb (encodeState false (nw + 1) (off + size))).
    assert (Hstep : FB.Alloc fb size
                    = Ok (fb1, (true, false, baseOffset fb + off,
                                Some (View off (off + size))))).
    { rewrite (Alloc_fit fb size nw off Hdec) by lia.
      rewrite Hsum.
      rewrite (int64_id (nw + 1))
        by (unfold is_int64, min_int64, max_int64; lia).
      rewrite (int64_id off) by (unfold is_int64, min_int64, max_int64; lia).
      rewrite (int64_id (baseOffset fb + off))
        by (unfold is_int64, min_int64, max_int64; lia).
      rewrite subslice_in_bounds by lia. reflexivity. }
    assert (Hdec1 : decodeState (state fb1)
                    = (false, (nw + 1) mod 65536, off + size)).
    { unfold fb1, set_state. cbn [state].
      rewrite decode_encode_mod by lia.
      now rewrite (Z.mod_small (off + size)) by lia. }
    assert (Hst1 : is_uint64 (state fb1)) by apply encodeState_range.
    assert (Hfit1 : off + size + total sizes <= len (b fb1))
      by (change (b fb1) with (b fb); lia).
    destruct (IH fb1 ((nw + 1) mod 65536) (off + size) Hst1 Hdec1 Hcap Hmin
                Hmax Hrest Hfit1)
      as (fb' & Hrun & Hbase & Hb & Hch & Hst' & Hfull & Hfill).
    exists fb'. cbn [allocAll tiling]. rewrite Hstep.
    cbn [mbind result_bind fst snd]. rewrite Hrun.
    cbn [mbind result_bind fst snd].
    split; [reflexivity|]. split; [exact Hbase|]. split; [exact Hb|].
    split; [exact Hch|]. split; [exact Hst'|]. split; [exact Hfull|].
    rewrite Hfill. unfold total. cbn [fold_right]. fold (total sizes). lia.
Qed.

End AllocRuns.

(** Requests served by one buffer tile it: on a non-full buffer at fill
    offset [off], a run of [Alloc] calls with non-negative sizes that
    together fit in the remaining capacity all succeed, the k-th one
    returning the logical offset [base + off + (sum of the sizes before
    it)] and the window of the arena that starts where the previous one
    ended; the fill offset ends at [off] plus the sum of the sizes. *)
Theorem X3_Alloc_run_tiles_the_buffer (fb : flushBuffer) (nw off : Z)
    (sizes : list Z) :
  is_uint64 (state fb) ->
  decodeState (state fb) = (false, nw, off) ->
  len (b fb) < 2 ^ 31 ->
  min_int64 <= baseOffset fb ->
  baseOffset fb + len (b fb) <= max_int64 ->
  Forall (fun size => 0 <= size) sizes ->
  off + Exec.total sizes <= len (b fb) ->
  exists fb',
    Exec.allocAll fb sizes = Ok (fb', Exec.tiling (baseOffset fb) off sizes)
    /\ Exec.fill_of fb' = off + Exec.total sizes
    /\ FB.IsFull fb' = false
    /\ b fb' = b fb /\ baseOffset fb' = baseOffset fb.
Proof.
  intros Hst Hdec Hcap Hmin Hmax Hpos Hfit.
  destruct (allocAll_tiling sizes fb nw off Hst Hdec Hcap Hmin Hmax Hpos Hfit)
    as (fb' & Hrun & Hbase & Hb & _ & _ & Hfull & Hfill).
  exists fb'. split; [exact Hrun|]. split; [exact Hfill|].
  split; [exact Hfull|]. split; [exact Hb|exact Hbase].
Qed.

Lemma X3_Alloc_run_tiles_the_buffer_witness :
  exists fb',
    Exec.allocAll Examples.fresh64 [10; 0; 30; 24]
    = Ok (fb', [(true, false, 0, Some (View 0 10));
                (true, false, 10, Some (View 10 10));
                (true, false, 10, Some (View 10 40));
                (true, false, 40, Some (View 40 64))])
    /\ Exec.fill_of fb' = 64.
Proof.
  assert (Hu : is_uint64 (state Examples.fresh64))
    by (vm_compute; split; [discriminate|reflexivity]).
  assert (Hcap : len (b Examples.fresh64) < 2 ^ 31)
    by (vm_compute; reflexivity).
  assert (Hmin : min_int64 <= baseOffset Examples.fresh64)
    by (vm_compute; discriminate).
  assert (Hmax : baseOffset Examples.fresh64 + len (b Examples.fresh64)
                 <= max_int64) by (vm_compute; discriminate).
  assert (Hpos : Forall (fun size => 0 <= size) [10; 0; 30; 24])
    by (repeat constructor; lia).
  assert (Hfit : 0 + Exec.total [10; 0; 30; 24]
                 <= len (b Examples.fresh64)) by (vm_compute; discriminate).
  destruct (X3_Alloc_run_tiles_the_buffer Examples.fresh64 1 0
              [10; 0; 30; 24] Hu eq_refl Hcap Hmin Hmax Hpos Hfit)
    as (fb' & Hrun & Hfill & _).
  exists fb'. split; [exact Hrun|exact Hfill].
Defined.

(** A sealing is reported once: when [Alloc] returns [markedFull], the
    buffer was not full before, is full afterwards with the same writer
    count and fill offset, and every later [Alloc], whatever its size, is
    refused with (false, false, 0, nil) and changes nothing. *)
Theorem X4_markedFull_is_reported_once (fb fb1 : flushBuffer) (size : Z)
    (status : bool) (o : Z) (v : option view) :
  is_uint64 (state fb) ->
  FB.Alloc fb size = Ok (fb1, (status, true, o, v)) ->
  status = false /\ o = 0 /\ v = None
  /\ FB.IsFull fb = false /\ FB.IsFull fb1 = true
  /\ Exec.fill_of fb1 = Exec.fill_of fb
  /\ Exec.nwriters_of fb1 = Exec.nwriters_of fb
  /\ b fb1 = b fb /\ baseOffset fb1 = baseOffset fb /\ child fb1 = child fb
  /\ forall size', FB.Alloc fb1 size' = Ok (fb1, (false, false, 0, None)).
Proof.
  intros Hst Halloc.
  destruct (decodeState (state fb)) as [[isfull nw] off] eqn:Hdec.
  destruct (decodeState_range _ _ _ _ Hst Hdec) as [Hnw Hoff].
  destruct (fill_of_decoded fb isfull nw off Hdec) as [Hf Hn].
  destruct isfull.
  { rewrite (Alloc_full fb size nw off Hdec) in Halloc. discriminate. }
  destruct (Z.le_gt_cases (int64 (size + off)) (len (b fb))) as [Hle|Hgt].
  { rewrite (Alloc_fit fb size nw off Hdec Hle) in Halloc.
    destruct (subslice (b fb) off (int64 (size + off))); discriminate. }
  rewrite (Alloc_seal fb size nw off Hdec Hgt) in Halloc.
  injection Halloc as <- <- <- <-.
  assert (Hdec1 : decodeState (state (set_state fb (encodeState true nw off)))
                  = (true, nw, off))
    by (unfold set_state; cbn [state]; apply decode_encode; lia).
  destruct (fill_of_decoded _ true nw off Hdec1) as [Hf1 Hn1].
  split; [reflexivity|]. split; [reflexivity|]. split; [reflexivity|].
  split; [unfold FB.IsFull; now rewrite Hdec|].
  split; [unfold FB.IsFull; now rewrite Hdec1|].
  split; [congruence|]. split; [congruence|].
  split; [reflexivity|]. split; [reflexivity|]. split; [reflexivity|].
  intros size'. now apply (Alloc_full _ size' nw off).
Qed.

Lemma X4_markedFull_is_reported_once_witness :
  FB.IsFull Examples.sealed64 = true
  /\ forall size',
       FB.Alloc Examples.sealed64 size'
       = Ok (Examples.sealed64, (false, false, 0, None)).
Proof.
  assert (Hu : is_uint64 (state Examples.fresh64))
    by (vm_compute; split; [discriminate|reflexivity]).
  assert (Ha : FB.Alloc Examples.fresh64 70
               = Ok (Examples.sealed64, (false, true, 0, None)))
    by (vm_compute; reflexivity).
  destruct (X4_markedFull_is_reported_once Examples.fresh64 Examples.sealed64
              70 false 0 None Hu Ha)
    as (_ & _ & _ & _ & Hfull & _ & _ & _ & _ & _ & Hnext).
  split; [exact Hfull|exact Hnext].
Defined.

(** ** Reservations through the store *)

Section RingFacts.

Implicit Types (s : lsStore) (p q : nat) (fb : flushBuffer).

Lemma put_fb_put_fb s p fb fb' :
  put_fb (put_fb s p fb) p fb' = put_fb s p fb'.
Proof.
  unfold put_fb, set_flushBufs. cbn [file maxSize headOffset tailOffset head
    bufSize flushBufs currBuf]. now rewrite list_insert_insert_eq.
Qed.

Lemma put_fb_same s p fb : flushBufs s !! p = Some fb -> put_fb s p fb = s.
Proof.
  intros H. unfold put_fb, set_flushBufs. rewrite (list_insert_id _ _ _ H).
  now destruct s.
Qed.

Lemma lookup_ring_positive s p fb :
  flushBufs s !! p = Some fb -> 0 < len (flushBufs s).
Proof. intros H. apply lookup_lt_Some in H. unfold len. lia. Qed.

(** The buffer the ring cursor [id] selects. *)
Lemma index_fb_cursor s (id : Z) p fb :
  0 <= id ->
  flushBufs s !! p = Some fb ->
  Z.of_nat p = id mod len (flushBufs s) ->
  index_fb s (Z.rem id (len (flushBufs s))) = Ok (p, fb).
Proof.
  intros Hid Hp Hmod. pose proof (lookup_ring_positive s p fb Hp) as Hn.
  rewrite Z.rem_mod_nonneg by lia. rewrite <- Hmod. unfold index_fb.
  destruct (Z.ltb_spec (Z.of_nat p) 0); [lia|].
  rewrite Nat2Z.id, (get_fb_Some _ _ _ Hp). reflexivity.
Qed.

Lemma ring_nonempty s p fb :
  flushBufs s !! p = Some fb -> (len (flushBufs s) =? 0) = false.
Proof.
  intros H. pose proof (lookup_ring_positive s p fb H).
  destruct (Z.eqb_spec (len (flushBufs s)) 0); [lia|reflexivity].
Qed.

Lemma ReserveSpace_fits (k : nat) (size : Z) s p fb (nw off : Z) :
  0 <= currBuf s ->
  flushBufs s !! p = Some fb ->
  Z.of_nat p = currBuf s mod len (flushBufs s) ->
  is_uint64 (state fb) ->
  decodeState (state fb) = (false, nw, off) ->
  0 <= size -> off + size <= len (b fb) -> len (b fb) < 2 ^ 31 ->
  0 <= baseOffset fb -> baseOffset fb + off <= max_int64 ->
  Store.ReserveSpace (S k) size s
  = Ok ((baseOffset fb + off, Some (View off (off + size)), p),
        put_fb s p (set_state fb (encodeState false (nw + 1) (off + size)))).
Proof.
  intros Hid Hp Hmod Hst Hdec Hsize Hfit Hcap Hbase Hend.
  destruct (decodeState_range _ _ _ _ Hst Hdec) as [Hnw Hoff].
  unfold max_int64 in Hend.
  cbn [Store.ReserveSpace]. rewrite (ring_nonempty s p fb Hp).
  rewrite (index_fb_cursor s (currBuf s) p fb Hid Hp Hmod).
  cbn [mbind result_bind].
  assert (Hsum : int64 (size + off) = off + size).
  { rewrite int64_id; [lia|]. unfold is_int64, min_int64, max_int64; lia. }
  rewrite (Alloc_fit fb size nw off Hdec) by lia. rewrite Hsum.
  rewrite (int64_id (nw + 1)) by (unfold is_int64, min_int64, max_int64; lia).
  rewrite (int64_id off) by (unfold is_int64, min_int64, max_int64; lia).
  rewrite (int64_id (baseOffset fb + off))
    by (unfold is_int64, min_int64, max_int64; lia).
  rewrite subslice_in_bounds by lia. cbn [mbind result_bind negb].
  rewrite uint64_id by (unfold is_uint64; lia). reflexivity.
Qed.

Lemma ReserveSpace_current_full (fuel : nat) (size : Z) s p fb :
  0 <= currBuf s ->
  flushBufs s !! p = Some fb ->
  Z.of_nat p = currBuf s mod len (flushBufs s) ->
  FB.IsFull fb = true ->
  Store.ReserveSpace fuel size s = Spin.
Proof.
  intros Hid Hp Hmod Hfull. induction fuel as [|fuel IH]; [reflexivity|].
  cbn [Store.ReserveSpace]. rewrite (ring_nonempty s p fb Hp).
  rewrite (index_fb_cursor s (currBuf s) p fb Hid Hp Hmod).
  cbn [mbind result_bind].
  unfold FB.IsFull in Hfull.
  destruct (decodeState (state fb)) as [[isfull nw] off] eqn:Hdec.
  subst isfull. rewrite (Alloc_full fb size nw off Hdec).
  cbn [mbind result_bind negb]. rewrite (put_fb_same s p fb Hp). exact IH.
Qed.

End RingFacts.

(** A reservation that fits in the current buffer is served from it: it
    returns the logical offset [base + fill], the window
    [fill, fill + size) of the arena and the buffer as the handle; in the
    store only the state word of that buffer changes, to one more writer
    and a fill offset advanced by [size]. *)
Theorem X5_ReserveSpace_served_by_current_buffer (k : nat) (size : Z)
    (s : lsStore) (p : nat) (fb : flushBuffer) (nw off : Z) :
  0 <= currBuf s ->
  flushBufs s !! p = Some fb ->
  Z.of_nat p = currBuf s mod len (flushBufs s) ->
  is_uint64 (state fb) ->
  decodeState (state fb) = (false, nw, off) ->
  nw < 65535 ->
  0 <= size -> off + size <= len (b fb) -> len (b fb) < 2 ^ 31 ->
  0 <= baseOffset fb -> baseOffset fb + off <= max_int64 ->
  exists fb',
    Store.ReserveSpace (S k) size s
    = Ok ((baseOffset fb + off, Some (View off (off + size)), p),
          put_fb s p fb')
    /\ view_len (View off (off + size)) = size
    /\ decodeState (state fb') = (false, nw + 1, off + size)
    /\ b fb' = b fb /\ baseOffset fb' = baseOffset fb
    /\ child fb' = child fb.
Proof.
  intros Hid Hp Hmod Hst Hdec Hnw Hsize Hfit Hcap Hbase Hend.
  destruct (decodeState_range _ _ _ _ Hst Hdec) as [Hnw' Hoff].
  exists (set_state fb (encodeState false (nw + 1) (off + size))).
  split; [now apply ReserveSpace_fits|].
  split; [unfold view_len; cbn [lo hi]; lia|].
  split; [unfold set_state; cbn [state]; apply decode_encode; lia|].
  split; [reflexivity|]. split; reflexivity.
Qed.

Lemma X5_ReserveSpace_served_by_current_buffer_witness :
  exists fb',
    Store.ReserveSpace 1 24 Examples.freshStore
    = Ok ((0, Some (View 0 24), 0%nat), put_fb Examples.freshStore 0 fb')
    /\ decodeState (state fb') = (false, 2, 24).
Proof.
  assert (Hid : 0 <= currBuf Examples.freshStore) by (vm_compute; discriminate).
  assert (Hu : is_uint64 (state Examples.fresh64))
    by (vm_compute; split; [discriminate|reflexivity]).
  assert (Hnw : 1 < 65535) by lia.
  assert (Hsize : 0 <= 24) by lia.
  assert (Hfit : 0 + 24 <= len (b Examples.fresh64))
    by (vm_compute; discriminate).
  assert (Hcap : len (b Examples.fresh64) < 2 ^ 31)
    by (vm_compute; reflexivity).
  assert (Hbase : 0 <= baseOffset Examples.fresh64)
    by (vm_compute; discriminate).
  assert (Hend : baseOffset Examples.fresh64 + 0 <= max_int64)
    by (vm_compute; discriminate).
  destruct (X5_ReserveSpace_served_by_current_buffer 0 24 Examples.freshStore
              0 Examples.fresh64 1 0 Hid eq_refl eq_refl Hu eq_refl Hnw Hsize
              Hfit Hcap Hbase Hend)
    as (fb' & Hres & _ & Hdec & _).
  exists fb'. split; [exact Hres|exact Hdec].
Defined.

(** While the current buffer is full and the cursor has not moved, no
    reservation of any size can be served: [ReserveSpace] yields and
    retries, and without another thread to advance the ring it never
    returns. *)
Theorem X6_ReserveSpace_waits_on_full_current_buffer (fuel : nat) (size : Z)
    (s : lsStore) (p : nat) (fb : flushBuffer) :
  0 <= currBuf s ->
  flushBufs s !! p = Some fb ->
  Z.of_nat p = currBuf s mod len (flushBufs s) ->
  FB.IsFull fb = true ->
  Store.ReserveSpace fuel size s = Spin.
Proof. apply ReserveSpace_current_full. Qed.

Lemma X6_ReserveSpace_waits_on_full_current_buffer_witness :
  Store.ReserveSpace 7 10 (put_fb Examples.freshStore 0 Examples.sealed64)
  = Spin.
Proof.
  assert (Hid : 0 <= currBuf (put_fb Examples.freshStore 0 Examples.sealed64))
    by (vm_compute; discriminate).
  apply (X6_ReserveSpace_waits_on_full_current_buffer 7 10 _ 0%nat
           Examples.sealed64 Hid eq_refl eq_refl eq_refl).
Defined.

(** A ring of one buffer cannot advance: the reservation that seals the
    only buffer then waits for the "next" buffer, which is the one it just
    sealed, to stop being full. *)
Theorem X7_single_buffer_ring_never_advances (k : nat) (size : Z)
    (s : lsStore) (fb : flushBuffer) (nw off : Z) :
  flushBufs s = [fb] ->
  is_uint64 (state fb) ->
  decodeState (state fb) = (false, nw, off) ->
  0 <= size -> size + off <= max_int64 ->
  len (b fb) < off + size ->
  Store.ReserveSpace (S k) size s = Spin.
Proof.
  intros Hbufs Hst Hdec Hsize Hmax Hbig.
  destruct (decodeState_range _ _ _ _ Hst Hdec) as [Hnw Hoff].
  unfold max_int64 in Hmax.
  cbn [Store.ReserveSpace]. rewrite Hbufs.
  change (len [fb]) with 1. cbn [Z.eqb]. rewrite !Z.rem_1_r.
  unfold index_fb, get_fb. rewrite Hbufs.
  change (Z.to_nat 0) with 0%nat.
  cbn [Z.ltb Z.compare lookup list_lookup deref mbind result_bind].
  rewrite (Alloc_seal fb size nw off Hdec)
    by (rewrite int64_id by (unfold is_int64, min_int64, max_int64; lia); lia).
  cbn [mbind result_bind negb]. unfold put_fb.
  cbn [flushBufs set_flushBufs]. rewrite Hbufs.
  cbn [insert list_insert lookup list_lookup deref mbind result_bind].
  unfold FB.IsFull, set_state. cbn [state].
  rewrite decode_encode by lia. reflexivity.
Qed.

Lemma X7_single_buffer_ring_never_advances_witness :
  Store.ReserveSpace 7 70
    (mkLsStore [] 1024 0 0 (Some 0%nat) 64 [Examples.fresh64] 0) = Spin.
Proof.
  assert (Hu : is_uint64 (state Examples.fresh64))
    by (vm_compute; split; [discriminate|reflexivity]).
  assert (Hsize : 0 <= 70) by lia.
  assert (Hmax : 70 + 0 <= max_int64) by (vm_compute; discriminate).
  assert (Hbig : len (b Examples.fresh64) < 0 + 70)
    by (vm_compute; reflexivity).
  apply (X7_single_buffer_ring_never_advances 6 70
           (mkLsStore [] 1024 0 0 (Some 0%nat) 64 [Examples.fresh64] 0)
           Examples.fresh64 1 0 eq_refl Hu eq_refl Hsize Hmax Hbig).
Defined.

(** ** Advancing the ring *)

Section RingAdvance.

Variables (s : lsStore) (p q : nat) (fb nfb : flushBuffer).
Variables (nw off size : Z).

Hypothesis Hid : 0 <= currBuf s < 2 ^ 31 - 1.
Hypothesis Hp : flushBufs s !! p = Some fb.
Hypothesis Hpm : Z.of_nat p = currBuf s mod len (flushBufs s).
Hypothesis Hq : flushBufs s !! q = Some nfb.
Hypothesis Hqm : Z.of_nat q = (currBuf s + 1) mod len (flushBufs s).
Hypothesis Hpq : p <> q.
Hypothesis Hst : is_uint64 (state fb).
Hypothesis Hdec : decodeState (state fb) = (false, nw, off).
Hypothesis Hnw : 1 <= nw.
Hypothesis Hfill : off <= len (b fb).
Hypothesis Hbase : 0 <= baseOffset fb.
Hypothesis Hend : baseOffset fb + off <= max_int64.
Hypothesis Hsize : 0 <= size.
Hypothesis Hsum : size + off <= max_int64.
Hypothesis Hbig : len (b fb) < off + size.
Hypothesis Hnext : FB.IsFull nfb = false.
Hypothesis Hmax : 0 < maxSize s.
Hypothesis Hchild : child nfb = None.

Let E : Z := baseOffset fb + off.
Let sealed : flushBuffer := set_state fb (encodeState true nw off).
Let s1 : lsStore := put_fb s p sealed.
Let nfb2 : flushBuffer :=
  set_state (set_baseOffset nfb E) (encodeState false 2 0).
Let par4 : flushBuffer :=
  mkFlushBuffer (baseOffset fb) (b fb) (Some q)
    (encodeState true (nw - 1) off).
Let s4 : lsStore := put_fb (put_fb s1 q nfb2) p par4.

Lemma advance_ranges : 0 <= nw <= 65535 /\ 0 <= off < 2 ^ 31.
Proof. exact (decodeState_range _ _ _ _ Hst Hdec). Qed.

Lemma advance_lookup_p (t : lsStore) (x y : flushBuffer) :
  flushBufs t !! p = Some x -> flushBufs (put_fb t p y) !! p = Some y.
Proof. apply lookup_put_fb_same. Qed.

Lemma advance_s1_q : flushBufs s1 !! q = Some nfb.
Proof. unfold s1. rewrite lookup_put_fb_other by exact Hpq. exact Hq. Qed.

Lemma advance_s1_p : flushBufs s1 !! p = Some sealed.
Proof. unfold s1. eapply lookup_put_fb_same. exact Hp. Qed.

Lemma advance_sealed_decoded : decodeState (state sealed) = (true, nw, off).
Proof.
  destruct advance_ranges. unfold sealed, set_state. cbn [state].
  apply decode_encode; lia.
Qed.

(** Up to the initialization of the successor. *)
Lemma advance_reserve_unfold (f : nat) :
  Store.ReserveSpace (S f) size s
  = (s2 ← Store.Init f q (Some p) E s1;
     if negb (currBuf s2 =? currBuf s) then Panic
     else Ok ((0, None, p), set_currBuf s2 (currBuf s + 1))).
Proof.
  destruct advance_ranges as [Hnw' Hoff]. unfold max_int64 in *.
  pose proof (lookup_ring_positive s p fb Hp) as Hn.
  cbn [Store.ReserveSpace]. rewrite (ring_nonempty s p fb Hp).
  rewrite (index_fb_cursor s (currBuf s) p fb (proj1 Hid) Hp Hpm).
  cbn [mbind result_bind].
  rewrite (Alloc_seal fb size nw off Hdec)
    by (rewrite int64_id by (unfold is_int64, min_int64, max_int64; lia); lia).
  cbn [mbind result_bind negb]. fold sealed. fold s1.
  assert (H32 : int32 (currBuf s + 1) = currBuf s + 1).
  { unfold int32. rewrite Z.mod_small by lia. lia. }
  rewrite H32.
  assert (Hidx : index_fb s1 (Z.rem (currBuf s + 1) (len (flushBufs s)))
                 = Ok (q, nfb)).
  { rewrite Z.rem_mod_nonneg by lia. rewrite <- Hqm. unfold index_fb.
    destruct (Z.ltb_spec (Z.of_nat q) 0); [lia|].
    rewrite Nat2Z.id, (get_fb_Some _ _ _ advance_s1_q). reflexivity. }
  rewrite Hidx. cbn [mbind result_bind]. rewrite Hnext.
  rewrite (EndOffset_sum sealed true nw off advance_sealed_decoded)
    by (unfold sealed, set_state; cbn [baseOffset]; unfold is_int64,
        min_int64, max_int64; lia).
  change (baseOffset sealed + off) with E.
  rewrite uint64_id by (unfold is_uint64; lia). reflexivity.
Qed.

(** The initialization of the successor, up to [Done] on the parent. *)
Lemma advance_Init_unfold (f : nat) :
  Store.Init f q (Some p) E s1
  = Done LSS.flush f p
      (put_fb (put_fb s1 q nfb2) p (set_child sealed (Some q))).
Proof.
  unfold Store.Init, Init. rewrite (get_fb_Some _ _ _ advance_s1_q).
  cbn [mbind result_bind].
  rewrite (get_fb_Some _ _ (set_baseOffset nfb E))
    by (eapply lookup_put_fb_same; exact advance_s1_q).
  cbn [mbind result_bind]. rewrite put_fb_put_fb. fold nfb2.
  assert (Hpar : flushBufs (put_fb s1 q nfb2) !! p = Some sealed).
  { rewrite lookup_put_fb_other by congruence. exact advance_s1_p. }
  rewrite (get_fb_Some _ _ _ Hpar). reflexivity.
Qed.

(** [Done] on the sealed parent, up to the callback and the cascade. *)
Lemma advance_Done_unfold (f : nat) :
  Done LSS.flush (S f) p
    (put_fb (put_fb s1 q nfb2) p (set_child sealed (Some q)))
  = after_decrement LSS.flush f p (nw =? 1) s4.
Proof.
  destruct advance_ranges as [Hnw' Hoff].
  assert (Hpar : flushBufs (put_fb s1 q nfb2) !! p = Some sealed).
  { rewrite lookup_put_fb_other by congruence. exact advance_s1_p. }
  rewrite (Done_unfold LSS.flush f p _ (set_child sealed (Some q)) true nw off)
    by (first [eapply lookup_put_fb_same; exact Hpar
              | exact advance_sealed_decoded]).
  rewrite put_fb_put_fb.
  rewrite (int64_id (nw - 1)) by (unfold is_int64, min_int64, max_int64; lia).
  rewrite andb_true_r. reflexivity.
Qed.

Lemma advance_s4_p : flushBufs s4 !! p = Some par4.
Proof.
  unfold s4. eapply lookup_put_fb_same.
  rewrite lookup_put_fb_other by congruence. exact advance_s1_p.
Qed.

Lemma advance_s4_q : flushBufs s4 !! q = Some nfb2.
Proof.
  unfold s4. rewrite lookup_put_fb_other by exact Hpq.
  eapply lookup_put_fb_same. exact advance_s1_q.
Qed.

Lemma advance_par4_decoded :
  decodeState (state par4) = (true, nw - 1, off).
Proof.
  destruct advance_ranges. unfold par4. cbn [state].
  apply decode_encode; lia.
Qed.

Lemma advance_others (t : lsStore) (r : nat) (x y : flushBuffer) :
  r <> p -> r <> q ->
  flushBufs (put_fb (put_fb t q x) p y) !! r = flushBufs t !! r.
Proof.
  intros Hrp Hrq. rewrite !lookup_put_fb_other by congruence. reflexivity.
Qed.

(** The parent had no writer left: it is flushed on the spot. *)
Lemma advance_parent_flushed (k : nat) :
  nw = 1 ->
  exists s',
    Store.ReserveSpace (S (S (S k))) size s = Ok ((0, None, p), s')
    /\ currBuf s' = currBuf s + 1
    /\ flushBufs s' !! q = Some nfb2
    /\ (forall r, r <> p -> r <> q -> flushBufs s' !! r = flushBufs s !! r)
    /\ flushBufs s' !! p = Some (FB.Reset fb)
    /\ tailOffset s' = E
    /\ head s' = Some q
    /\ file s' = WriteAt (file s) (take (Z.to_nat off) (b fb))
                   (baseOffset fb mod maxSize s).
Proof.
  intros Hone. destruct advance_ranges as [Hnw' Hoff].
  set (bytes := take (Z.to_nat off) (b fb)).
  set (s5 := put_fb
               (set_tailOffset
                  (set_head
                     (set_file s4
                        (WriteAt (file s) bytes (baseOffset fb mod maxSize s)))
                     (Some q)) E) p (FB.Reset fb)).
  assert (Hflush : LSS.flush p s4 = Ok s5).
  { unfold LSS.flush. rewrite (get_fb_Some _ _ _ advance_s4_p).
    cbn [mbind result_bind]. change (maxSize s4) with (maxSize s).
    destruct (Z.eqb_spec (maxSize s) 0); [lia|].
    rewrite (Bytes_in_bounds par4 true (nw - 1) off advance_par4_decoded)
      by (cbn [par4 b]; lia).
    cbn [deref mbind result_bind].
    rewrite (EndOffset_sum par4 true (nw - 1) off advance_par4_decoded)
      by (cbn [par4 baseOffset]; unfold is_int64, min_int64, max_int64 in *;
          lia).
    unfold FB.StartOffset. cbn [par4 baseOffset b child].
    rewrite Z.rem_mod_nonneg by lia. reflexivity. }
  assert (Hs5p : flushBufs s5 !! p = Some (FB.Reset fb)).
  { unfold s5. eapply lookup_put_fb_same.
    change (flushBufs (set_tailOffset _ _)) with (flushBufs s4).
    exact advance_s4_p. }
  exists (set_currBuf s5 (currBuf s + 1)). split.
  { rewrite advance_reserve_unfold, advance_Init_unfold, advance_Done_unfold.
    unfold after_decrement. rewrite Hone. cbn [Z.eqb Pos.eqb].
    rewrite Hflush. cbn [mbind result_bind].
    rewrite (get_fb_Some _ _ _ Hs5p). cbn [mbind result_bind FB.Reset child].
    change (currBuf s5) with (currBuf s). rewrite Z.eqb_refl. reflexivity. }
  split; [reflexivity|].
  split.
  { change (flushBufs (set_currBuf s5 _)) with (flushBufs s5). unfold s5.
    rewrite lookup_put_fb_other by exact Hpq.
    change (flushBufs (set_tailOffset _ _)) with (flushBufs s4).
    exact advance_s4_q. }
  split.
  { intros r Hrp Hrq.
    change (flushBufs (set_currBuf s5 _)) with (flushBufs s5). unfold s5.
    rewrite lookup_put_fb_other by congruence.
    change (flushBufs (set_tailOffset _ _)) with (flushBufs s4).
    unfold s4. rewrite advance_others by assumption.
    unfold s1. rewrite lookup_put_fb_other by congruence. reflexivity. }
  split; [exact Hs5p|]. split; [reflexivity|]. split; reflexivity.
Qed.

(** The parent still has writers: it keeps waiting, and the cascade of its
    [Done] takes one of the two references of the successor. *)
Lemma advance_parent_waits (k : nat) :
  nw <> 1 ->
  exists s',
    Store.ReserveSpace (S (S (S k))) size s = Ok ((0, None, p), s')
    /\ currBuf s' = currBuf s + 1
    /\ flushBufs s' !! q
       = Some (set_state nfb2 (encodeState false 1 0))
    /\ (forall r, r <> p -> r <> q -> flushBufs s' !! r = flushBufs s !! r)
    /\ flushBufs s' !! p = Some par4
    /\ tailOffset s' = tailOffset s
    /\ head s' = head s
    /\ file s' = file s.
Proof.
  intros Hmany. destruct advance_ranges as [Hnw' Hoff].
  set (nfb6 := set_state nfb2 (encodeState false 1 0)).
  set (s6 := put_fb s4 q nfb6).
  assert (Hs6q : flushBufs s6 !! q = Some nfb6)
    by (unfold s6; eapply lookup_put_fb_same; exact advance_s4_q).
  assert (Hdec2 : decodeState (state nfb2) = (false, 2, 0))
    by (cbn [nfb2 set_state state]; apply decode_encode; lia).
  assert (Hcascade : Done LSS.flush (S k) q s4 = Ok s6).
  { rewrite (Done_unfold LSS.flush k q s4 nfb2 false 2 0 advance_s4_q Hdec2).
    rewrite (int64_id (2 - 1))
      by (unfold is_int64, min_int64, max_int64; lia).
    change (2 - 1) with 1. fold nfb6. fold s6.
    unfold after_decrement. cbn [Z.eqb Pos.eqb andb mbind result_bind].
    rewrite (get_fb_Some _ _ _ Hs6q). cbn [mbind result_bind].
    change (child nfb6) with (child nfb). rewrite Hchild. reflexivity. }
  exists (set_currBuf s6 (currBuf s + 1)). split.
  { rewrite advance_reserve_unfold, advance_Init_unfold, advance_Done_unfold.
    unfold after_decrement.
    destruct (Z.eqb_spec nw 1) as [|_]; [contradiction|].
    cbn [mbind result_bind]. rewrite (get_fb_Some _ _ _ advance_s4_p).
    cbn [mbind result_bind]. change (child par4) with (Some q).
    cbn iota. rewrite Hcascade. cbn [mbind result_bind].
    change (currBuf s6) with (currBuf s). rewrite Z.eqb_refl. reflexivity. }
  split; [reflexivity|]. split; [exact Hs6q|].
  split.
  { intros r Hrp Hrq.
    change (flushBufs (set_currBuf s6 _)) with (flushBufs s6). unfold s6.
    rewrite lookup_put_fb_other by congruence.
    unfold s4. rewrite advance_others by assumption.
    unfold s1. rewrite lookup_put_fb_other by congruence. reflexivity. }
  split.
  { change (flushBufs (set_currBuf s6 _)) with (flushBufs s6). unfold s6.
    rewrite lookup_put_fb_other by congruence. exact advance_s4_p. }
  split; [reflexivity|]. split; reflexivity.
Qed.

End RingAdvance.

(** The reservation that seals the current buffer advances the ring and
    hands nothing out.  When the request does not fit in the current
    buffer [p] (not full, at least one writer reference) and the next
    buffer [q] of the ring is free, [ReserveSpace] returns offset 0, a nil
    slice and [p] as handle; the cursor moves to [q], which now starts at
    the end offset of [p] with fill offset 0.  If [p] had no writer in
    flight ([nw = 1]) it is flushed on the spot (its bytes go to the file,
    [tailOffset] becomes its end offset, [head] becomes [q], [p] is reset)
    and [q] keeps a count of 2; otherwise [p] stays sealed with one
    reference less and [q] as child, nothing is written, and the cascade
    of [Done] leaves [q] a count of 1.  No other buffer changes. *)
Theorem X8_sealing_reserve_advances_ring (k : nat) (s : lsStore) (p q : nat)
    (fb nfb : flushBuffer) (nw off size : Z) :
  0 <= currBuf s < 2 ^ 31 - 1 ->
  flushBufs s !! p = Some fb ->
  Z.of_nat p = currBuf s mod len (flushBufs s) ->
  flushBufs s !! q = Some nfb ->
  Z.of_nat q = (currBuf s + 1) mod len (flushBufs s) ->
  p <> q ->
  is_uint64 (state fb) ->
  decodeState (state fb) = (false, nw, off) ->
  1 <= nw ->
  off <= len (b fb) ->
  0 <= baseOffset fb ->
  baseOffset fb + off <= max_int64 ->
  size + off <= max_int64 ->
  len (b fb) < off + size ->
  FB.IsFull nfb = false ->
  child nfb = None ->
  0 < maxSize s ->
  exists s',
    Store.ReserveSpace (S (S (S k))) size s = Ok ((0, None, p), s')
    /\ currBuf s' = currBuf s + 1
    /\ flushBufs s' !! q
       = Some (mkFlushBuffer (baseOffset fb + off) (b nfb) None
                 (encodeState false (if nw =? 1 then 2 else 1) 0))
    /\ (forall r, r <> p -> r <> q -> flushBufs s' !! r = flushBufs s !! r)
    /\ (nw = 1 ->
        flushBufs s' !! p = Some (FB.Reset fb)
        /\ tailOffset s' = baseOffset fb + off
        /\ head s' = Some q
        /\ file s' = WriteAt (file s) (take (Z.to_nat off) (b fb))
                       (baseOffset fb mod maxSize s))
    /\ (nw <> 1 ->
        flushBufs s' !! p
        = Some (mkFlushBuffer (baseOffset fb) (b fb) (Some q)
                  (encodeState true (nw - 1) off))
        /\ tailOffset s' = tailOffset s
        /\ head s' = head s
        /\ file s' = file s).
Proof.
  intros Hid Hp Hpm Hq Hqm Hpq Hst Hdec Hnw Hfill Hbase Hend Hsum Hbig Hnext
    Hchild Hmax.
  destruct (Z.eqb_spec nw 1) as [Hone|Hmany].
  - destruct (advance_parent_flushed s p q fb nfb nw off size Hid Hp Hpm Hq
                Hqm Hpq Hst Hdec Hnw Hfill Hbase Hend Hsum Hbig Hnext Hmax k
                Hone)
      as (s' & Hres & Hcur & Hq' & Hoth & Hp' & Htail & Hhead & Hfile).
    exists s'. split; [exact Hres|]. split; [exact Hcur|].
    split.
    { rewrite Hq'. unfold set_state, set_baseOffset. cbn [b child baseOffset].
      now rewrite Hchild. }
    split; [exact Hoth|]. split; [auto|]. intros Hne. contradiction.
  - destruct (advance_parent_waits s p q fb nfb nw off size Hid Hp Hpm Hq
                Hqm Hpq Hst Hdec Hnw Hfill Hbase Hend Hsum Hbig Hnext Hchild k
                Hmany)
      as (s' & Hres & Hcur & Hq' & Hoth & Hp' & Htail & Hhead & Hfile).
    exists s'. split; [exact Hres|]. split; [exact Hcur|].
    split.
    { rewrite Hq'. unfold set_state, set_baseOffset. cbn [b child baseOffset].
      now rewrite Hchild. }
    split; [exact Hoth|]. split; [intros Heq; contradiction|]. auto.
Qed.

Lemma X8_sealing_reserve_advances_ring_witness :
  exists s',
    Store.ReserveSpace 3 10 Examples.busyStore = Ok ((0, None, 0%nat), s')
    /\ currBuf s' = 1
    /\ Exec.decoded 1 (Ok s') = Ok (false, 1, 0)
    /\ Exec.decoded 0 (Ok s') = Ok (true, 3, 60)
    /\ tailOffset s' = 0.
Proof.
  assert (Hid : 0 <= currBuf Examples.busyStore < 2 ^ 31 - 1)
    by (vm_compute; split; [discriminate|reflexivity]).
  assert (Hpq : 0%nat <> 1%nat) by discriminate.
  assert (Hu : is_uint64 (state Examples.busy64))
    by (vm_compute; split; [discriminate|reflexivity]).
  assert (Hnw : 1 <= 4) by lia.
  assert (Hfill : 60 <= len (b Examples.busy64)) by (vm_compute; discriminate).
  assert (Hbase : 0 <= baseOffset Examples.busy64)
    by (vm_compute; discriminate).
  assert (Hend : baseOffset Examples.busy64 + 60 <= max_int64)
    by (vm_compute; discriminate).
  assert (Hsum : 10 + 60 <= max_int64) by (vm_compute; discriminate).
  assert (Hbig : len (b Examples.busy64) < 60 + 10)
    by (vm_compute; reflexivity).
  assert (Hmax : 0 < maxSize Examples.busyStore) by reflexivity.
  destruct (X8_sealing_reserve_advances_ring 0 Examples.busyStore 0 1
              Examples.busy64 Examples.fresh64 4 60 10 Hid eq_refl eq_refl
              eq_refl eq_refl Hpq Hu eq_refl Hnw Hfill Hbase Hend Hsum Hbig
              eq_refl eq_refl Hmax)
    as (s' & Hres & Hcur & Hq' & _ & _ & Hwait).
  destruct Hwait as (Hp' & Htail & _); [discriminate|].
  exists s'. split; [exact Hres|]. split; [exact Hcur|].
  split.
  { unfold Exec.decoded. cbn [mbind result_bind]. unfold get_fb.
    rewrite Hq'. vm_compute. reflexivity. }
  split.
  { unfold Exec.decoded. cbn [mbind result_bind]. unfold get_fb.
    rewrite Hp'. vm_compute. reflexivity. }
  exact Htail.
Defined.

(** ** Reading back *)

Section ReadBack.

Implicit Types (f data buf : list byte) (pos i : Z).

Lemma ReadAt_after_WriteAt f data buf pos i :
  0 <= pos -> 0 <= i -> i + len buf <= len data -> i < len data ->
  ReadAt (WriteAt f data pos) buf (pos + i)
  = (take (length buf) (drop (Z.to_nat i) data), (len buf, None)).
Proof.
  intros Hpos Hi Hfit Hne. unfold len in *. unfold ReadAt, WriteAt.
  destruct (Z.ltb_spec (pos + i) 0); [lia|].
  destruct (Z.ltb_spec pos 0); [lia|].
  destruct data as [|x data]; [simpl in Hne; lia|].
  set (d := x :: data) in *.
  set (pre := take (Z.to_nat pos)
                (f ++ replicate (Z.to_nat pos - length f) x00)).
  assert (Hpre : length pre = Z.to_nat pos) by apply WriteAt_prefix_length.
  assert (Hdrop : drop (Z.to_nat (pos + i))
                    (pre ++ d ++ drop (Z.to_nat pos + length d) f)
                  = drop (Z.to_nat i) d
                      ++ drop (Z.to_nat pos + length d) f).
  { replace (Z.to_nat (pos + i)) with (length pre + Z.to_nat i)%nat by lia.
    rewrite drop_app_add. rewrite drop_app_le by lia. reflexivity. }
  rewrite Hdrop.
  set (rest := drop (Z.to_nat pos + length d) f).
  assert (Hlen : (length buf <= length (drop (Z.to_nat i) d))%nat)
    by (rewrite length_drop; lia).
  assert (Hmin : Nat.min (length buf) (length (drop (Z.to_nat i) d ++ rest))
                 = length buf)
    by (rewrite length_app; lia).
  unfold copy. rewrite Hmin.
  rewrite drop_all, app_nil_r. rewrite take_app_le by exact Hlen.
  destruct (Nat.ltb_spec (length buf) (length buf)); [lia|reflexivity].
Qed.

End ReadBack.

Section LiveRead.

Variables (fb : flushBuffer) (x : Z) (buf : list byte).
Variables (isfull : bool) (nw fill : Z).

Hypothesis Hstate : is_uint64 (state fb).
Hypothesis Hdec : decodeState (state fb) = (isfull, nw, fill).
Hypothesis Hend : is_int64 (baseOffset fb + fill).
Hypothesis Hwin : baseOffset fb <= x < baseOffset fb + fill.
Hypothesis Hcap : x - baseOffset fb + len buf <= len (b fb).
Hypothesis Hlen : len buf < 2 ^ 62.

Lemma Read_in_range :
  FB.Read fb x buf
  = Ok (take (length buf) (drop (Z.to_nat (x - baseOffset fb)) (b fb)),
        (len buf, None)).
Proof.
  pose proof (len_nonneg buf) as Hl.
  rewrite (Read_inside_window fb x buf isfull nw fill Hstate Hdec Hend Hwin
             Hlen).
  destruct (Z.gtb_spec (x - baseOffset fb + len buf) (len (b fb))); [lia|].
  rewrite subslice_in_bounds by lia.
  replace (Z.to_nat (x - baseOffset fb + len buf - (x - baseOffset fb)))
    with (length buf) by (unfold len; lia).
  rewrite copy_same_length; [reflexivity|].
  rewrite length_take, length_drop. unfold len in *. lia.
Qed.

Variables (s : lsStore) (p : nat).

Hypothesis Hp : flushBufs s !! p = Some fb.
Hypothesis Hhead : head s = Some p.
Hypothesis Hid : 0 <= currBuf s.
Hypothesis Hcur : Z.of_nat p = currBuf s mod len (flushBufs s).
Hypothesis Htail : tailOffset s <= x.
Hypothesis Hx : 0 <= x.

(** A read at or above the tail, inside the only live buffer. *)
Lemma Read_live (k : nat) :
  Store.Read (S (S k)) x buf s
  = Ok (take (length buf) (drop (Z.to_nat (x - baseOffset fb)) (b fb)),
        (len buf, None)).
Proof.
  destruct (decodeState_range _ _ _ _ Hstate Hdec) as [_ Hfill].
  assert (Hx64 : int64 x = x).
  { apply int64_id. unfold is_int64, min_int64, max_int64 in *. lia. }
  cbn [Store.Read]. rewrite Hx64.
  destruct (Z.geb_spec x (tailOffset s)); [|lia].
  rewrite (ring_nonempty s p fb Hp).
  rewrite (index_fb_cursor s (currBuf s) p fb Hid Hp Hcur).
  cbn [mbind result_bind]. rewrite Hhead. cbn [deref mbind result_bind].
  rewrite (get_fb_Some _ _ _ Hp). cbn [mbind result_bind].
  rewrite (EndOffset_sum fb isfull nw fill Hdec Hend). unfold FB.StartOffset.
  destruct (Z.ltb_spec (baseOffset fb) (baseOffset fb + fill)); [|lia].
  destruct (Z.geb_spec x (baseOffset fb)); [|lia].
  destruct (Z.ltb_spec x (baseOffset fb + fill)); [|lia].
  cbn [andb Store.readChain].
  rewrite (get_fb_Some _ _ _ Hp). cbn [mbind result_bind].
  rewrite Read_in_range. reflexivity.
Qed.

End LiveRead.

Section FlushedRead.

Variables (s : lsStore) (p : nat) (fb : flushBuffer).
Variables (isfull : bool) (nw off : Z).

Hypothesis Hp : flushBufs s !! p = Some fb.
Hypothesis Hdec : decodeState (state fb) = (isfull, nw, off).
Hypothesis Hoff : 0 <= off <= len (b fb).
Hypothesis Hmax : 0 < maxSize s.
Hypothesis Hbase : 0 <= baseOffset fb.
Hypothesis Hend : is_int64 (baseOffset fb + off).

(** The store the flush callback leaves. *)
Lemma flush_result :
  LSS.flush p s
  = Ok (put_fb
          (set_tailOffset
             (set_head
                (set_file s
                   (WriteAt (file s) (take (Z.to_nat off) (b fb))
                      (baseOffset fb mod maxSize s)))
                (child fb))
             (baseOffset fb + off)) p (FB.Reset fb)).
Proof.
  unfold LSS.flush. rewrite (get_fb_Some _ _ _ Hp).
  cbn [mbind result_bind].
  destruct (Z.eqb_spec (maxSize s) 0); [lia|].
  rewrite (Bytes_in_bounds fb isfull nw off Hdec Hoff).
  cbn [deref mbind result_bind].
  rewrite (EndOffset_sum fb isfull nw off Hdec Hend).
  unfold FB.StartOffset. rewrite Z.rem_mod_nonneg by lia. reflexivity.
Qed.

Variables (i : Z) (buf : list byte).

Hypothesis Hwrap : baseOffset fb mod maxSize s + off <= maxSize s.
Hypothesis Hi : 0 <= i.
Hypothesis Hlt : i < off.
Hypothesis Hfit : i + len buf <= off.

(** A read inside the range a flush wrote, on any store that has the
    file, the tail and the file size the flush left. *)
Lemma Read_flushed_range (k : nat) (t : lsStore) :
  file t = WriteAt (file s) (take (Z.to_nat off) (b fb))
             (baseOffset fb mod maxSize s) ->
  tailOffset t = baseOffset fb + off ->
  maxSize t = maxSize s ->
  Store.Read (S k) (baseOffset fb + i) buf t
  = Ok (take (length buf) (drop (Z.to_nat i) (b fb)), (len buf, None)).
Proof.
  intros Hfile Htail Hsize.
  set (bytes := take (Z.to_nat off) (b fb)) in *.
  set (fpos := baseOffset fb mod maxSize s) in *.
  assert (Hfpos : 0 <= fpos < maxSize s) by (apply Z.mod_pos_bound; lia).
  assert (Hbytes : len bytes = off).
  { unfold bytes, len in *. rewrite length_take. lia. }
  unfold is_int64, min_int64, max_int64 in Hend.
  cbn [Store.Read]. rewrite Htail, Hsize, Hfile.
  rewrite int64_id by (unfold is_int64, min_int64, max_int64; lia).
  destruct (Z.geb_spec (baseOffset fb + i) (baseOffset fb + off)); [lia|].
  destruct (Z.eqb_spec (maxSize s) 0); [lia|].
  rewrite Z.rem_mod_nonneg by lia.
  assert (Hpos : (baseOffset fb + i) mod maxSize s = fpos + i).
  { rewrite Z.add_mod by lia. fold fpos.
    rewrite (Z.mod_small i) by lia. apply Z.mod_small.
    clearbody fpos. lia. }
  rewrite Hpos.
  rewrite ReadAt_after_WriteAt by lia.
  f_equal. f_equal. unfold bytes.
  rewrite !take_drop_commute, take_take. f_equal. f_equal.
  unfold len in *. lia.
Qed.

End FlushedRead.

(** What a flush wrote can be read back: after the flush callback ran on a
    buffer whose bytes did not straddle the end of the file, [Read] of any
    range [base + i, base + i + len buf) inside the flushed range is
    served from the file and returns exactly those bytes of the arena,
    with no error. *)
Theorem X9_flushed_range_reads_back (k : nat) (s : lsStore) (p : nat)
    (fb : flushBuffer) (isfull : bool) (nw off i : Z) (buf : list byte) :
  flushBufs s !! p = Some fb ->
  decodeState (state fb) = (isfull, nw, off) ->
  0 <= off <= len (b fb) ->
  0 < maxSize s ->
  0 <= baseOffset fb ->
  is_int64 (baseOffset fb + off) ->
  baseOffset fb mod maxSize s + off <= maxSize s ->
  0 <= i -> i < off -> i + len buf <= off ->
  exists s',
    LSS.flush p s = Ok s'
    /\ tailOffset s' = baseOffset fb + off
    /\ Store.Read (S k) (baseOffset fb + i) buf s'
       = Ok (take (length buf) (drop (Z.to_nat i) (b fb)), (len buf, None)).
Proof.
  intros Hp Hdec Hoff Hmax Hbase Hend Hwrap Hi Hlt Hfit.
  eexists. split.
  { apply (flush_result s p fb isfull nw off Hp Hdec Hoff Hmax Hbase Hend). }
  split; [reflexivity|].
  apply (Read_flushed_range s fb off Hoff Hmax Hbase Hend i buf Hwrap Hi Hlt
           Hfit k); reflexivity.
Qed.

Lemma X9_flushed_range_reads_back_witness :
  exists s',
    LSS.flush 0 Examples.readyStore = Ok s'
    /\ tailOffset s' = 1110
    /\ Store.Read 1 1102 (replicate 5 x00) s'
       = Ok (replicate 5 x01, (5, None)).
Proof.
  assert (Hoff : 0 <= 10 <= len (b Examples.ready64))
    by (vm_compute; split; discriminate).
  assert (Hmax : 0 < maxSize Examples.readyStore) by reflexivity.
  assert (Hbase : 0 <= baseOffset Examples.ready64)
    by (vm_compute; discriminate).
  assert (Hend : is_int64 (baseOffset Examples.ready64 + 10))
    by (vm_compute; split; discriminate).
  assert (Hwrap : baseOffset Examples.ready64 mod maxSize Examples.readyStore
                  + 10 <= maxSize Examples.readyStore)
    by (vm_compute; discriminate).
  assert (Hi : 0 <= 2) by lia.
  assert (Hlt : 2 < 10) by lia.
  assert (Hfit : 2 + len (replicate 5 x00) <= 10)
    by (vm_compute; discriminate).
  destruct (X9_flushed_range_reads_back 0 Examples.readyStore 0
              Examples.ready64 true 0 10 2 (replicate 5 x00) eq_refl eq_refl
              Hoff Hmax Hbase Hend Hwrap Hi Hlt Hfit)
    as (s' & Hflush & Htail & Hread).
  exists s'. split; [exact Hflush|]. split; [exact Htail|exact Hread].
Defined.

(** A range that lies in the current buffer, when that buffer is also the
    head of the live chain and the range is at or above the tail, is
    served from memory: [Read] returns the bytes of the arena at
    [x - base], whether or not their writer has finalized. *)
Theorem X10_unflushed_range_read_from_current_buffer (k : nat) (s : lsStore)
    (p : nat) (fb : flushBuffer) (isfull : bool) (nw fill x : Z)
    (buf : list byte) :
  flushBufs s !! p = Some fb ->
  head s = Some p ->
  0 <= currBuf s ->
  Z.of_nat p = currBuf s mod len (flushBufs s) ->
  is_uint64 (state fb) ->
  decodeState (state fb) = (isfull, nw, fill) ->
  is_int64 (baseOffset fb + fill) ->
  tailOffset s <= x -> 0 <= x ->
  baseOffset fb <= x < baseOffset fb + fill ->
  x - baseOffset fb + len buf <= len (b fb) ->
  len buf < 2 ^ 62 ->
  Store.Read (S (S k)) x buf s
  = Ok (take (length buf) (drop (Z.to_nat (x - baseOffset fb)) (b fb)),
        (len buf, None)).
Proof.
  intros Hp Hhead Hid Hcur Hst Hdec Hend Htail Hx Hwin Hcap Hlen.
  exact (Read_live fb x buf isfull nw fill Hst Hdec Hend Hwin Hcap Hlen s p
           Hp Hhead Hid Hcur Htail Hx k).
Qed.

Lemma X10_unflushed_range_read_from_current_buffer_witness :
  Store.Read 2 3 (replicate 4 x00)
    (mkLsStore [] 1024 0 0 (Some 0%nat) 64
       [set_baseOffset Examples.held64 0; Examples.fresh64] 0)
  = Ok (replicate 4 x01, (4, None)).
Proof.
  set (fb := set_baseOffset Examples.held64 0).
  set (s := mkLsStore [] 1024 0 0 (Some 0%nat) 64 [fb; Examples.fresh64] 0).
  assert (Hid : 0 <= currBuf s) by (vm_compute; discriminate).
  assert (Hu : is_uint64 (state fb))
    by (vm_compute; split; [discriminate|reflexivity]).
  assert (Hend : is_int64 (baseOffset fb + 10))
    by (vm_compute; split; discriminate).
  assert (Htail : tailOffset s <= 3) by (vm_compute; discriminate).
  assert (Hx : 0 <= 3) by lia.
  assert (Hwin : baseOffset fb <= 3 < baseOffset fb + 10)
    by (vm_compute; split; [discriminate|reflexivity]).
  assert (Hcap : 3 - baseOffset fb + len (replicate 4 x00) <= len (b fb))
    by (vm_compute; discriminate).
  assert (Hlen : len (replicate 4 x00) < 2 ^ 62) by (vm_compute; reflexivity).
  rewrite (X10_unflushed_range_read_from_current_buffer 0 s 0 fb false 1 10 3
             (replicate 4 x00) eq_refl eq_refl Hid eq_refl Hu eq_refl Hend
             Htail Hx Hwin Hcap Hlen).
  vm_compute. reflexivity.
Defined.

Section OwnWrite.

Variables (s : lsStore) (p : nat) (fb : flushBuffer) (nw off : Z).
Variables (data buf : list byte).

Hypothesis Hid : 0 <= currBuf s.
Hypothesis Hp : flushBufs s !! p = Some fb.
Hypothesis Hcur : Z.of_nat p = currBuf s mod len (flushBufs s).
Hypothesis Hhead : head s = Some p.
Hypothesis Hst : is_uint64 (state fb).
Hypothesis Hdec : decodeState (state fb) = (false, nw, off).
Hypothesis Hdata : 0 < len data.
Hypothesis Hfit : off + len data <= len (b fb).
Hypothesis Hcap : len (b fb) < 2 ^ 31.
Hypothesis Hbase : 0 <= baseOffset fb.
Hypothesis Hend : baseOffset fb + len (b fb) <= max_int64.
Hypothesis Htail : tailOffset s <= baseOffset fb + off.
Hypothesis Hbuf : length buf = length data.

Let size : Z := len data.
Let fb1 : flushBuffer :=
  set_state fb (encodeState false (nw + 1) (off + size)).
Let arena : list byte :=
  take (Z.to_nat off) (b fb) ++ data ++ drop (Z.to_nat (off + size)) (b fb).
Let fb2 : flushBuffer := set_b fb1 arena.

Lemma own_write_fill :
  Store.fill p (View off (off + size)) data (put_fb s p fb1)
  = Ok (put_fb s p fb2).
Proof.
  destruct (decodeState_range _ _ _ _ Hst Hdec) as [_ Hoff].
  unfold Store.fill.
  rewrite (get_fb_Some _ _ fb1) by (eapply lookup_put_fb_same; exact Hp).
  cbn [mbind result_bind lo hi]. change (b fb1) with (b fb).
  rewrite subslice_in_bounds by (unfold size; lia).
  cbn [deref mbind result_bind].
  rewrite copy_same_length.
  - rewrite put_fb_put_fb. reflexivity.
  - rewrite length_take, length_drop. unfold size, len in *. lia.
Qed.

Lemma own_write_arena_length : len arena = len (b fb).
Proof.
  destruct (decodeState_range _ _ _ _ Hst Hdec) as [_ Hoff].
  unfold arena, len in *. rewrite !length_app, length_take, length_drop.
  unfold size, len in *. lia.
Qed.

Lemma own_write_arena_window :
  take (length buf) (drop (Z.to_nat off) arena) = data.
Proof.
  destruct (decodeState_range _ _ _ _ Hst Hdec) as [_ Hoff].
  unfold arena.
  rewrite drop_app_length'
    by (rewrite length_take; unfold size, len in *; lia).
  rewrite Hbuf. apply take_app_length.
Qed.

(** The read of the reserved range, whatever writer count [n] the state
    word of the buffer holds next to the fill offset [off + size]. *)
Lemma own_write_read (n : Z) (k : nat) :
  0 <= n < 2 ^ 32 ->
  Store.Read (S (S k)) (baseOffset fb + off) buf
    (put_fb s p (set_state fb2 (encodeState false n (off + size))))
  = Ok (data, (size, None)).
Proof.
  intros Hn.
  destruct (decodeState_range _ _ _ _ Hst Hdec) as [Hnw Hoff].
  unfold max_int64 in Hend. pose proof (len_nonneg (b fb)) as Hl.
  set (fb3 := set_state fb2 (encodeState false n (off + size))).
  assert (Hdec3 : decodeState (state fb3)
                  = (false, n mod 65536, off + size)).
  { cbn [fb3 set_state state].
    rewrite decode_encode_mod by lia.
    rewrite (Z.mod_small (off + size)) by (unfold size; lia). reflexivity. }
  assert (Hlenbuf : len buf = size) by (unfold size, len; now rewrite Hbuf).
  assert (H1 : is_uint64 (state fb3)) by apply encodeState_range.
  assert (H3 : is_int64 (baseOffset fb3 + (off + size))).
  { change (baseOffset fb3) with (baseOffset fb).
    unfold is_int64, min_int64, max_int64, size. lia. }
  assert (H4 : baseOffset fb3 <= baseOffset fb + off
               < baseOffset fb3 + (off + size)).
  { change (baseOffset fb3) with (baseOffset fb). unfold size. lia. }
  assert (H5 : baseOffset fb + off - baseOffset fb3 + len buf
               <= len (b fb3)).
  { change (baseOffset fb3) with (baseOffset fb). change (b fb3) with arena.
    rewrite own_write_arena_length, Hlenbuf. unfold size. lia. }
  assert (H6 : len buf < 2 ^ 62) by (rewrite Hlenbuf; unfold size; lia).
  assert (H7 : flushBufs (put_fb s p fb3) !! p = Some fb3)
    by (eapply lookup_put_fb_same; exact Hp).
  assert (H10 : Z.of_nat p
                = currBuf (put_fb s p fb3)
                    mod len (flushBufs (put_fb s p fb3))).
  { unfold put_fb. cbn [flushBufs set_flushBufs currBuf].
    unfold len. rewrite length_insert. exact Hcur. }
  assert (H12 : 0 <= baseOffset fb + off) by lia.
  rewrite (Read_live fb3 (baseOffset fb + off) buf false
             (n mod 65536) (off + size) H1 Hdec3 H3 H4 H5 H6
             (put_fb s p fb3) p H7 Hhead Hid H10 Htail H12 k).
  change (baseOffset fb3) with (baseOffset fb). change (b fb3) with arena.
  replace (baseOffset fb + off - baseOffset fb) with off by lia.
  rewrite own_write_arena_window, Hlenbuf. reflexivity.
Qed.

(** [FinalizeWrite] on the handle of the reservation, after the bytes were
    copied: the buffer is not sealed and has no child, so the call only
    gives the writer count back. *)
Lemma own_write_finalize (k : nat) :
  nw < 65535 -> child fb = None ->
  Store.FinalizeWrite (S k) p (put_fb s p fb2)
  = Ok (put_fb s p (set_state fb2 (encodeState false nw (off + size)))).
Proof.
  intros Hnw Hch.
  destruct (decodeState_range _ _ _ _ Hst Hdec) as [Hnw' Hoff].
  pose proof (len_nonneg (b fb)) as Hl.
  assert (Hfb2 : flushBufs (put_fb s p fb2) !! p = Some fb2)
    by (eapply lookup_put_fb_same; exact Hp).
  assert (Hdec2 : decodeState (state fb2) = (false, nw + 1, off + size)).
  { cbn [fb2 set_b fb1 set_state state].
    apply decode_encode; unfold size; lia. }
  unfold Store.FinalizeWrite, Store.Done.
  rewrite (Done_unfold LSS.flush k p _ fb2 false (nw + 1) (off + size) Hfb2
             Hdec2).
  rewrite put_fb_put_fb.
  replace (nw + 1 - 1) with nw by lia.
  rewrite (int64_id nw) by (unfold is_int64, min_int64, max_int64; lia).
  unfold after_decrement. rewrite andb_false_r. cbn [mbind result_bind].
  rewrite (get_fb_Some _ _
             (set_state fb2 (encodeState false nw (off + size))))
    by (eapply lookup_put_fb_same; exact Hp).
  cbn [mbind result_bind set_state set_b child fb2 fb1]. rewrite Hch.
  reflexivity.
Qed.

End OwnWrite.

(** A writer can read its own bytes before any flush: when the current
    buffer is also the head of the live chain and the request fits, the
    bytes copied into the slice [ReserveSpace] returned are what [Read]
    returns at the offset it returned, before [FinalizeWrite] is called on
    the handle and (for a buffer without child whose writer count does not
    overflow its 16 bits) after it was called; that [FinalizeWrite] writes
    nothing to the file and leaves the tail where it was. *)
Theorem X11_reserved_bytes_are_readable (k k' : nat) (s : lsStore) (p : nat)
    (fb : flushBuffer) (nw off : Z) (data buf : list byte) :
  0 <= currBuf s ->
  flushBufs s !! p = Some fb ->
  Z.of_nat p = currBuf s mod len (flushBufs s) ->
  head s = Some p ->
  is_uint64 (state fb) ->
  decodeState (state fb) = (false, nw, off) ->
  0 < len data ->
  off + len data <= len (b fb) ->
  len (b fb) < 2 ^ 31 ->
  0 <= baseOffset fb ->
  baseOffset fb + len (b fb) <= max_int64 ->
  tailOffset s <= baseOffset fb + off ->
  length buf = length data ->
  exists v s1 s2,
    Store.ReserveSpace (S k) (len data) s
    = Ok ((baseOffset fb + off, Some v, p), s1)
    /\ view_len v = len data
    /\ Store.fill p v data s1 = Ok s2
    /\ Store.Read (S (S k)) (baseOffset fb + off) buf s2
       = Ok (data, (len data, None))
    /\ (nw < 65535 -> child fb = None ->
        exists s3,
          Store.FinalizeWrite (S k') p s2 = Ok s3
          /\ file s3 = file s /\ tailOffset s3 = tailOffset s
          /\ Store.Read (S (S k)) (baseOffset fb + off) buf s3
             = Ok (data, (len data, None))).
Proof.
  intros Hid Hp Hcur Hhead Hst Hdec Hdata Hfit Hcap Hbase Hend Htail Hbuf.
  destruct (decodeState_range _ _ _ _ Hst Hdec) as [Hnw0 Hoff].
  pose proof (len_nonneg (b fb)) as Hl.
  exists (View off (off + len data)). eexists. eexists.
  split.
  { apply (ReserveSpace_fits k (len data) s p fb nw off); try assumption;
      lia. }
  split; [unfold view_len; cbn [lo hi]; lia|].
  split.
  { eapply own_write_fill; eassumption. }
  split.
  { apply (own_write_read s p fb nw off data buf Hid Hp Hcur Hhead Hst Hdec
             Hdata Hfit Hcap Hbase Hend Htail Hbuf (nw + 1) k). lia. }
  intros Hnw Hch. eexists. split.
  { eapply own_write_finalize; eassumption. }
  split; [reflexivity|]. split; [reflexivity|].
  apply (own_write_read s p fb nw off data buf Hid Hp Hcur Hhead Hst Hdec
           Hdata Hfit Hcap Hbase Hend Htail Hbuf nw k). lia.
Qed.

Lemma X11_reserved_bytes_are_readable_witness :
  exists v s1 s2 s3,
    Store.ReserveSpace 1 3 Examples.freshStore = Ok ((0, Some v, 0%nat), s1)
    /\ Store.fill 0 v [x01; x02; x03] s1 = Ok s2
    /\ Store.Read 2 0 [x00; x00; x00] s2
       = Ok ([x01; x02; x03], (3, None))
    /\ Store.FinalizeWrite 1 0 s2 = Ok s3
    /\ Store.Read 2 0 [x00; x00; x00] s3
       = Ok ([x01; x02; x03], (3, None)).
Proof.
  assert (Hid : 0 <= currBuf Examples.freshStore) by (vm_compute; discriminate).
  assert (Hu : is_uint64 (state Examples.fresh64))
    by (vm_compute; split; [discriminate|reflexivity]).
  assert (Hdata : 0 < len [x01; x02; x03]) by (vm_compute; reflexivity).
  assert (Hfit : 0 + len [x01; x02; x03] <= len (b Examples.fresh64))
    by (vm_compute; discriminate).
  assert (Hcap : len (b Examples.fresh64) < 2 ^ 31)
    by (vm_compute; reflexivity).
  assert (Hbase : 0 <= baseOffset Examples.fresh64)
    by (vm_compute; discriminate).
  assert (Hend : baseOffset Examples.fresh64 + len (b Examples.fresh64)
                 <= max_int64) by (vm_compute; discriminate).
  assert (Htail : tailOffset Examples.freshStore
                  <= baseOffset Examples.fresh64 + 0)
    by (vm_compute; discriminate).
  assert (Hnw : 1 < 65535) by lia.
  destruct (X11_reserved_bytes_are_readable 0 0 Examples.freshStore 0
              Examples.fresh64 1 0 [x01; x02; x03] [x00; x00; x00] Hid
              eq_refl eq_refl eq_refl Hu eq_refl Hdata Hfit Hcap Hbase Hend
              Htail eq_refl)
    as (v & s1 & s2 & Hres & _ & Hfill & Hread & Hfin).
  destruct (Hfin Hnw eq_refl) as (s3 & Hdone & _ & _ & Hread3).
  exists v, s1, s2, s3. split; [exact Hres|]. split; [exact Hfill|].
  split; [exact Hread|]. split; [exact Hdone|exact Hread3].
Defined.

(** ** A new store *)

Lemma newLSStore_shape (existing : list byte) (maxSize bufSize nbufs : Z) :
  0 < nbufs -> 0 <= bufSize ->
  LSS.newLSStore existing maxSize bufSize nbufs
  = Ok (mkLsStore existing maxSize 0 0 (Some 0%nat) bufSize
          (replicate (Z.to_nat nbufs)
             (FB.Reset
                (mkFlushBuffer 0 (replicate (Z.to_nat bufSize) x00) None 0)))
          0).
Proof.
  intros Hn Hb. unfold LSS.newLSStore, FB.newFlushBuffer.
  destruct (Z.ltb_spec nbufs 0); [lia|].
  destruct (Z.eqb_spec nbufs 0); [lia|].
  destruct (Z.ltb_spec bufSize 0); [lia|]. reflexivity.
Qed.

(** A store made by [newLSStore] with at least one buffer has [nbufs]
    buffers of [bufSize] zero bytes, each in the reset state (not full,
    count 1, fill 0, base 0, no child), an untouched file, tail 0 and the
    cursor and head on buffer 0; its first reservation, of any size up to
    [bufSize], is served at logical offset 0 from the start of buffer 0. *)
Theorem X13_new_store_first_reservation (k : nat) (existing : list byte)
    (maxSize bufSize nbufs size : Z) :
  0 < nbufs ->
  0 <= bufSize < 2 ^ 31 ->
  0 <= size <= bufSize ->
  exists s s',
    LSS.newLSStore existing maxSize bufSize nbufs = Ok s
    /\ len (flushBufs s) = nbufs
    /\ file s = existing /\ tailOffset s = 0 /\ currBuf s = 0
    /\ head s = Some 0%nat
    /\ (forall p fb, flushBufs s !! p = Some fb ->
          fb = FB.Reset fb
          /\ b fb = replicate (Z.to_nat bufSize) x00
          /\ decodeState (state fb) = (false, 1, 0))
    /\ Store.ReserveSpace (S k) size s
       = Ok ((0, Some (View 0 size), 0%nat), s')
    /\ Exec.decoded 0 (Ok s') = Ok (false, 2, size).
Proof.
  intros Hn Hb Hsize.
  set (fb := FB.Reset
               (mkFlushBuffer 0 (replicate (Z.to_nat bufSize) x00) None 0)).
  set (s := mkLsStore existing maxSize 0 0 (Some 0%nat) bufSize
              (replicate (Z.to_nat nbufs) fb) 0).
  assert (Hlen : len (flushBufs s) = nbufs).
  { unfold len. cbn [s flushBufs]. rewrite length_replicate. lia. }
  assert (Hp : flushBufs s !! 0%nat = Some fb).
  { cbn [s flushBufs]. apply lookup_replicate_2. lia. }
  assert (Hdec : decodeState (state fb) = (false, 1, 0))
    by (vm_compute; reflexivity).
  assert (Hst : is_uint64 (state fb)) by apply encodeState_range.
  assert (Hcap : len (b fb) = bufSize).
  { unfold len. cbn [fb FB.Reset b]. rewrite length_replicate. lia. }
  exists s, (put_fb s 0 (set_state fb (encodeState false (1 + 1) (0 + size)))).
  split; [now apply newLSStore_shape|].
  split; [exact Hlen|].
  split; [reflexivity|]. split; [reflexivity|]. split; [reflexivity|].
  split; [reflexivity|].
  split.
  { intros p fb' Hfb'. cbn [s flushBufs] in Hfb'.
    apply lookup_replicate in Hfb' as [-> _].
    split; [reflexivity|]. split; [reflexivity|exact Hdec]. }
  split.
  { rewrite (ReserveSpace_fits k size s 0 fb 1 0); try assumption;
      try (rewrite ?Hcap; cbn [s currBuf fb FB.Reset baseOffset];
           unfold max_int64; lia).
    - reflexivity.
    - cbn [s currBuf]. rewrite Z.mod_0_l by lia. reflexivity. }
  unfold Exec.decoded. cbn [mbind result_bind].
  rewrite (get_fb_Some _ _ (set_state fb (encodeState false (1 + 1)
                                            (0 + size))))
    by (eapply lookup_put_fb_same; exact Hp).
  cbn [mbind result_bind set_state state].
  rewrite decode_encode by lia. reflexivity.
Qed.

Lemma X13_new_store_first_reservation_witness :
  exists s s',
    LSS.newLSStore [] 1024 64 2 = Ok s
    /\ Store.ReserveSpace 1 64 s = Ok ((0, Some (View 0 64), 0%nat), s')
    /\ Exec.decoded 0 (Ok s') = Ok (false, 2, 64).
Proof.
  assert (Hn : 0 < 2) by lia.
  assert (Hb : 0 <= 64 < 2 ^ 31) by lia.
  assert (Hsize : 0 <= 64 <= 64) by lia.
  destruct (X13_new_store_first_reservation 0 [] 1024 64 2 64 Hn Hb Hsize)
    as (s & s' & Hnew & _ & _ & _ & _ & _ & _ & Hres & Hdec).
  exists s, s'. split; [exact Hnew|]. split; [exact Hres|exact Hdec].
Defined.

(** ** Reserve, then finalize *)

(** A reservation served by the current buffer followed by its
    [FinalizeWrite] leaves the writer count of the buffer where it was and
    the fill offset advanced by the size reserved; as long as the buffer is
    not sealed nothing is flushed: the file, the tail, the head and the
    cursor are untouched. *)
Theorem X14_reserve_then_finalize_is_balanced (k k' : nat) (size : Z)
    (s : lsStore) (p : nat) (fb : flushBuffer) (nw off : Z) :
  0 <= currBuf s ->
  flushBufs s !! p = Some fb ->
  Z.of_nat p = currBuf s mod len (flushBufs s) ->
  child fb = None ->
  is_uint64 (state fb) ->
  decodeState (state fb) = (false, nw, off) ->
  nw < 65535 ->
  0 <= size -> off + size <= len (b fb) -> len (b fb) < 2 ^ 31 ->
  0 <= baseOffset fb -> baseOffset fb + off <= max_int64 ->
  exists v s1,
    Store.ReserveSpace (S k) size s
    = Ok ((baseOffset fb + off, Some v, p), s1)
    /\ Store.FinalizeWrite (S k') p s1
       = Ok (put_fb s p (set_state fb (encodeState false nw (off + size))))
    /\ decodeState (encodeState false nw (off + size))
       = (false, nw, off + size).
Proof.
  intros Hid Hp Hcur Hch Hst Hdec Hnw Hsize Hfit Hcap Hbase Hend.
  destruct (decodeState_range _ _ _ _ Hst Hdec) as [Hnw' Hoff].
  set (fb1 := set_state fb (encodeState false (nw + 1) (off + size))).
  assert (Hfb1 : flushBufs (put_fb s p fb1) !! p = Some fb1)
    by (eapply lookup_put_fb_same; exact Hp).
  assert (Hdec1 : decodeState (state fb1) = (false, nw + 1, off + size))
    by (cbn [fb1 set_state state]; apply decode_encode; lia).
  exists (View off (off + size)), (put_fb s p fb1).
  split; [now apply ReserveSpace_fits|].
  split; [|apply decode_encode; lia].
  unfold Store.FinalizeWrite, Store.Done.
  rewrite (Done_unfold LSS.flush k' p _ fb1 false (nw + 1) (off + size) Hfb1
             Hdec1).
  rewrite put_fb_put_fb.
  replace (nw + 1 - 1) with nw by lia.
  rewrite (int64_id nw) by (unfold is_int64, min_int64, max_int64; lia).
  unfold after_decrement. rewrite andb_false_r. cbn [mbind result_bind].
  rewrite (get_fb_Some _ _ (set_state fb1 (encodeState false nw (off + size))))
    by (eapply lookup_put_fb_same; exact Hp).
  cbn [mbind result_bind set_state child fb1]. rewrite Hch. reflexivity.
Qed.

Lemma X14_reserve_then_finalize_is_balanced_witness :
  exists v s1,
    Store.ReserveSpace 1 24 Examples.freshStore = Ok ((0, Some v, 0%nat), s1)
    /\ Exec.decoded 0 (Store.FinalizeWrite 1 0 s1) = Ok (false, 1, 24).
Proof.
  assert (Hid : 0 <= currBuf Examples.freshStore) by (vm_compute; discriminate).
  assert (Hu : is_uint64 (state Examples.fresh64))
    by (vm_compute; split; [discriminate|reflexivity]).
  assert (Hnw : 1 < 65535) by lia.
  assert (Hsize : 0 <= 24) by lia.
  assert (Hfit : 0 + 24 <= len (b Examples.fresh64))
    by (vm_compute; discriminate).
  assert (Hcap : len (b Examples.fresh64) < 2 ^ 31)
    by (vm_compute; reflexivity).
  assert (Hbase : 0 <= baseOffset Examples.fresh64)
    by (vm_compute; discriminate).
  assert (Hend : baseOffset Examples.fresh64 + 0 <= max_int64)
    by (vm_compute; discriminate).
  destruct (X14_reserve_then_finalize_is_balanced 0 0 24 Examples.freshStore
              0 Examples.fresh64 1 0 Hid eq_refl eq_refl eq_refl Hu eq_refl
              Hnw Hsize Hfit Hcap Hbase Hend)
    as (v & s1 & Hres & Hfin & _).
  exists v, s1. split; [exact Hres|]. rewrite Hfin. vm_compute. reflexivity.
Defined.

(** ** Reading what was never written *)

(** An offset at or above the tail that lies at or beyond the end offset
    of the current buffer is in no buffer and not in the file: [Read] does
    not report an error for it, it retries, and without another thread to
    extend the log it never returns. *)
Theorem X15_Read_beyond_the_log_never_returns (fuel : nat) (x : Z)
    (buf : list byte) (s : lsStore) (p h : nat) (last first : flushBuffer) :
  0 <= x <= max_int64 ->
  tailOffset s <= x ->
  0 <= currBuf s ->
  flushBufs s !! p = Some last ->
  Z.of_nat p = currBuf s mod len (flushBufs s) ->
  head s = Some h ->
  flushBufs s !! h = Some first ->
  FB.EndOffset last <= x ->
  Store.Read fuel x buf s = Spin.
Proof.
  intros Hx Htail Hid Hp Hcur Hhead Hh Hbeyond.
  assert (Hx64 : int64 x = x).
  { apply int64_id. unfold is_int64, min_int64, max_int64 in *. lia. }
  apply (Read_outside_live_window x buf s p h last first).
  - rewrite Hx64. destruct (Z.geb_spec x (tailOffset s)); [reflexivity|lia].
  - exact (ring_nonempty s p last Hp).
  - exact (index_fb_cursor s (currBuf s) p last Hid Hp Hcur).
  - exact Hhead.
  - exact (get_fb_Some _ _ _ Hh).
  - rewrite Hx64.
    destruct (Z.ltb_spec x (FB.EndOffset last)); [lia|].
    apply andb_false_r.
Qed.

Lemma X15_Read_beyond_the_log_never_returns_witness :
  Store.Read 7 64 [x00] Examples.freshStore = Spin.
Proof.
  assert (Hx : 0 <= 64 <= max_int64) by (vm_compute; split; discriminate).
  assert (Htail : tailOffset Examples.freshStore <= 64)
    by (vm_compute; discriminate).
  assert (Hid : 0 <= currBuf Examples.freshStore) by (vm_compute; discriminate).
  assert (Hbeyond : FB.EndOffset Examples.fresh64 <= 64)
    by (vm_compute; discriminate).
  apply (X15_Read_beyond_the_log_never_returns 7 64 [x00]
           Examples.freshStore 0 0 Examples.fresh64 Examples.fresh64 Hx Htail
           Hid eq_refl eq_refl eq_refl eq_refl Hbeyond).
Defined.

(** ** The sorter of page items *)

Section SorterFacts.

Context {PageItem item : Type}.
Implicit Types (l : list PageItem) (x y : PageItem) (i j : nat).

Lemma insert_head_Permutation l j x y :
  l !! j = Some y -> y :: <[j := x]> l ≡ₚ x :: l.
Proof.
  revert j. induction l as [|c l IH]; intros [|j] Hj; try discriminate.
  - injection Hj as ->. simpl. apply perm_swap.
  - simpl in Hj. simpl. etransitivity; [apply perm_swap|].
    etransitivity; [apply perm_skip, (IH j Hj)|]. apply perm_swap.
Qed.

Lemma swap_Permutation l i j x y :
  l !! i = Some x -> l !! j = Some y ->
  <[j := x]> (<[i := y]> l) ≡ₚ l.
Proof.
  revert i j. induction l as [|c l IH]; intros [|i] [|j] Hi Hj;
    try discriminate.
  - injection Hi as ->. injection Hj as ->. reflexivity.
  - injection Hi as ->. simpl in Hj. simpl.
    now apply insert_head_Permutation.
  - injection Hj as ->. simpl in Hi. simpl.
    now apply insert_head_Permutation.
  - simpl in Hi, Hj. simpl. apply perm_skip. now apply IH.
Qed.

Lemma at_index_Some (a : list PageItem) (z : Z) x :
  0 <= z -> a !! Z.to_nat z = Some x -> Util.at_index a z = Ok x.
Proof.
  intros Hz Hx. unfold Util.at_index.
  destruct (Z.ltb_spec z 0); [lia|]. now rewrite Hx.
Qed.

End SorterFacts.

(** [Swap(i, j)] on indices within the slice exchanges the two items,
    leaves every other position and the comparison function alone, and so
    keeps the length and the items of the slice (the result is a
    permutation of the slice); on an index outside the slice it panics. *)
Theorem X16_Swap_exchanges_and_permutes {PageItem item : Type}
    (s : Util.pageItemSorter PageItem item) (i j : Z) :
  (0 <= i < Util.Len PageItem item s /\ 0 <= j < Util.Len PageItem item s ->
   exists s',
     Util.Swap PageItem item s i j = Ok s'
     /\ Util.Len PageItem item s' = Util.Len PageItem item s
     /\ Util.cmp PageItem item s' = Util.cmp PageItem item s
     /\ Util.itms PageItem item s' ≡ₚ Util.itms PageItem item s
     /\ Util.itms PageItem item s' !! Z.to_nat i
        = Util.itms PageItem item s !! Z.to_nat j
     /\ Util.itms PageItem item s' !! Z.to_nat j
        = Util.itms PageItem item s !! Z.to_nat i
     /\ forall n : nat, n <> Z.to_nat i -> n <> Z.to_nat j ->
          Util.itms PageItem item s' !! n = Util.itms PageItem item s !! n)
  /\ (~ (0 <= i < Util.Len PageItem item s
         /\ 0 <= j < Util.Len PageItem item s) ->
      Util.Swap PageItem item s i j = Panic).
Proof.
  unfold Util.Len, len. set (l := Util.itms PageItem item s).
  split.
  - intros [Hi Hj].
    destruct (lookup_lt_is_Some_2 l (Z.to_nat i) ltac:(lia)) as [xi Hxi].
    destruct (lookup_lt_is_Some_2 l (Z.to_nat j) ltac:(lia)) as [xj Hxj].
    exists (Util.mkSorter PageItem item
              (<[Z.to_nat j := xi]> (<[Z.to_nat i := xj]> l))
              (Util.cmp PageItem item s)).
    split.
    { unfold Util.Swap. fold l.
      rewrite (at_index_Some l j xj) by (lia || assumption).
      cbn [mbind result_bind].
      rewrite (at_index_Some l i xi) by (lia || assumption). reflexivity. }
    cbn [Util.itms Util.cmp].
    split; [now rewrite !length_insert|]. split; [reflexivity|].
    split; [now apply swap_Permutation|].
    assert (Hli : (Z.to_nat i < length l)%nat) by lia.
    assert (Hlj : (Z.to_nat j < length l)%nat) by lia.
    split.
    { destruct (Nat.eq_dec (Z.to_nat j) (Z.to_nat i)) as [Heq|Hne].
      - rewrite Heq. rewrite list_lookup_insert_eq
          by (rewrite length_insert; exact Hli). congruence.
      - rewrite list_lookup_insert_ne by exact Hne.
        rewrite list_lookup_insert_eq by exact Hli. congruence. }
    split.
    { rewrite list_lookup_insert_eq by (rewrite length_insert; exact Hlj).
      congruence. }
    intros n Hni Hnj. rewrite !list_lookup_insert_ne by congruence.
    reflexivity.
  - intros Hout. unfold Util.Swap, Util.at_index. fold l.
    destruct (Z.ltb_spec j 0); [reflexivity|].
    destruct (l !! Z.to_nat j) as [xj|] eqn:Hxj; cbn [deref mbind result_bind];
      [|reflexivity].
    destruct (Z.ltb_spec i 0); [reflexivity|].
    destruct (l !! Z.to_nat i) as [xi|] eqn:Hxi; cbn [deref mbind result_bind];
      [|reflexivity].
    exfalso. apply Hout.
    apply lookup_lt_Some in Hxi. apply lookup_lt_Some in Hxj. lia.
Qed.

(** Swapping the same two positions twice gives the sorter back. *)
Theorem X17_Swap_twice_is_identity {PageItem item : Type}
    (s : Util.pageItemSorter PageItem item) (i j : Z) :
  0 <= i < Util.Len PageItem item s ->
  0 <= j < Util.Len PageItem item s ->
  (s1 ← Util.Swap PageItem item s i j; Util.Swap PageItem item s1 i j)
  = Ok s.
Proof.
  unfold Util.Len, len. destruct s as [l c]. cbn [Util.itms].
  intros Hi Hj.
  destruct (lookup_lt_is_Some_2 l (Z.to_nat i) ltac:(lia)) as [xi Hxi].
  destruct (lookup_lt_is_Some_2 l (Z.to_nat j) ltac:(lia)) as [xj Hxj].
  assert (Hli : (Z.to_nat i < length l)%nat) by lia.
  assert (Hlj : (Z.to_nat j < length l)%nat) by lia.
  set (l1 := <[Z.to_nat j := xi]> (<[Z.to_nat i := xj]> l)).
  assert (H1j : l1 !! Z.to_nat j = Some xi).
  { unfold l1. apply list_lookup_insert_eq. now rewrite length_insert. }
  assert (H1i : l1 !! Z.to_nat i = Some xj).
  { unfold l1. destruct (Nat.eq_dec (Z.to_nat j) (Z.to_nat i)) as [Heq|Hne].
    - rewrite Heq in *. rewrite list_lookup_insert_eq
        by (rewrite length_insert; exact Hli). congruence.
    - rewrite list_lookup_insert_ne by exact Hne.
      now apply list_lookup_insert_eq. }
  unfold Util.Swap at 2. cbn [Util.itms Util.cmp].
  rewrite (at_index_Some l j xj) by (lia || assumption).
  cbn [mbind result_bind].
  rewrite (at_index_Some l i xi) by (lia || assumption).
  cbn [mbind result_bind]. fold l1.
  unfold Util.Swap. cbn [Util.itms Util.cmp].
  rewrite (at_index_Some l1 j xi) by (lia || assumption).
  cbn [mbind result_bind].
  rewrite (at_index_Some l1 i xj) by (lia || assumption).
  cbn [mbind result_bind]. f_equal. f_equal. unfold l1.
  apply list_eq. intros n.
  destruct (Nat.eq_dec n (Z.to_nat j)) as [->|Hnj].
  - rewrite list_lookup_insert_eq by (rewrite !length_insert; exact Hlj).
    now rewrite Hxj.
  - rewrite list_lookup_insert_ne by congruence.
    destruct (Nat.eq_dec n (Z.to_nat i)) as [->|Hni].
    + rewrite list_lookup_insert_eq by (rewrite !length_insert; exact Hli).
      now rewrite Hxi.
    + rewrite !list_lookup_insert_ne by congruence. reflexivity.
Qed.

Lemma X16_Swap_exchanges_and_permutes_witness :
  Util.Swap Z Z (Util.mkSorter Z Z [10; 20; 30] Z.sub) 0 2
  = Ok (Util.mkSorter Z Z [30; 20; 10] Z.sub)
  /\ Util.Swap Z Z (Util.mkSorter Z Z [10; 20; 30] Z.sub) 0 3 = Panic.
Proof.
  destruct (X16_Swap_exchanges_and_permutes
              (Util.mkSorter Z Z [10; 20; 30] Z.sub) 0 3) as [_ Hout].
  split; [reflexivity|].
  apply Hout. unfold Util.Len. cbn [Util.itms].
  change (len [10; 20; 30]) with 3. lia.
Defined.

Lemma X17_Swap_twice_is_identity_witness :
  (s1 ← Util.Swap Z Z (Util.mkSorter Z Z [10; 20; 30] Z.sub) 0 2;
   Util.Swap Z Z s1 0 2)
  = Ok (Util.mkSorter Z Z [10; 20; 30] Z.sub).
Proof.
  apply X17_Swap_twice_is_identity; unfold Util.Len; cbn [Util.itms];
    change (len [10; 20; 30]) with 3; lia.
Defined.

(** ** Configuration defaults *)

Section ConfigFacts.

Context {compareFn itemSizeFn swapFn fileName : Type}.
Variable rssAbove : Z -> swapFn.
Variable numCPU : Z.

Implicit Types cfg : Cfg.Config compareFn itemSizeFn swapFn fileName.

Lemma applyConfigDefaults_fields cfg :
  Cfg.applyConfigDefaults rssAbove numCPU cfg
  = Cfg.set_shouldSwap
      (Cfg.set_NumEvictorThreads
         (Cfg.set_NumPersistorThreads cfg
            (if Cfg.NumPersistorThreads cfg =? 0 then numCPU
             else Cfg.NumPersistorThreads cfg))
         (if Cfg.NumEvictorThreads cfg =? 0 then numCPU
          else Cfg.NumEvictorThreads cfg))
      (match Cfg.shouldSwap cfg with
       | Some f => Some f
       | None =>
           if Cfg.MaxMemoryUsage cfg >? 0
           then Some (rssAbove (Cfg.MaxMemoryUsage cfg))
           else None
       end).
Proof.
  destruct cfg as [a1 a2 a3 a4 a5 a6 a7 a8 np ne a11 a12 a13 a14 mm sw].
  unfold Cfg.applyConfigDefaults.
  cbn [Cfg.NumPersistorThreads].
  destruct (np =? 0); unfold Cfg.set_NumPersistorThreads;
    cbn [Cfg.NumEvictorThreads];
    (destruct (ne =? 0); unfold Cfg.set_NumEvictorThreads;
     cbn [Cfg.shouldSwap Cfg.MaxMemoryUsage];
     (destruct sw as [f|]; [reflexivity|];
      destruct (mm >? 0); reflexivity)).
Qed.

Lemma set_own_fields cfg :
  Cfg.set_shouldSwap
    (Cfg.set_NumEvictorThreads
       (Cfg.set_NumPersistorThreads cfg (Cfg.NumPersistorThreads cfg))
       (Cfg.NumEvictorThreads cfg))
    (Cfg.shouldSwap cfg)
  = cfg.
Proof. destruct cfg. reflexivity. Qed.

End ConfigFacts.

(** [applyConfigDefaults] only fills what was left unset: a thread count
    that is 0 becomes [runtime.NumCPU()], a missing [shouldSwap] is
    installed when [MaxMemoryUsage] is positive; thread counts and a
    [shouldSwap] that were set, and every other field, are returned
    unchanged (putting the three original values back gives the argument).
    Applying it twice is the same as applying it once. *)
Theorem X18_applyConfigDefaults_fills_only_unset_fields
    {compareFn itemSizeFn swapFn fileName : Type} (rssAbove : Z -> swapFn)
    (numCPU : Z) (cfg : Cfg.Config compareFn itemSizeFn swapFn fileName) :
  let cfg' := Cfg.applyConfigDefaults rssAbove numCPU cfg in
  Cfg.applyConfigDefaults rssAbove numCPU cfg' = cfg'
  /\ Cfg.NumPersistorThreads cfg'
     = (if Cfg.NumPersistorThreads cfg =? 0 then numCPU
        else Cfg.NumPersistorThreads cfg)
  /\ Cfg.NumEvictorThreads cfg'
     = (if Cfg.NumEvictorThreads cfg =? 0 then numCPU
        else Cfg.NumEvictorThreads cfg)
  /\ Cfg.shouldSwap cfg'
     = match Cfg.shouldSwap cfg with
       | Some f => Some f
       | None =>
           if Cfg.MaxMemoryUsage cfg >? 0
           then Some (rssAbove (Cfg.MaxMemoryUsage cfg))
           else None
       end
  /\ Cfg.set_shouldSwap
       (Cfg.set_NumEvictorThreads
          (Cfg.set_NumPersistorThreads cfg' (Cfg.NumPersistorThreads cfg))
          (Cfg.NumEvictorThreads cfg))
       (Cfg.shouldSwap cfg)
     = cfg.
Proof.
  cbv zeta.
  assert (Hnp : Cfg.NumPersistorThreads
                  (Cfg.applyConfigDefaults rssAbove numCPU cfg)
                = (if Cfg.NumPersistorThreads cfg =? 0 then numCPU
                   else Cfg.NumPersistorThreads cfg))
    by (rewrite applyConfigDefaults_fields; reflexivity).
  assert (Hne : Cfg.NumEvictorThreads
                  (Cfg.applyConfigDefaults rssAbove numCPU cfg)
                = (if Cfg.NumEvictorThreads cfg =? 0 then numCPU
                   else Cfg.NumEvictorThreads cfg))
    by (rewrite applyConfigDefaults_fields; reflexivity).
  assert (Hmm : Cfg.MaxMemoryUsage
                  (Cfg.applyConfigDefaults rssAbove numCPU cfg)
                = Cfg.MaxMemoryUsage cfg)
    by (rewrite applyConfigDefaults_fields; reflexivity).
  assert (Hsw : Cfg.shouldSwap (Cfg.applyConfigDefaults rssAbove numCPU cfg)
                = match Cfg.shouldSwap cfg with
                  | Some f => Some f
                  | None =>
                      if Cfg.MaxMemoryUsage cfg >? 0
                      then Some (rssAbove (Cfg.MaxMemoryUsage cfg))
                      else None
                  end)
    by (rewrite applyConfigDefaults_fields; reflexivity).
  split; [|split; [exact Hnp|split; [exact Hne|split; [exact Hsw|]]]].
  - rewrite (applyConfigDefaults_fields rssAbove numCPU
               (Cfg.applyConfigDefaults rssAbove numCPU cfg)).
    rewrite Hmm.
    assert (H1 : (if Cfg.NumPersistorThreads
                       (Cfg.applyConfigDefaults rssAbove numCPU cfg) =? 0
                  then numCPU
                  else Cfg.NumPersistorThreads
                         (Cfg.applyConfigDefaults rssAbove numCPU cfg))
                 = Cfg.NumPersistorThreads
                     (Cfg.applyConfigDefaults rssAbove numCPU cfg)).
    { rewrite Hnp. destruct (Z.eqb_spec (Cfg.NumPersistorThreads cfg) 0).
      - destruct (Z.eqb_spec numCPU 0); congruence.
      - destruct (Z.eqb_spec (Cfg.NumPersistorThreads cfg) 0); congruence. }
    assert (H2 : (if Cfg.NumEvictorThreads
                       (Cfg.applyConfigDefaults rssAbove numCPU cfg) =? 0
                  then numCPU
                  else Cfg.NumEvictorThreads
                         (Cfg.applyConfigDefaults rssAbove numCPU cfg))
                 = Cfg.NumEvictorThreads
                     (Cfg.applyConfigDefaults rssAbove numCPU cfg)).
    { rewrite Hne. destruct (Z.eqb_spec (Cfg.NumEvictorThreads cfg) 0).
      - destruct (Z.eqb_spec numCPU 0); congruence.
      - destruct (Z.eqb_spec (Cfg.NumEvictorThreads cfg) 0); congruence. }
    assert (H3 : match Cfg.shouldSwap
                         (Cfg.applyConfigDefaults rssAbove numCPU cfg) with
                 | Some f => Some f
                 | None =>
                     if Cfg.MaxMemoryUsage cfg >? 0
                     then Some (rssAbove (Cfg.MaxMemoryUsage cfg))
                     else None
                 end
                 = Cfg.shouldSwap
                     (Cfg.applyConfigDefaults rssAbove numCPU cfg)).
    { rewrite Hsw. destruct (Cfg.shouldSwap cfg); [reflexivity|].
      destruct (Cfg.MaxMemoryUsage cfg >? 0); reflexivity. }
    rewrite H1, H2, H3. apply set_own_fields.
  - rewrite applyConfigDefaults_fields. destruct cfg. reflexivity.
Qed.

(** ** The last writer of a sealed buffer *)

(** When the last writer of a sealed buffer (full, count 1) finalizes, the
    buffer is flushed within that call: its bytes are written to the file,
    [tailOffset] becomes its end offset, [head] becomes its child and the
    buffer is reset; no other buffer changes (the cascade to the child does
    not run, the reset having cleared the child pointer).  From then on
    [Read] of any range inside what the buffer held is served from the file
    and returns those bytes. *)
Theorem X19_last_FinalizeWrite_makes_bytes_durable (k k' : nat) (s : lsStore)
    (p : nat) (fb : flushBuffer) (off i : Z) (buf : list byte) :
  flushBufs s !! p = Some fb ->
  is_uint64 (state fb) ->
  decodeState (state fb) = (true, 1, off) ->
  off <= len (b fb) ->
  0 < maxSize s ->
  0 <= baseOffset fb ->
  is_int64 (baseOffset fb + off) ->
  baseOffset fb mod maxSize s + off <= maxSize s ->
  0 <= i -> i < off -> i + len buf <= off ->
  exists s',
    Store.FinalizeWrite (S k) p s = Ok s'
    /\ tailOffset s' = baseOffset fb + off
    /\ head s' = child fb
    /\ flushBufs s' !! p = Some (FB.Reset fb)
    /\ (forall q, q <> p -> flushBufs s' !! q = flushBufs s !! q)
    /\ currBuf s' = currBuf s
    /\ Store.Read (S k') (baseOffset fb + i) buf s'
       = Ok (take (length buf) (drop (Z.to_nat i) (b fb)), (len buf, None)).
Proof.
  intros Hp Hst Hdec Hfill Hmax Hbase Hend Hwrap Hi Hlt Hfit.
  destruct (decodeState_range _ _ _ _ Hst Hdec) as [_ Hoff].
  set (fb1 := set_state fb (encodeState true 0 off)).
  set (s1 := put_fb s p fb1).
  assert (Hfb1 : flushBufs s1 !! p = Some fb1)
    by (eapply lookup_put_fb_same; exact Hp).
  assert (Hdec1 : decodeState (state fb1) = (true, 0, off))
    by (cbn [fb1 set_state state]; apply decode_encode; lia).
  assert (Hoff1 : 0 <= off <= len (b fb1)) by (change (b fb1) with (b fb); lia).
  assert (Hflush := flush_result s1 p fb1 true 0 off Hfb1 Hdec1 Hoff1 Hmax
                      Hbase Hend).
  change (maxSize s1) with (maxSize s) in Hflush.
  change (file s1) with (file s) in Hflush.
  change (b fb1) with (b fb) in Hflush.
  change (baseOffset fb1) with (baseOffset fb) in Hflush.
  change (child fb1) with (child fb) in Hflush.
  change (FB.Reset fb1) with (FB.Reset fb) in Hflush.
  set (s' := put_fb
               (set_tailOffset
                  (set_head
                     (set_file s1
                        (WriteAt (file s) (take (Z.to_nat off) (b fb))
                           (baseOffset fb mod maxSize s)))
                     (child fb))
                  (baseOffset fb + off)) p (FB.Reset fb)) in *.
  assert (Hreset : flushBufs s' !! p = Some (FB.Reset fb)).
  { unfold s'. eapply lookup_put_fb_same.
    change (flushBufs (set_tailOffset _ _)) with (flushBufs s1). exact Hfb1. }
  exists s'. split.
  { unfold Store.FinalizeWrite, Store.Done.
    rewrite (Done_unfold LSS.flush k p s fb true 1 off Hp Hdec).
    change (1 - 1) with 0.
    rewrite (int64_id 0) by (unfold is_int64, min_int64, max_int64; lia).
    fold fb1. fold s1. unfold after_decrement.
    cbn [Z.eqb Pos.eqb andb]. rewrite Hflush. cbn [mbind result_bind].
    rewrite (get_fb_Some _ _ _ Hreset). reflexivity. }
  split; [reflexivity|]. split; [reflexivity|]. split; [exact Hreset|].
  split.
  { intros q Hq. unfold s'. rewrite lookup_put_fb_other by congruence.
    change (flushBufs (set_tailOffset _ _)) with (flushBufs s1).
    unfold s1. rewrite lookup_put_fb_other by congruence. reflexivity. }
  split; [reflexivity|].
  apply (Read_flushed_range s fb off ltac:(lia) Hmax Hbase Hend i buf Hwrap Hi
           Hlt Hfit k'); reflexivity.
Qed.

Lemma X19_last_FinalizeWrite_makes_bytes_durable_witness :
  exists s',
    Store.FinalizeWrite 1 0 Examples.drainingStore = Ok s'
    /\ tailOffset s' = 1110
    /\ head s' = Some 1%nat
    /\ Exec.decoded 1 (Ok s') = Ok (false, 2, 0)
    /\ Store.Read 1 1100 (replicate 10 x00) s'
       = Ok (replicate 10 x01, (10, None)).
Proof.
  assert (Hu : is_uint64 (state Examples.draining64))
    by (vm_compute; split; [discriminate|reflexivity]).
  assert (Hfill : 10 <= len (b Examples.draining64))
    by (vm_compute; discriminate).
  assert (Hmax : 0 < maxSize Examples.drainingStore) by reflexivity.
  assert (Hbase : 0 <= baseOffset Examples.draining64)
    by (vm_compute; discriminate).
  assert (Hend : is_int64 (baseOffset Examples.draining64 + 10))
    by (vm_compute; split; discriminate).
  assert (Hwrap : baseOffset Examples.draining64
                    mod maxSize Examples.drainingStore + 10
                  <= maxSize Examples.drainingStore)
    by (vm_compute; discriminate).
  assert (Hi : 0 <= 0) by lia.
  assert (Hlt : 0 < 10) by lia.
  assert (Hfit : 0 + len (replicate 10 x00) <= 10)
    by (vm_compute; discriminate).
  destruct (X19_last_FinalizeWrite_makes_bytes_durable 0 0
              Examples.drainingStore 0 Examples.draining64 10 0
              (replicate 10 x00) eq_refl Hu eq_refl Hfill Hmax Hbase Hend
              Hwrap Hi Hlt Hfit)
    as (s' & Hfin & Htail & Hhead & _ & Hoth & _ & Hread).
  exists s'. split; [exact Hfin|]. split; [exact Htail|].
  split; [exact Hhead|]. split; [|exact Hread].
  unfold Exec.decoded. cbn [mbind result_bind]. unfold get_fb.
  rewrite (Hoth 1%nat) by discriminate. vm_compute. reflexivity.
Defined.
